(** * TrafficTool: the data acquisition and aggregation pipeline of [RoadTool]

    A shallow embedding of [src/trafficTool.py] (class [RoadTool]) and the
    properties its specification states about it.

    Conventions of the embedding:
    - a naive [datetime] is its position on the proleptic Gregorian
      time line, counted in microseconds from [datetime.min]
      (0001-01-01T00:00:00); a [timedelta] is a number of microseconds.
      Python compares, hashes and subtracts naive datetimes exactly as these
      integers, and [datetime + timedelta] raises [OverflowError] outside
      [datetime.min .. datetime.max];
    - a Python exception is a value of [exn]; code that may raise returns a
      [result];
    - a [while] loop runs on fuel and yields [None] when the fuel is spent,
      so that termination is a theorem and not an assumption;
    - a [dict] the program builds is a [gmap]; a [dict] decoded from JSON
      keeps its items in order; a [list] is a [list];
    - text is ASCII. *)

From Stdlib Require Import ZArith Lia List Ascii String Permutation QArith Qcanon.
From stdpp Require Import gmap strings list fin_maps.

Local Open Scope Z_scope.
Set Warnings "-register-all".

(** ** Exceptions and results *)

(** what a [KeyError] reports: the key that was not found *)
Inductive pykey : Type :=
| KStr (s : string)
| KTime (t : Z).

Inductive exn : Type :=
| ReadTimeout (msg : string)       (* requests.exceptions.ReadTimeout *)
| TransportFailure (tag : string)  (* any other exception of requests.post *)
| ConnectionError (msg : string)   (* builtins.ConnectionError *)
| JSONDecodeError                  (* response.json() on a body that is not JSON *)
| KeyError (key : pykey)
| TypeError
| ValueError
| OverflowError.

Inductive result (A : Type) : Type :=
| Ok (a : A)
| Raise (e : exn).
Arguments Ok {A} a.
Arguments Raise {A} e.

Definition rbind {A B : Type} (r : result A) (k : A -> result B) : result B :=
  match r with
  | Ok a => k a
  | Raise e => Raise e
  end.

Notation "x <-! r ; k" := (rbind r (fun x => k))
  (at level 100, r at next level, right associativity, only parsing).

(** ** While loops on fuel *)

Fixpoint while {S : Type} (fuel : nat) (cond : S -> bool)
    (body : S -> result S) (s : S) : option (result S) :=
  match fuel with
  | O => None
  | Datatypes.S fuel' =>
      if cond s then
        match body s with
        | Ok s' => while fuel' cond body s'
        | Raise e => Some (Raise e)
        end
      else Some (Ok s)
  end.

(** ** The time line *)

Module Time.

Definition US_PER_SECOND : Z := 1000000.
Definition US_PER_HOUR : Z := 3600 * US_PER_SECOND.
Definition US_PER_DAY : Z := 24 * US_PER_HOUR.

(** [date.max.toordinal()] *)
Definition MAXORDINAL : Z := 3652059.

(** [datetime.max], 9999-12-31T23:59:59.999999 *)
Definition datetime_max : Z := MAXORDINAL * US_PER_DAY - 1.

Definition valid (t : Z) : Prop := 0 <= t <= datetime_max.

(** [timedelta(hours=n)] *)
Definition hours (n : Z) : Z := n * US_PER_HOUR.

(** [t + d] for a datetime [t] and a timedelta [d] *)
Definition datetime_add (t d : Z) : result Z :=
  let r := t + d in
  if (0 <=? r) && (r <=? datetime_max) then Ok r else Raise OverflowError.

(** minute, second and microsecond are all zero *)
Definition hour_aligned (t : Z) : Prop := t mod US_PER_HOUR = 0.

(** [t.replace(microsecond=0, second=0, minute=0)] *)
Definition floor_hour (t : Z) : Z := t - t mod US_PER_HOUR.

End Time.

(** ** The calendar: fields of a datetime (after CPython's [datetime.py]) *)

Module Calendar.
Import Time.

Definition is_leap (year : Z) : bool :=
  (year mod 4 =? 0) && (negb (year mod 100 =? 0) || (year mod 400 =? 0)).

Definition days_before_year (year : Z) : Z :=
  let y := year - 1 in y * 365 + y / 4 - y / 100 + y / 400.

Definition DAYS_IN_MONTH (month : Z) : Z :=
  match month with
  | 1 => 31 | 2 => 28 | 3 => 31 | 4 => 30 | 5 => 31 | 6 => 30
  | 7 => 31 | 8 => 31 | 9 => 30 | 10 => 31 | 11 => 30 | 12 => 31
  | _ => -1
  end.

Definition DAYS_BEFORE_MONTH (month : Z) : Z :=
  match month with
  | 1 => 0 | 2 => 31 | 3 => 59 | 4 => 90 | 5 => 120 | 6 => 151
  | 7 => 181 | 8 => 212 | 9 => 243 | 10 => 273 | 11 => 304 | 12 => 334
  | _ => -1
  end.

Definition days_in_month (year month : Z) : Z :=
  if (month =? 2) && is_leap year then 29 else DAYS_IN_MONTH month.

Definition days_before_month (year month : Z) : Z :=
  DAYS_BEFORE_MONTH month + (if (2 <? month) && is_leap year then 1 else 0).

Definition ymd2ord (year month day : Z) : Z :=
  days_before_year year + days_before_month year month + day.

Definition DI400Y : Z := 146097.
Definition DI100Y : Z := 36524.
Definition DI4Y : Z := 1461.

Definition ord2ymd (n : Z) : Z * Z * Z :=
  let n := n - 1 in
  let n400 := n / DI400Y in let n := n mod DI400Y in
  let year := n400 * 400 + 1 in
  let n100 := n / DI100Y in let n := n mod DI100Y in
  let n4 := n / DI4Y in let n := n mod DI4Y in
  let n1 := n / 365 in let n := n mod 365 in
  let year := year + (n100 * 100 + n4 * 4 + n1) in
  if (n1 =? 4) || (n100 =? 4) then (year - 1, 12, 31)
  else
    let leapyear := (n1 =? 3) && (negb (n4 =? 24) || (n100 =? 3)) in
    let month := Z.shiftr (n + 50) 5 in
    let preceding :=
      DAYS_BEFORE_MONTH month + (if (2 <? month) && leapyear then 1 else 0) in
    let '(month, preceding) :=
      if n <? preceding then
        (month - 1,
         preceding - (DAYS_IN_MONTH (month - 1)
                      + (if (month - 1 =? 2) && leapyear then 1 else 0)))
      else (month, preceding) in
    (year, month, n - preceding + 1).

(** The attributes of a datetime object. *)
Record fields : Type := mk_fields {
  year : Z; month : Z; day : Z;
  hour : Z; minute : Z; second : Z; microsecond : Z
}.

(** The checks of the [datetime] constructor. *)
Definition check_fields (f : fields) : bool :=
  (1 <=? year f) && (year f <=? 9999) &&
  (1 <=? month f) && (month f <=? 12) &&
  (1 <=? day f) && (day f <=? days_in_month (year f) (month f)) &&
  (0 <=? hour f) && (hour f <=? 23) &&
  (0 <=? minute f) && (minute f <=? 59) &&
  (0 <=? second f) && (second f <=? 59) &&
  (0 <=? microsecond f) && (microsecond f <=? 999999).

(** The position on the time line of the datetime with these fields. *)
Definition to_timeline (f : fields) : Z :=
  (ymd2ord (year f) (month f) (day f) - 1) * US_PER_DAY
  + hour f * US_PER_HOUR + minute f * (60 * US_PER_SECOND)
  + second f * US_PER_SECOND + microsecond f.

(** The fields of the datetime at position [t]. *)
Definition fields_of (t : Z) : fields :=
  let '(y, m, d) := ord2ymd (t / US_PER_DAY + 1) in
  let r := t mod US_PER_DAY in
  {| year := y; month := m; day := d;
     hour := r / US_PER_HOUR;
     minute := (r mod US_PER_HOUR) / (60 * US_PER_SECOND);
     second := (r mod (60 * US_PER_SECOND)) / US_PER_SECOND;
     microsecond := r mod US_PER_SECOND |}.

End Calendar.

(** ** Text: decimal numbers, case, slices *)

Module Text.

Definition digit_char (d : Z) : ascii := ascii_of_nat (48 + Z.to_nat d).

Definition digit_of_char (c : ascii) : option Z :=
  let n := Z.of_nat (nat_of_ascii c) in
  if (48 <=? n) && (n <=? 57) then Some (n - 48) else None.

Fixpoint decimal_go (fuel : nat) (n : Z) (acc : string) : string :=
  let acc' := String (digit_char (n mod 10)) acc in
  match fuel with
  | O => acc'
  | S fuel' => if n <? 10 then acc' else decimal_go fuel' (n / 10) acc'
  end.

(** [str(n)] for an [int], also C's [%d] *)
Definition str_of_Z (n : Z) : string :=
  if n <? 0 then String "-" (decimal_go (Z.to_nat (Z.log2 (- n))) (- n) EmptyString)
  else decimal_go (Z.to_nat (Z.log2 n)) n EmptyString.

(** C's [%02d] for a number of at most two digits *)
Definition pad2 (n : Z) : string :=
  String (digit_char (n / 10)) (String (digit_char (n mod 10)) EmptyString).

Definition upper_char (c : ascii) : ascii :=
  let n := nat_of_ascii c in
  if (97 <=? n)%nat && (n <=? 122)%nat then ascii_of_nat (n - 32) else c.

Definition lower_char (c : ascii) : ascii :=
  let n := nat_of_ascii c in
  if (65 <=? n)%nat && (n <=? 90)%nat then ascii_of_nat (n + 32) else c.

Fixpoint map_string (f : ascii -> ascii) (s : string) : string :=
  match s with
  | EmptyString => EmptyString
  | String c s' => String (f c) (map_string f s')
  end.

(** [s.upper()] and [s.lower()] on ASCII text *)
Definition upper (s : string) : string := map_string upper_char s.
Definition lower (s : string) : string := map_string lower_char s.

(** [s[:-6]] *)
Definition drop_last6 (s : string) : string :=
  substring 0 (String.length s - 6) s.

(** [sep.join(l)] *)
Fixpoint join (sep : string) (l : list string) : string :=
  match l with
  | [] => EmptyString
  | [x] => x
  | x :: l' => x +:+ sep +:+ join sep l'
  end.

End Text.

(** ** [strftime] and [strptime] for the one format of the program *)

Module DateText.
Import Time Calendar Text.

Inductive directive : Type := dY | dm | dd | dH | dM | dS.

Inductive item : Type :=
| Dir (d : directive)
| Lit (c : ascii).

(** ["%Y-%m-%dT%H:%M:%S"] *)
Definition FORMAT : list item :=
  [Dir dY; Lit "-"; Dir dm; Lit "-"; Dir dd; Lit "T";
   Dir dH; Lit ":"; Dir dM; Lit ":"; Dir dS].

(** the literal tail ["+02:00"] of the format of [datetime_to_string] *)
Definition OFFSET : list item :=
  [Lit "+"; Lit "0"; Lit "2"; Lit ":"; Lit "0"; Lit "0"].

(** *** Printing.  CPython hands the directives to the C library: glibc
    prints [%Y] as a plain decimal number (no leading zeros) and the other
    five fields on two digits. *)
Definition print_directive (d : directive) (f : fields) : string :=
  match d with
  | dY => str_of_Z (year f)
  | dm => pad2 (month f)
  | dd => pad2 (day f)
  | dH => pad2 (hour f)
  | dM => pad2 (minute f)
  | dS => pad2 (second f)
  end.

Fixpoint print_format (fmt : list item) (f : fields) : string :=
  match fmt with
  | [] => EmptyString
  | Dir d :: fmt' => print_directive d f +:+ print_format fmt' f
  | Lit c :: fmt' => String c (print_format fmt' f)
  end.

Definition strftime (t : Z) (fmt : list item) : string :=
  print_format fmt (fields_of t).

(** *** Parsing.  [_strptime] turns the format into a regular expression,
    compiled with IGNORECASE, and takes the first match that the
    backtracking matcher finds.  A matcher is modelled by the list of its
    matches in the order the regular expression engine tries them. *)
Definition matcher (A : Type) : Type := string -> list (A * string).

Definition m_digit (lo hi : Z) : matcher Z := fun s =>
  match s with
  | String c s' =>
      match digit_of_char c with
      | Some d => if (lo <=? d) && (d <=? hi) then [(d, s')] else []
      | None => []
      end
  | EmptyString => []
  end.

Definition m_char (c : ascii) : matcher unit := fun s =>
  match s with
  | String c' s' =>
      if Ascii.eqb (lower_char c') (lower_char c) then [(tt, s')] else []
  | EmptyString => []
  end.

Definition m_bind {A B : Type} (m : matcher A) (k : A -> matcher B)
    : matcher B :=
  fun s => flat_map (fun '(a, s') => k a s') (m s).

Definition m_alt {A : Type} (m1 m2 : matcher A) : matcher A :=
  fun s => m1 s ++ m2 s.

(** two digits, read as a number *)
Definition m_two (lo1 hi1 lo2 hi2 : Z) : matcher Z :=
  m_bind (m_digit lo1 hi1) (fun a =>
  m_bind (m_digit lo2 hi2) (fun b s => [(10 * a + b, s)])).

Definition m_one (lo hi : Z) : matcher Z := m_digit lo hi.

(** the regular expression of each directive, alternatives in order *)
Definition directive_re (d : directive) : matcher Z :=
  match d with
  | dY => (* \d\d\d\d *)
      m_bind (m_digit 0 9) (fun a =>
      m_bind (m_digit 0 9) (fun b =>
      m_bind (m_digit 0 9) (fun c =>
      m_bind (m_digit 0 9) (fun e s =>
        [(1000 * a + 100 * b + 10 * c + e, s)]))))
  | dm => (* 1[0-2]|0[1-9]|[1-9] *)
      m_alt (m_two 1 1 0 2) (m_alt (m_two 0 0 1 9) (m_one 1 9))
  | dd => (* 3[0-1]|[1-2]\d|0[1-9]|[1-9]| [1-9] *)
      m_alt (m_two 3 3 0 1) (m_alt (m_two 1 2 0 9) (m_alt (m_two 0 0 1 9)
        (m_alt (m_one 1 9)
               (m_bind (m_char " ") (fun _ => m_one 1 9)))))
  | dH => (* 2[0-3]|[0-1]\d|\d *)
      m_alt (m_two 2 2 0 3) (m_alt (m_two 0 1 0 9) (m_one 0 9))
  | dM => (* [0-5]\d|\d *)
      m_alt (m_two 0 5 0 9) (m_one 0 9)
  | dS => (* 6[0-1]|[0-5]\d|\d *)
      m_alt (m_two 6 6 0 1) (m_alt (m_two 0 5 0 9) (m_one 0 9))
  end.

Definition set_field (d : directive) (v : Z) (f : fields) : fields :=
  match d with
  | dY => mk_fields v (month f) (day f) (hour f) (minute f) (second f) (microsecond f)
  | dm => mk_fields (year f) v (day f) (hour f) (minute f) (second f) (microsecond f)
  | dd => mk_fields (year f) (month f) v (hour f) (minute f) (second f) (microsecond f)
  | dH => mk_fields (year f) (month f) (day f) v (minute f) (second f) (microsecond f)
  | dM => mk_fields (year f) (month f) (day f) (hour f) v (second f) (microsecond f)
  | dS => mk_fields (year f) (month f) (day f) (hour f) (minute f) v (microsecond f)
  end.

Fixpoint match_format (fmt : list item) (f : fields) : matcher fields :=
  match fmt with
  | [] => fun s => [(f, s)]
  | Dir d :: fmt' =>
      m_bind (directive_re d) (fun v => match_format fmt' (set_field d v f))
  | Lit c :: fmt' =>
      m_bind (m_char c) (fun _ => match_format fmt' f)
  end.

(** the values of the fields no directive sets *)
Definition default_fields : fields := mk_fields 1900 1 1 0 0 0 0.

Definition strptime (s : string) (fmt : list item) : result Z :=
  match match_format fmt default_fields s with
  | [] => Raise ValueError                     (* does not match format *)
  | (f, rest) :: _ =>
      match rest with
      | EmptyString =>
          if check_fields f then Ok (to_timeline f)
          else Raise ValueError                (* field out of range *)
      | String _ _ => Raise ValueError         (* unconverted data remains *)
      end
  end.

End DateText.

(** ** The two conversions of the program (lines 20-34) *)

Module Conversions.
Import Text DateText.

Definition string_to_datetime (string : string) : result Z :=
  strptime (drop_last6 string) FORMAT.

Definition datetime_to_string (datetime_object : Z) : string :=
  strftime datetime_object (FORMAT ++ OFFSET).

End Conversions.

(** ** Decoded JSON: the values [response.json()] is made of *)

Module Json.

Inductive json : Type :=
| JNull                               (* None *)
| JBool (b : bool)
| JInt (n : Z)
| JFloat (q : Qc)                     (* a finite float, by its exact value *)
| JStr (s : string)
| JArr (l : list json)
| JObj (kv : list (string * json)).   (* a dict, keys in insertion order *)

Fixpoint assoc (key : string) (kv : list (string * json)) : option json :=
  match kv with
  | [] => None
  | (k, v) :: kv' => if String.eqb k key then Some v else assoc key kv'
  end.

(** [v[key]] for a string [key] *)
Definition getitem (v : json) (key : string) : result json :=
  match v with
  | JObj kv =>
      match assoc key kv with
      | Some x => Ok x
      | None => Raise (KeyError (KStr key))
      end
  | _ => Raise TypeError    (* not subscriptable, or indices must be integers *)
  end.

Fixpoint chars (s : string) : list json :=
  match s with
  | EmptyString => []
  | String c s' => JStr (String c EmptyString) :: chars s'
  end.

(** the items [for j in v] goes through *)
Definition iter (v : json) : result (list json) :=
  match v with
  | JArr l => Ok l
  | JObj kv => Ok (map (fun p => JStr (fst p)) kv)
  | JStr s => Ok (chars s)
  | _ => Raise TypeError    (* object is not iterable *)
  end.

(** the number a value counts as in a comparison, if it is a number *)
Definition number (v : json) : option Qc :=
  match v with
  | JBool b => Some (Qc_of_Z (if b then 1 else 0))
  | JInt n => Some (Qc_of_Z n)
  | JFloat q => Some q
  | _ => None
  end.

(** [max(m, v)] where [m] is a number: [v] if [v > m], else [m] *)
Definition py_max (m v : json) : result json :=
  match number v, number m with
  | Some x, Some y => Ok (if decide (y < x)%Qc then v else m)
  | _, _ => Raise TypeError  (* '>' not supported between these types *)
  end.

(** the value under a path of keys, when every step finds a dict with the key *)
Fixpoint lookup_path (path : list string) (v : json) : option json :=
  match path with
  | [] => Some v
  | key :: path' =>
      match v with
      | JObj kv =>
          match assoc key kv with
          | Some x => lookup_path path' x
          | None => None
          end
      | _ => None
      end
  end.

End Json.

(** ** Transport: [request] (lines 36-63) *)

Module Transport.
Import Text Json.

Record response : Type := mk_response {
  status_code : Z;
  json_body : option json      (* [None]: the body is not JSON *)
}.

(** what one call of [requests.post] does *)
Inductive outcome : Type :=
| Responded (r : response)
| TimedOut                     (* raises requests.exceptions.ReadTimeout *)
| Failed (tag : string).       (* raises any other exception *)

(** The service: the outcome of the [k]-th POST of the run, given its body. *)
Definition network : Type := nat -> string -> outcome.

(** A computation that posts: from the number of POSTs issued so far to a
    result and the new number; [None] when a loop ran out of fuel. *)
Definition io (A : Type) : Type := nat -> option (result A * nat).

Definition io_ret {A : Type} (a : A) : io A := fun k => Some (Ok a, k).

Definition io_raise {A : Type} (e : exn) : io A := fun k => Some (Raise e, k).

Definition io_bind {A B : Type} (m : io A) (f : A -> io B) : io B :=
  fun k =>
    match m k with
    | None => None
    | Some (Ok a, k') => f a k'
    | Some (Raise e, k') => Some (Raise e, k')
    end.

Definition io_lift {A : Type} (r : result A) : io A := fun k => Some (r, k).

Definition io_fuel {A : Type} (o : option (result A)) : io A :=
  fun k => match o with None => None | Some r => Some (r, k) end.

Notation "x <-- m ; f" := (io_bind m (fun x => f))
  (at level 100, m at next level, right associativity, only parsing).

(** how the [while attempts > 0] loop is left *)
Inductive loop_exit : Type :=
| Broke (attempts : nat) (r : response)   (* [break], [attempts] left *)
| Exhausted.                              (* the test failed: [attempts = 0] *)

Fixpoint post_loop (net : network) (data : string) (attempts : nat)
    : io loop_exit :=
  match attempts with
  | O => io_ret Exhausted
  | S attempts' => fun k =>
      match net k data with
      | Responded r => Some (Ok (Broke attempts r), S k)
      | TimedOut => post_loop net data attempts' (S k)
      | Failed tag => Some (Raise (TransportFailure tag), S k)
      end
  end.

Definition timeout_msg : string := "Error connecting to Vegvesen API - Time Out".

Definition status_msg (code : Z) : string :=
  "Error connecting to Vegvesen API - Status Code " +:+ str_of_Z code.

Definition request (net : network) (query : string) : io response :=
  exit <-- post_loop net query 10;
  match exit with
  | Exhausted => io_raise (ReadTimeout timeout_msg)
  | Broke attempts response =>
      if (attempts <=? 0)%nat then io_raise (ReadTimeout timeout_msg)
      else if negb (status_code response =? 200)
      then io_raise (ConnectionError (status_msg (status_code response)))
      else io_ret response
  end.

End Transport.

(** ** Query construction (lines 103-135 and 147-153) *)

Module Query.
Import Text.

Definition DQ : string := String (ascii_of_nat 34) EmptyString.
Definition BS : string := String (ascii_of_nat 92) EmptyString.

Record filters : Type := mk_filters {
  roadCategoryIds : option (list string);
  countyNumbers : option (list Z);
  isOperational : option bool;
  trafficType : option string;
  registrationFrequency : option string
}.

(** [str(b)] *)
Definition str_of_bool (b : bool) : string := if b then "True" else "False".

(** the list [searchQuery] before it is joined *)
Definition searchQuery_clauses (f : filters) : list string :=
  (match roadCategoryIds f with
   | Some l => ["roadCategoryIds: [" +:+ join ", " l +:+ "]"]
   | None => []
   end) ++
  (match countyNumbers f with
   | Some l => ["countyNumbers: [" +:+ join ", " (map str_of_Z l) +:+ "]"]
   | None => []
   end) ++
  (match isOperational f with
   | Some b => ["isOperational: " +:+ lower (str_of_bool b)]
   | None => []
   end) ++
  (match trafficType f with
   | Some x => ["trafficType: " +:+ upper x]
   | None => []
   end) ++
  (match registrationFrequency f with
   | Some x => ["registrationFrequency: " +:+ upper x]
   | None => []
   end).

(** the template of lines 128-132, formatted with [searchQuery] *)
Definition search_template (searchQuery : string) : string :=
  "{" +:+ DQ +:+ "query" +:+ DQ +:+ ":" +:+ DQ
  +:+ "{trafficRegistrationPoints(searchQuery:{" +:+ searchQuery +:+ "})"
  +:+ "{id name location{coordinates{latLon{lat lon}}}}}" +:+ DQ
  +:+ ", " +:+ DQ +:+ "variables" +:+ DQ +:+ ": null}".

Definition query_traffic_registration_point_search (f : filters) : string :=
  let searchQuery :=
    match searchQuery_clauses f with
    | [] => EmptyString
    | clauses => join ", " clauses
    end in
  search_template searchQuery.

(** [query_template] of lines 147-153 after its two [format] calls *)
Definition volume_query (i start_str stop_str : string) : string :=
  "{" +:+ DQ +:+ "query" +:+ DQ +:+ ": " +:+ DQ
  +:+ "{trafficData(trafficRegistrationPointId: " +:+ BS +:+ DQ +:+ i
  +:+ BS +:+ DQ +:+ ")"
  +:+ " { volume { byHour(from: " +:+ BS +:+ DQ +:+ start_str +:+ BS +:+ DQ
  +:+ ", to: " +:+ BS +:+ DQ +:+ stop_str +:+ BS +:+ DQ +:+ ") { edges "
  +:+ "{ node {from to total { volumeNumbers { volume } "
  +:+ "coverage { percentage }}}}}}}}" +:+ DQ +:+ ", "
  +:+ DQ +:+ "variables" +:+ DQ +:+ ": null}".

End Query.

(** ** Time-window partition of [query_traffic_volume_by_hour] (lines 155-169) *)

Module Partition.
Import Time.

Record loop_state : Type := mk_state {
  t : Z;
  start_step : Z;
  t_count : Z;
  divisions : list (Z * Z)
}.

Definition dt : Z := hours 1.
Definition query_hour_limit : Z := hours 99.

(** One turn of [while t < stop]. *)
Definition body (s : loop_state) : result loop_state :=
  let s1 :=
    if query_hour_limit <=? t_count s then
      {| t := t s;
         start_step := t s;
         t_count := 0;
         divisions := divisions s ++ [(start_step s, t s)] |}
    else s in
  let t_count' := t_count s1 + dt in
  t' <-! datetime_add (t s1) dt;
  Ok {| t := t';
        start_step := start_step s1;
        t_count := t_count';
        divisions := divisions s1 |}.

Definition init (start : Z) : loop_state :=
  {| t := start; start_step := start; t_count := 0; divisions := [] |}.

(** The list [divisions] as it stands when the fetch loop starts. *)
Definition compute_divisions (fuel : nat) (start stop : Z)
    : option (result (list (Z * Z))) :=
  match while fuel (fun s => t s <? stop) body (init start) with
  | None => None
  | Some (Raise e) => Some (Raise e)
  | Some (Ok s) =>
      Some (Ok (if decide (start_step s = t s) then divisions s
                else divisions s ++ [(start_step s, t s)]))
  end.

(** Windows that follow one another from [a] to [b]: each starts where
    the previous one stopped. *)
Fixpoint chain (a b : Z) (ws : list (Z * Z)) : Prop :=
  match ws with
  | [] => a = b
  | w :: ws' => fst w = a /\ chain (snd w) b ws'
  end.

Definition span (w : Z * Z) : Z := snd w - fst w.

Definition total_span (ws : list (Z * Z)) : Z :=
  fold_right (fun w acc => span w + acc) 0 ws.

End Partition.

(** ** The fetch loop of [query_traffic_volume_by_hour] (lines 171-212)

    The progress percentage that the loop prints is a side channel and is
    left out. *)

Module Fetch.
Import Text Conversions Json Transport Query Partition.

(** one hourly record, the dict [element] *)
Record element : Type := mk_element {
  start : Z;
  stop : Z;
  volume : json;
  coverage : json
}.

(** [self.string_to_datetime(x)] for whatever the payload holds at [x]:
    slicing [None], a number or a dict raises [TypeError] (a dict raises
    [KeyError] from Python 3.12 on, where slices are hashable), and so does
    [strptime] on the slice of a list. *)
Definition string_to_datetime_of (x : json) : result Z :=
  match x with
  | JStr s => string_to_datetime s
  | _ => Raise TypeError
  end.

(** the dict display of lines 194-199, its values evaluated in order *)
Definition make_element (j : json) : result element :=
  node <-! getitem j "node";
  from <-! getitem node "from";
  start <-! string_to_datetime_of from;
  node <-! getitem j "node";
  to <-! getitem node "to";
  stop <-! string_to_datetime_of to;
  node <-! getitem j "node";
  total <-! getitem node "total";
  volumeNumbers <-! getitem total "volumeNumbers";
  volume <-! getitem volumeNumbers "volume";
  node <-! getitem j "node";
  total <-! getitem node "total";
  coverage <-! getitem total "coverage";
  percentage <-! getitem coverage "percentage";
  Ok (mk_element start stop volume percentage).

(** the [for j in ...] loop: [temp_list] grows until an element raises *)
Fixpoint make_elements (edges : list json) (temp_list : list element)
    : result (list element) :=
  match edges with
  | [] => Ok temp_list
  | j :: edges' =>
      element <-! make_element j;
      make_elements edges' (temp_list ++ [element])
  end.

(** the body of the [try] (lines 191-200) *)
Definition try_body (response : response) : result (list element) :=
  payload <-! (match json_body response with
               | Some v => Ok v
               | None => Raise JSONDecodeError
               end);
  data <-! getitem payload "data";
  trafficData <-! getitem data "trafficData";
  volume <-! getitem trafficData "volume";
  byHour <-! getitem volume "byHour";
  edges <-! getitem byHour "edges";
  items <-! iter edges;
  make_elements items [].

(** [try ... except TypeError: pass ... else: ...] (lines 189-208) *)
Definition accumulate (trafficVolumeByHour : gmap string (list element))
    (i : string) (response : response)
    : result (gmap string (list element)) :=
  match try_body response with
  | Raise TypeError => Ok trafficVolumeByHour
  | Raise e => Raise e
  | Ok temp_list =>
      match trafficVolumeByHour !! i with
      | Some l => Ok (<[i := l ++ temp_list]> trafficVolumeByHour)
      | None => Ok (<[i := temp_list]> trafficVolumeByHour)
      end
  end.

(** [for n, i in enumerate(trafficRegistrationPoints)] *)
Fixpoint for_points (net : network) (start_str stop_str : string)
    (trafficRegistrationPoints : list string)
    (trafficVolumeByHour : gmap string (list element))
    : io (gmap string (list element)) :=
  match trafficRegistrationPoints with
  | [] => io_ret trafficVolumeByHour
  | i :: rest =>
      response <-- request net (volume_query i start_str stop_str);
      trafficVolumeByHour' <-- io_lift (accumulate trafficVolumeByHour i response);
      for_points net start_str stop_str rest trafficVolumeByHour'
  end.

(** [for m, (start_step, stop_step) in enumerate(divisions)] *)
Fixpoint for_divisions (net : network)
    (trafficRegistrationPoints : list string) (divisions : list (Z * Z))
    (trafficVolumeByHour : gmap string (list element))
    : io (gmap string (list element)) :=
  match divisions with
  | [] => io_ret trafficVolumeByHour
  | (start_step, stop_step) :: rest =>
      let start_str := datetime_to_string start_step in
      let stop_str := datetime_to_string stop_step in
      trafficVolumeByHour' <--
        for_points net start_str stop_str trafficRegistrationPoints
          trafficVolumeByHour;
      for_divisions net trafficRegistrationPoints rest trafficVolumeByHour'
  end.

Definition query_traffic_volume_by_hour (net : network) (fuel : nat)
    (trafficRegistrationPoints : list string) (start stop : Z)
    : io (gmap string (list element)) :=
  divisions <-- io_fuel (compute_divisions fuel start stop);
  for_divisions net trafficRegistrationPoints divisions ∅.

End Fetch.

(** ** Aggregation: [get_traffic_volume_by_hour] (lines 247-281) *)

Module Aggregate.
Import Time Json Transport Fetch.

(** an entry of [trafficRegistrationPoints] *)
Record point : Type := mk_point {
  id : string;
  name : json;
  lat : json;
  lon : json
}.

(** the dict stored at [sortedTrafficVolumeByHour[hour][id]] *)
Record cell : Type := mk_cell {
  cell_volume : json;
  cell_lat : json;
  cell_lon : json
}.

Definition dt : Z := hours 1.

(** [while t < stop: sortedTrafficVolumeByHour[t] = {}; t += dt] *)
Definition grid_body (s : Z * gmap Z (gmap string cell))
    : result (Z * gmap Z (gmap string cell)) :=
  let '(t, sorted) := s in
  let sorted' := <[t := ∅]> sorted in
  t' <-! datetime_add t dt;
  Ok (t', sorted').

Definition make_grid (fuel : nat) (start stop : Z)
    : option (result (gmap Z (gmap string cell))) :=
  match while fuel (fun s => fst s <? stop) grid_body (start, ∅) with
  | None => None
  | Some (Raise e) => Some (Raise e)
  | Some (Ok s) => Some (Ok (snd s))
  end.

(** the two statements of the innermost loop (lines 274-279) *)
Definition insert_record (i : point) (j : element)
    (s : gmap Z (gmap string cell) * json)
    : result (gmap Z (gmap string cell) * json) :=
  let '(sorted, max_volume) := s in
  let value := mk_cell (volume j) (lat i) (lon i) in
  inner <-! (match sorted !! start j with
             | Some inner => Ok inner
             | None => Raise (KeyError (KTime (start j)))
             end);
  let sorted' := <[start j := <[id i := value]> inner]> sorted in
  max_volume' <-! py_max max_volume (volume j);
  Ok (sorted', max_volume').

(** [for j in trafficVolumeByHour[id]] *)
Fixpoint for_records (i : point) (records : list element)
    (s : gmap Z (gmap string cell) * json)
    : result (gmap Z (gmap string cell) * json) :=
  match records with
  | [] => Ok s
  | j :: rest => s' <-! insert_record i j s; for_records i rest s'
  end.

(** [for i in trafficRegistrationPoints] *)
Fixpoint for_sensors (trafficRegistrationPoints : list point)
    (trafficVolumeByHour : gmap string (list element))
    (s : gmap Z (gmap string cell) * json)
    : result (gmap Z (gmap string cell) * json) :=
  match trafficRegistrationPoints with
  | [] => Ok s
  | i :: rest =>
      s' <-! (match trafficVolumeByHour !! id i with
              | Some records => for_records i records s
              | None => Ok s
              end);
      for_sensors rest trafficVolumeByHour s'
  end.

(** lines 261-281: what the function does with the series it fetched *)
Definition sort_by_hour (fuel : nat) (trafficRegistrationPoints : list point)
    (trafficVolumeByHour : gmap string (list element)) (start stop : Z)
    : option (result (gmap Z (gmap string cell) * json)) :=
  match make_grid fuel start stop with
  | None => None
  | Some (Raise e) => Some (Raise e)
  | Some (Ok sortedTrafficVolumeByHour) =>
      Some (for_sensors trafficRegistrationPoints trafficVolumeByHour
              (sortedTrafficVolumeByHour, JInt 0))
  end.

Definition get_traffic_volume_by_hour (net : network) (fuel : nat)
    (trafficRegistrationPoints : list point) (start stop : Z)
    : io (gmap Z (gmap string cell) * json) :=
  let start := floor_hour start in
  let stop := floor_hour stop in
  trafficVolumeByHour <--
    query_traffic_volume_by_hour net fuel
      (map id trafficRegistrationPoints) start stop;
  io_fuel (sort_by_hour fuel trafficRegistrationPoints trafficVolumeByHour
             start stop).

End Aggregate.

(** ** Sensor search: [get_traffic_registration_points] (lines 214-245) *)

Module Points.
Import Json Transport Query.

(** one entry of the list the function returns, the dict with the keys
    [id], [name], [lat] and [lon] *)
Record registration_point : Type := mk_registration_point {
  rp_id : json;
  rp_name : json;
  rp_lat : json;
  rp_lon : json
}.

(** the dict display of lines 237-242, its values evaluated in order *)
Definition make_point (i : json) : result registration_point :=
  id <-! getitem i "id";
  name <-! getitem i "name";
  location <-! getitem i "location";
  coordinates <-! getitem location "coordinates";
  latLon <-! getitem coordinates "latLon";
  lat <-! getitem latLon "lat";
  location <-! getitem i "location";
  coordinates <-! getitem location "coordinates";
  latLon <-! getitem coordinates "latLon";
  lon <-! getitem latLon "lon";
  Ok (mk_registration_point id name lat lon).

(** the list comprehension of lines 236-244 *)
Fixpoint make_points (items : list json) : result (list registration_point) :=
  match items with
  | [] => Ok []
  | i :: rest =>
      point <-! make_point i;
      points <-! make_points rest;
      Ok (point :: points)
  end.

(** lines 235-244, on the response *)
Definition points_of_response (response : response)
    : result (list registration_point) :=
  payload <-! (match json_body response with
               | Some v => Ok v
               | None => Raise JSONDecodeError
               end);
  data <-! getitem payload "data";
  trafficRegistrationPoints <-! getitem data "trafficRegistrationPoints";
  items <-! iter trafficRegistrationPoints;
  make_points items.

Definition get_traffic_registration_points (net : network) (f : filters)
    : io (list registration_point) :=
  let query := query_traffic_registration_point_search f in
  response <-- request net query;
  io_lift (points_of_response response).

End Points.

(** * Vocabulary of the properties: invariants, measures, sample data *)

Module PartitionSpec.
Import Time Partition.

(** What holds of the loop state each time the test [t < stop] is
    evaluated. *)
Record invariant (start stop : Z) (s : loop_state) : Prop := {
  inv_pos : t s = start_step s + t_count s;
  inv_count : 0 <= t_count s <= query_hour_limit;
  inv_count_al : t_count s mod US_PER_HOUR = 0;
  inv_le : t s <= stop;
  inv_al : (stop - t s) mod US_PER_HOUR = 0;
  inv_chain : chain start (start_step s) (divisions s);
  inv_full : Forall (fun w => span w = query_hour_limit) (divisions s);
  inv_first : t_count s = 0 -> divisions s = []
}.

Definition hours_left (stop : Z) (s : loop_state) : nat :=
  Z.to_nat ((stop - t s) / US_PER_HOUR).

End PartitionSpec.

Module TransportSpec.
Import Text Json Transport.
Local Open Scope nat_scope.

(** the POSTs numbered [k], ..., [k + n - 1] all time out *)
Definition timeouts (net : network) (data : string) (k n : nat) : Prop :=
  forall j, k <= j < k + n -> net j data = TimedOut.

(** two timeouts, then a response with status 404 *)
Definition flaky_404 : network := fun k _ =>
  if (k <? 2)%nat then TimedOut else Responded (mk_response 404 None).

End TransportSpec.

Module QuerySpec.
Import Text Query.

(** the names of the filters that were supplied, in the order of the code *)
Definition key_if {A : Type} (argument : option A) (key : string) : list string :=
  match argument with
  | Some _ => [key]
  | None => []
  end.

Definition supplied_keys (f : filters) : list string :=
  key_if (roadCategoryIds f) "roadCategoryIds" ++
  key_if (countyNumbers f) "countyNumbers" ++
  key_if (isOperational f) "isOperational" ++
  key_if (trafficType f) "trafficType" ++
  key_if (registrationFrequency f) "registrationFrequency".

(** a clause [key: value] *)
Definition clause_of (key clause : string) : Prop :=
  exists value, clause = key +:+ ": " +:+ value.

Definition is_lower_letter (c : ascii) : bool :=
  let n := nat_of_ascii c in (97 <=? n)%nat && (n <=? 122)%nat.

Fixpoint all_chars (p : ascii -> bool) (s : string) : bool :=
  match s with
  | EmptyString => true
  | String c s' => p c && all_chars p s'
  end.

(** the five filters the function knows *)
Definition filter_keys : list string :=
  ["roadCategoryIds"; "countyNumbers"; "isOperational"; "trafficType";
   "registrationFrequency"].

(** [needle] occurs in [text] *)
Definition occurs (needle text : string) : Prop :=
  exists before after, text = before +:+ needle +:+ after.

Definition no_filters : filters := mk_filters None None None None None.

End QuerySpec.

Module FetchSpec.
Import Text Conversions Json Transport Query Partition Fetch.
Local Open Scope nat_scope.

(** between POST number [k0] and POST number [k], a POST for sensor [id]
    and one of the windows got a response with status 200 on which the
    [try] body gave the records [l] *)
Definition answered (net : network) (k0 : nat) (windows : list (Z * Z))
    (k : nat) (id : string) (l : list element) : Prop :=
  exists j w r,
    k0 <= j < k /\ In w windows /\
    net j (volume_query id (datetime_to_string (fst w))
             (datetime_to_string (snd w))) = Responded r /\
    status_code r = 200%Z /\
    try_body r = Ok l.

(** every key of the series is a requested sensor with an answered
    request, and every record under it comes from such an answer *)
Definition provenance (net : network) (k0 : nat) (windows : list (Z * Z))
    (points : list string) (k : nat) (series : gmap string (list element))
    : Prop :=
  forall id recs, series !! id = Some recs ->
    In id points /\
    (exists l, answered net k0 windows k id l) /\
    (forall e, In e recs -> exists l, answered net k0 windows k id l /\ In e l).

(** the keys the [try] body goes down before it iterates *)
Definition PATH : list string :=
  ["data"; "trafficData"; "volume"; "byHour"; "edges"].

(** subscript after subscript, as Python evaluates [v[k1][k2]...] *)
Fixpoint getpath (path : list string) (v : json) : result json :=
  match path with
  | [] => Ok v
  | key :: path' => x <-! getitem v key; getpath path' x
  end.

Definition is_dict (v : json) : bool :=
  match v with JObj _ => true | _ => false end.

Definition iterable (v : json) : bool :=
  match v with JArr _ | JObj _ | JStr _ => true | _ => false end.

(** a complete edge and a complete payload *)
Definition edge_json (from to : string) (volume percentage : json) : json :=
  JObj [("node", JObj [
    ("from", JStr from); ("to", JStr to);
    ("total", JObj [("volumeNumbers", JObj [("volume", volume)]);
                    ("coverage", JObj [("percentage", percentage)])])])].

Definition payload_json (edges : json) : json :=
  JObj [("data", JObj [("trafficData", JObj [("volume", JObj [("byHour",
    JObj [("edges", edges)])])])])].

Definition ok_response (payload : json) : response :=
  mk_response 200 (Some payload).

(** the service answers every request with an empty edge list *)
Definition empty_service : network :=
  fun _ _ => Responded (ok_response (payload_json (JArr []))).

End FetchSpec.

Module AggregateSpec.
Import Time Json Transport Fetch Aggregate.

(** [h] is an hour of the grid: [start + n] hours, before [stop] *)
Definition on_grid (start stop h : Z) : Prop :=
  exists n, 0 <= n /\ h = start + n * US_PER_HOUR /\ h < stop.

(** the state of the grid loop when its test is evaluated *)
Record grid_invariant (start stop : Z) (s : Z * gmap Z (gmap string cell))
    : Prop := {
  gi_from : exists n, 0 <= n /\ fst s = start + n * US_PER_HOUR;
  gi_le : fst s <= stop \/ fst s = start;
  gi_al : (stop - fst s) mod US_PER_HOUR = 0;
  gi_keys : forall h, is_Some (snd s !! h) <-> on_grid start (fst s) h;
  gi_empty : forall h inner, snd s !! h = Some inner -> inner = ∅
}.

Definition grid_left (stop : Z) (s : Z * gmap Z (gmap string cell)) : nat :=
  Z.to_nat ((stop - fst s) / US_PER_HOUR).

(** the records under a sensor id, none when the id is not a key *)
Definition records_of (series : gmap string (list element)) (i : string)
    : list element :=
  default [] (series !! i).

(** the records the loops go through, each with its sensor, in order *)
Definition processed (points : list point)
    (series : gmap string (list element)) : list (point * element) :=
  flat_map (fun i => map (pair i) (records_of series (id i))) points.

(** [insert_record] over a list of (sensor, record) pairs *)
Fixpoint insert_all (l : list (point * element))
    (s : gmap Z (gmap string cell) * json)
    : result (gmap Z (gmap string cell) * json) :=
  match l with
  | [] => Ok s
  | (i, j) :: rest => s' <-! insert_record i j s; insert_all rest s'
  end.

Definition int_volume (j : element) : Prop := exists v, volume j = JInt v.

(** the greatest volume seen, from [m] on *)
Definition running_max (m : Z) (l : list (point * element)) : Z :=
  fold_left (fun acc p =>
               match volume (snd p) with
               | JInt v => Z.max acc v
               | _ => acc
               end) l m.

(** what the aggregation reads of a record: its hour and its volume *)
Definition key_vol (j : element) : Z * json := (start j, volume j).

(** one turn of the innermost loop, on the hour and the volume alone *)
Definition put (i : point) (hv : Z * json)
    (s : gmap Z (gmap string cell) * json)
    : result (gmap Z (gmap string cell) * json) :=
  insert_record i (mk_element (fst hv) (fst hv) (snd hv) JNull) s.

Fixpoint for_pairs (i : point) (l : list (Z * json))
    (s : gmap Z (gmap string cell) * json)
    : result (gmap Z (gmap string cell) * json) :=
  match l with
  | [] => Ok s
  | hv :: rest => s' <-! put i hv s; for_pairs i rest s'
  end.

Definition int_pair (hv : Z * json) : Prop := exists v, snd hv = JInt v.

(** *** The end-to-end example: sensors A(10,10) and B(20,20), two hours,
    A reports 5 and B reports 10 in the first hour. *)
Definition point_A : point := mk_point "A" (JStr "a") (JInt 10) (JInt 10).
Definition point_B : point := mk_point "B" (JStr "b") (JInt 20) (JInt 20).
Definition hour0 : Z := 0.
Definition hour1 : Z := hours 1.
Definition hour2 : Z := hours 2.
Definition record_A : element := mk_element hour0 hour1 (JInt 5) (JInt 100).
Definition record_B : element := mk_element hour0 hour1 (JInt 10) (JInt 100).
Definition demo_series : gmap string (list element) :=
  {["A" := [record_A]; "B" := [record_B]]}.

(** the same records, accumulated in another order *)
Definition record_A1 : element := mk_element hour1 hour2 (JInt 7) (JInt 100).
Definition series_a : gmap string (list element) :=
  {["A" := [record_A; record_A1]; "B" := [record_B]]}.
Definition series_b : gmap string (list element) :=
  {["B" := [record_B]; "A" := [record_A1; record_A]]}.

(** the same example through the service: the first POST (sensor A)
    is answered with volume 5 for the first hour of 2019-10-24, the second
    (sensor B) with volume 10 *)
Definition midnight : Z := 63707472000000000.

Definition answer_with (v : Z) : response :=
  FetchSpec.ok_response (FetchSpec.payload_json (JArr [
    FetchSpec.edge_json "2019-10-24T00:00:00+02:00" "2019-10-24T01:00:00+02:00"
      (JInt v) (JInt 100)])).

Definition demo_network : network := fun k _ =>
  match k with
  | O => Responded (answer_with 5)
  | _ => Responded (answer_with 10)
  end.

End AggregateSpec.

Module CalendarSpec.
Import Time Calendar.

(** month and day from the offset [n] in the year, as the end of
    [_ord2ymd] finds them *)
Definition month_day (leapyear : bool) (n : Z) : Z * Z :=
  let month := Z.shiftr (n + 50) 5 in
  let preceding :=
    DAYS_BEFORE_MONTH month + (if (2 <? month) && leapyear then 1 else 0) in
  let '(month, preceding) :=
    if n <? preceding then
      (month - 1,
       preceding - (DAYS_IN_MONTH (month - 1)
                    + (if (month - 1 =? 2) && leapyear then 1 else 0)))
    else (month, preceding) in
  (month, n - preceding + 1).

Definition month_day_ok (leapyear : bool) (n : Z) : bool :=
  let '(m, d) := month_day leapyear n in
  (1 <=? m) && (m <=? 12) && (1 <=? d) &&
  (d <=? (if (m =? 2) && leapyear then 29 else DAYS_IN_MONTH m)) &&
  (DAYS_BEFORE_MONTH m + (if (2 <? m) && leapyear then 1 else 0) + d =? n + 1).

Fixpoint Zrange (lo : Z) (n : nat) : list Z :=
  match n with
  | O => []
  | S n' => lo :: Zrange (lo + 1) n'
  end.

(** the four counters of [_ord2ymd] and the offset left in the year *)
Record split (n a b c e r : Z) : Prop := {
  sp_sum : n - 1 = 146097 * a + 36524 * b + 1461 * c + 365 * e + r;
  sp_a : 0 <= a;
  sp_b : 0 <= b <= 4;
  sp_c : 0 <= c <= 24;
  sp_e : 0 <= e <= 4;
  sp_r : 0 <= r < 365;
  sp_b4 : b = 4 -> c = 0 /\ e = 0 /\ r = 0;
  sp_e4 : e = 4 -> r = 0 /\ (c <= 23 \/ b = 3 /\ c = 24);
  sp_c24 : c = 24 -> b <= 2 -> e <= 3
}.

Definition finish (a b c e r : Z) : Z * Z * Z :=
  let year := a * 400 + 1 + (b * 100 + c * 4 + e) in
  if (e =? 4) || (b =? 4) then (year - 1, 12, 31)
  else
    let leapyear := (e =? 3) && (negb (c =? 24) || (b =? 3)) in
    let '(month, day) := month_day leapyear r in
    (year, month, day).

(** the ranges of the fields of a datetime object *)
Record in_range (f : fields) : Prop := {
  ir_year : 1 <= year f <= 9999;
  ir_month : 1 <= month f <= 12;
  ir_day : 1 <= day f <= days_in_month (year f) (month f);
  ir_hour : 0 <= hour f <= 23;
  ir_minute : 0 <= minute f <= 59;
  ir_second : 0 <= second f <= 59;
  ir_microsecond : 0 <= microsecond f <= 999999
}.

End CalendarSpec.

Module DateTextSpec.
Import Time Calendar Text DateText Conversions.

(** the match the regular expression engine reports: the first one *)
Definition first {A : Type} (m : matcher A) (s : string) : option (A * string) :=
  head (m s).

Definition get_field (d : directive) (f : fields) : Z :=
  match d with
  | dY => year f | dm => month f | dd => day f
  | dH => hour f | dM => minute f | dS => second f
  end.

(** the fields of [f] that the format carries, written over [f0] *)
Fixpoint apply_format (fmt : list item) (f f0 : fields) : fields :=
  match fmt with
  | [] => f0
  | Dir d :: fmt' => apply_format fmt' f (set_field d (get_field d f) f0)
  | Lit _ :: fmt' => apply_format fmt' f f0
  end.

(** fields that print on four, two, two, two, two and two digits *)
Record printable (f : fields) : Prop := {
  pr_year : 1000 <= year f <= 9999;
  pr_month : 1 <= month f <= 12;
  pr_day : 1 <= day f <= 31;
  pr_hour : 0 <= hour f <= 23;
  pr_minute : 0 <= minute f <= 59;
  pr_second : 0 <= second f <= 59
}.

(** 2019-10-24T00:00:00, the start of the run of [__main__] *)
Definition start_2019 : Z := 63707472000000000.

(** 0999-01-02T03:04:05 *)
Definition in_year_999 : Z := to_timeline (mk_fields 999 1 2 3 4 5 0).

End DateTextSpec.

(** ** Vocabulary of the further properties *)

Module MoreSpec.
Import Time Json Transport Query Partition Fetch Aggregate Points.

(** two timeouts, then a response with status 200 and no JSON body *)
Definition flaky_200 : network := fun k _ =>
  if (k <? 2)%nat then TimedOut else Responded (mk_response 200 None).

(** the state of the partition loop when its test is evaluated, for
    instants that need not be on the hour *)
Record loose_invariant (start stop : Z) (s : loop_state) : Prop := {
  li_pos : t s = start_step s + t_count s;
  li_count : 0 <= t_count s <= query_hour_limit;
  li_count_al : t_count s mod US_PER_HOUR = 0;
  li_from : (t s - start) mod US_PER_HOUR = 0;
  li_near : t s = start \/ t s < stop + US_PER_HOUR;
  li_chain : chain start (start_step s) (divisions s);
  li_full : Forall (fun w => span w = query_hour_limit) (divisions s);
  li_first : t_count s = 0 -> divisions s = []
}.

(** the turns of the loop that are left: the hours from [t] to [stop],
    a started hour counting as one *)
Definition turns_left (stop : Z) (s : loop_state) : nat :=
  Z.to_nat ((stop - t s + US_PER_HOUR - 1) / US_PER_HOUR).

(** a service that answers every POST at once, by the text of the query *)
Definition prompt (srv : string -> response) : network :=
  fun _ query => Responded (srv query).

(** the records a response adds to the series of its sensor: those of its
    edges, none when the [try] body raises *)
Definition contribution (r : response) : list element :=
  match try_body r with
  | Ok l => l
  | Raise _ => []
  end.

(** a response the fetch loop gets through: status 200, and a [try] body
    that gives records or raises [TypeError] *)
Definition passable (r : response) : Prop :=
  status_code r = 200 /\
  ((exists l, try_body r = Ok l) \/ try_body r = Raise TypeError).

(** the text of the request for sensor [i] and window [w] *)
Definition window_query (i : string) (w : Z * Z) : string :=
  volume_query i (Conversions.datetime_to_string (fst w))
    (Conversions.datetime_to_string (snd w)).

(** what the responses of a prompt service add for sensor [id], window
    after window and, in a window, sensor after sensor *)
Definition expected_records (srv : string -> response)
    (points : list string) (windows : list (Z * Z)) (id : string)
    : list element :=
  flat_map (fun w =>
    flat_map (fun i =>
      if String.eqb i id then contribution (srv (window_query i w)) else [])
      points) windows.

(** a service with one record for every request *)
Definition one_record_service : string -> response := fun _ =>
  FetchSpec.ok_response (FetchSpec.payload_json (JArr [
    FetchSpec.edge_json "2019-10-24T00:00:00+02:00" "2019-10-24T01:00:00+02:00"
      (JInt 5) (JInt 100)])).

(** a complete edge, an edge whose first timestamp is not in the format, and
    an edge for an hour without data ([volumeNumbers] is null) *)
Definition good_edge : json :=
  FetchSpec.edge_json "2019-10-24T00:00:00+02:00" "2019-10-24T01:00:00+02:00"
    (JInt 5) (JInt 100).

Definition garbled_edge : json :=
  FetchSpec.edge_json "24.10.2019 01:00" "2019-10-24T02:00:00+02:00"
    (JInt 7) (JInt 100).

Definition no_data_edge : json :=
  JObj [("node", JObj [
    ("from", JStr "2019-10-24T01:00:00+02:00");
    ("to", JStr "2019-10-24T02:00:00+02:00");
    ("total", JObj [("volumeNumbers", JNull);
                    ("coverage", JObj [("percentage", JInt 0)])])])].

(** the cell of the aggregate for an hour and a sensor id, if any *)
Definition cell_at (sorted : gmap Z (gmap string cell)) (h : Z)
    (sensor : string) : option cell :=
  match sorted !! h with
  | Some inner => inner !! sensor
  | None => None
  end.

(** the cell that the last record for hour [h] and sensor id [sensor] gives,
    among the records the loops go through *)
Fixpoint last_cell (h : Z) (sensor : string) (l : list (point * element))
    : option cell :=
  match l with
  | [] => None
  | (i, j) :: rest =>
      match last_cell h sensor rest with
      | Some c => Some c
      | None =>
          if (start j =? h) && String.eqb (id i) sensor
          then Some (mk_cell (volume j) (lat i) (lon i))
          else None
      end
  end.

(** two records of sensor A for the same hour, then one off the grid, then
    one without volume *)
Definition record_A_again : element :=
  mk_element AggregateSpec.hour0 AggregateSpec.hour1 (JInt 9) (JInt 100).
Definition record_late : element :=
  mk_element AggregateSpec.hour2 (hours 3) (JInt 1) (JInt 100).
Definition record_null : element :=
  mk_element AggregateSpec.hour1 AggregateSpec.hour2 JNull (JInt 0).

Definition series_twice : gmap string (list element) :=
  {["A" := [AggregateSpec.record_A; record_A_again];
    "B" := [AggregateSpec.record_B]]}.

Definition aggregate_twice : gmap Z (gmap string cell) :=
  {[AggregateSpec.hour0 :=
      {["A" := mk_cell (JInt 9) (JInt 10) (JInt 10);
        "B" := mk_cell (JInt 10) (JInt 20) (JInt 20)]};
    AggregateSpec.hour1 := ∅]}.

Definition series_late : gmap string (list element) :=
  {["A" := [AggregateSpec.record_A; record_late]]}.

Definition series_null : gmap string (list element) :=
  {["A" := [AggregateSpec.record_A; record_null]]}.

(** the entry of the payload for a sensor, and the payload for a list of
    sensors *)
Definition encode_point (p : registration_point) : json :=
  JObj [("id", rp_id p); ("name", rp_name p);
        ("location", JObj [("coordinates", JObj [("latLon",
           JObj [("lat", rp_lat p); ("lon", rp_lon p)])])])].

Definition points_payload (entries : json) : json :=
  JObj [("data", JObj [("trafficRegistrationPoints", entries)])].

(** a sensor the service knows no position of *)
Definition unlocated (id name : json) : json :=
  JObj [("id", id); ("name", name); ("location", JNull)].

Definition two_sensors : list registration_point :=
  [mk_registration_point (JStr "A") (JStr "a") (JInt 10) (JInt 10);
   mk_registration_point (JStr "B") (JStr "b") (JInt 20) (JInt 20)].

(** the records the aggregation goes through when the series holds, for
    each sensor, what a prompt service answered *)
Definition expected_processed (srv : string -> response)
    (points : list point) (windows : list (Z * Z))
    : list (point * element) :=
  flat_map (fun i =>
    map (pair i) (expected_records srv (map id points) windows (id i)))
    points.

Definition aggregate_of_one_record : gmap Z (gmap string cell) :=
  {[AggregateSpec.midnight :=
      {["A" := mk_cell (JInt 5) (JInt 10) (JInt 10);
        "B" := mk_cell (JInt 5) (JInt 20) (JInt 20)]};
    AggregateSpec.midnight + hours 1 := ∅]}.

Definition one_window : list (Z * Z) :=
  [(AggregateSpec.midnight, AggregateSpec.midnight + hours 2)].

End MoreSpec.

(** * Properties *)

Section WhileRule.
Context {S : Type} (cond : S -> bool) (body : S -> result S).
Variable Inv : S -> Prop.
Variable measure : S -> nat.
Hypothesis step : forall s, Inv s -> cond s = true ->
  exists s', body s = Ok s' /\ Inv s' /\ (measure s' < measure s)%nat.

Lemma while_terminates fuel s :
  Inv s -> (measure s < fuel)%nat ->
  exists s', while fuel cond body s = Some (Ok s') /\ Inv s' /\ cond s' = false.
Proof.
  revert s. induction fuel as [|fuel IH]; intros s HI Hm; [lia|].
  simpl. destruct (cond s) eqn:Hc.
  - destruct (step s HI Hc) as (s' & -> & HI' & Hlt).
    apply IH; [assumption | lia].
  - exists s. auto.
Qed.
End WhileRule.

Module PartitionFacts.
Import Time Partition.
Import PartitionSpec.

Lemma chain_app a b c ws1 ws2 :
  chain a b ws1 -> chain b c ws2 -> chain a c (ws1 ++ ws2).
Proof.
  revert a. induction ws1 as [|w ws1 IH]; simpl; intros a.
  - intros ->. auto.
  - intros [Hw Hc] H2. split; [assumption|]. apply IH; assumption.
Qed.

Lemma total_span_app ws1 ws2 :
  total_span (ws1 ++ ws2) = total_span ws1 + total_span ws2.
Proof.
  induction ws1 as [|w ws1 IH]; simpl; [reflexivity|].
  unfold total_span in *. simpl. rewrite IH. lia.
Qed.

Lemma chain_total_span a b ws : chain a b ws -> total_span ws = b - a.
Proof.
  revert a. induction ws as [|[s e] ws IH]; simpl; intros a.
  - intros ->. unfold total_span. simpl. lia.
  - intros [Hs Hc]. simpl in *. subst s.
    unfold total_span in *. simpl. rewrite (IH e Hc). unfold span. simpl. lia.
Qed.

Lemma aligned_gap a b :
  a < b -> (b - a) mod US_PER_HOUR = 0 -> a + US_PER_HOUR <= b.
Proof.
  unfold US_PER_HOUR, US_PER_SECOND. intros Hlt Hmod.
  pose proof (Z.div_mod (b - a) (3600 * 1000000) ltac:(lia)) as Hdm.
  rewrite Hmod in Hdm.
  assert (0 < (b - a) / (3600 * 1000000)) by lia. lia.
Qed.

Lemma body_step start stop s :
  valid stop -> 0 <= start ->
  invariant start stop s -> (t s <? stop) = true ->
  exists s', body s = Ok s' /\ invariant start stop s' /\
             (hours_left stop s' < hours_left stop s)%nat.
Proof.
  intros [_ Hmax] Hstart [Hpos Hcnt Hcal Hle Hal Hch Hfull Hfirst] Hlt.
  apply Z.ltb_lt in Hlt.
  pose proof (aligned_gap _ _ Hlt Hal) as Hgap.
  assert (Hge : start <= start_step s).
  { apply chain_total_span in Hch.
    assert (0 <= total_span (divisions s)); [|lia].
    clear -Hfull. induction Hfull as [|w ws Hw _ IH]; unfold total_span in *;
      simpl; [lia|]. rewrite Hw. unfold query_hour_limit, hours, US_PER_HOUR, US_PER_SECOND. lia. }
  assert (Hadd : forall x, x = t s -> datetime_add x dt = Ok (x + dt)).
  { intros x ->. unfold datetime_add, dt, hours.
    replace (1 * US_PER_HOUR) with US_PER_HOUR by lia.
    assert (0 <= t s + US_PER_HOUR <= datetime_max) as [H1 H2].
    { unfold US_PER_HOUR, US_PER_SECOND in *. lia. }
    apply Z.leb_le in H1, H2. cbv zeta. rewrite H1, H2. reflexivity. }
  assert (Hdt : dt = US_PER_HOUR) by (unfold dt, hours; lia).
  assert (Hmeasure : forall t', t' = t s + dt ->
            (Z.to_nat ((stop - t') / US_PER_HOUR)
             < Z.to_nat ((stop - t s) / US_PER_HOUR))%nat).
  { intros t' ->. rewrite Hdt.
    replace (stop - t s) with ((stop - (t s + US_PER_HOUR)) + 1 * US_PER_HOUR) by lia.
    rewrite Z.div_add by (unfold US_PER_HOUR, US_PER_SECOND; lia).
    assert (0 <= (stop - (t s + US_PER_HOUR)) / US_PER_HOUR).
    { apply Z.div_pos; unfold US_PER_HOUR, US_PER_SECOND in *; lia. }
    lia. }
  assert (Hal' : (stop - (t s + dt)) mod US_PER_HOUR = 0).
  { rewrite Hdt. replace (stop - (t s + US_PER_HOUR))
      with ((stop - t s) + (-1) * US_PER_HOUR) by lia.
    rewrite Z.mod_add by (unfold US_PER_HOUR, US_PER_SECOND; lia). assumption. }
  unfold body. destruct (query_hour_limit <=? t_count s) eqn:Hlim.
  - apply Z.leb_le in Hlim. simpl. rewrite (Hadd _ eq_refl). simpl.
    eexists. split; [reflexivity|]. split; [|apply Hmeasure; reflexivity].
    constructor; simpl; try lia; try assumption.
    + unfold query_hour_limit, hours, US_PER_HOUR, US_PER_SECOND in *. rewrite Hdt.
      unfold US_PER_HOUR, US_PER_SECOND. lia.
    + rewrite Hdt. apply Z.mod_same. unfold US_PER_HOUR, US_PER_SECOND. lia.
    + apply chain_app with (b := start_step s); [assumption|]. simpl. auto.
    + apply Forall_app. split; [assumption|]. constructor; [|constructor].
      unfold span. simpl. lia.
    + rewrite Hdt. unfold US_PER_HOUR, US_PER_SECOND. lia.
  - apply Z.leb_gt in Hlim. rewrite (Hadd _ eq_refl). simpl.
    eexists. split; [reflexivity|]. split; [|apply Hmeasure; reflexivity].
    constructor; simpl; try lia; try assumption.
    + split; [rewrite Hdt; unfold US_PER_HOUR, US_PER_SECOND; lia|].
      (* the counter is a multiple of an hour below 99 hours *)
      unfold query_hour_limit, hours in *. rewrite Hdt.
      pose proof (Z.div_mod (t_count s) US_PER_HOUR
                    ltac:(unfold US_PER_HOUR, US_PER_SECOND; lia)) as Hdm.
      rewrite Hcal in Hdm.
      unfold US_PER_HOUR, US_PER_SECOND in *. lia.
    + rewrite Hdt. rewrite <- Zplus_mod_idemp_r.
      rewrite Z.mod_same by (unfold US_PER_HOUR, US_PER_SECOND; lia).
      rewrite Z.add_0_r. assumption.
    + rewrite Hdt. unfold US_PER_HOUR, US_PER_SECOND. lia.
Qed.

Lemma init_invariant start stop :
  start <= stop -> (stop - start) mod US_PER_HOUR = 0 ->
  invariant start stop (init start).
Proof.
  intros Hle Hal. constructor; simpl; try lia; try assumption; auto.
  unfold query_hour_limit, hours, US_PER_HOUR, US_PER_SECOND. lia.
Qed.

(** C1. For hour-aligned [start <= stop] the partition loop terminates
    without raising, and the windows it leaves in [divisions] follow one
    another from [start] to [stop] (each begins at the instant the previous
    one ends), each has a positive span of at most 99 hours, the spans sum
    to [stop - start], and the list is empty when [start = stop]. *)
Theorem partition_windows (fuel : nat) (start stop : Z) :
  valid start -> valid stop ->
  hour_aligned start -> hour_aligned stop ->
  start <= stop ->
  (Z.to_nat ((stop - start) / US_PER_HOUR) < fuel)%nat ->
  exists ws,
    compute_divisions fuel start stop = Some (Ok ws) /\
    chain start stop ws /\
    Forall (fun w => 0 < span w <= hours 99) ws /\
    total_span ws = stop - start /\
    (start = stop -> ws = []).
Proof.
  intros Hvs Hvt Has Hat Hle Hfuel.
  assert (Hal : (stop - start) mod US_PER_HOUR = 0).
  { unfold hour_aligned in *. rewrite Zminus_mod, Has, Hat. reflexivity. }
  destruct (while_terminates (fun s => t s <? stop) body
              (invariant start stop) (hours_left stop)
              (fun s HI Hc => body_step start stop s Hvt (proj1 Hvs) HI Hc)
              fuel (init start) (init_invariant _ _ Hle Hal) Hfuel)
    as (s & Hrun & [Hpos Hcnt Hcal Hle' Hal' Hch Hfull Hfirst] & Hexit).
  apply Z.ltb_ge in Hexit. assert (Ht : t s = stop) by lia.
  unfold compute_divisions. rewrite Hrun.
  assert (Hfull' : Forall (fun w => 0 < span w <= hours 99) (divisions s)).
  { eapply Forall_impl; [exact Hfull|]. intros w Hw. simpl in Hw. rewrite Hw.
    unfold query_hour_limit, hours, US_PER_HOUR, US_PER_SECOND. lia. }
  destruct (decide (start_step s = t s)) as [Heq|Hne].
  - assert (Hz : t_count s = 0) by lia.
    specialize (Hfirst Hz). exists (divisions s).
    split; [reflexivity|]. rewrite Hfirst in *. simpl in Hch.
    repeat split; try constructor.
    + simpl. lia.
    + unfold total_span. simpl. lia.
  - eexists. split; [reflexivity|].
    assert (Hc : chain start stop (divisions s ++ [(start_step s, t s)])).
    { apply chain_app with (b := start_step s); [assumption|]. simpl. auto. }
    repeat split.
    + exact Hc.
    + apply Forall_app. split; [assumption|]. constructor; [|constructor].
      unfold span. simpl. fold query_hour_limit. lia.
    + apply chain_total_span. exact Hc.
    + intros ->. exfalso.
      apply chain_total_span in Hch.
      assert (0 <= total_span (divisions s)).
      { clear -Hfull'. induction Hfull' as [|w ws Hw _ IH];
          unfold total_span in *; simpl; lia. }
      lia.
Qed.

(** A 150-hour range is cut into [0h, 99h) and [99h, 150h). *)
Lemma partition_windows_witness :
  exists ws,
    compute_divisions 200 0 (hours 150) = Some (Ok ws) /\
    chain 0 (hours 150) ws /\
    Forall (fun w => 0 < span w <= hours 99) ws /\
    total_span ws = hours 150 - 0 /\
    (0 = hours 150 -> ws = []).
Proof.
  apply (partition_windows 200 0 (hours 150)).
  - unfold valid. vm_compute. split; discriminate.
  - unfold valid. vm_compute. split; discriminate.
  - reflexivity.
  - reflexivity.
  - vm_compute. discriminate.
  - vm_compute. lia.
Defined.

Example divisions_150h :
  compute_divisions 200 0 (hours 150)
  = Some (Ok [(0, hours 99); (hours 99, hours 150)]).
Proof. vm_compute. reflexivity. Qed.

Example divisions_2h :
  compute_divisions 10 0 (hours 2) = Some (Ok [(0, hours 2)]).
Proof. vm_compute. reflexivity. Qed.

Example divisions_198h :
  compute_divisions 200 0 (hours 198)
  = Some (Ok [(0, hours 99); (hours 99, hours 198)]).
Proof. vm_compute. reflexivity. Qed.

End PartitionFacts.

Module TransportFacts.
Import Text Json Transport.
Local Open Scope nat_scope.
Import TransportSpec.

Section Loop.
Variable net : network.
Variable data : string.

Lemma timeouts_tail k n : timeouts net data k (S n) -> timeouts net data (S k) n.
Proof. intros H j Hj. apply H. lia. Qed.

Lemma timeouts_cons k n :
  net k data = TimedOut -> timeouts net data (S k) n -> timeouts net data k (S n).
Proof.
  intros Hk H j Hj. destruct (decide (j = k)) as [->|Hne]; [assumption|].
  apply H. lia.
Qed.

Lemma first_answer attempts k :
  timeouts net data k attempts \/
  exists n, n < attempts /\ timeouts net data k n /\ net (k + n) data <> TimedOut.
Proof.
  revert k. induction attempts as [|a IH]; intros k.
  - left. intros j Hj. lia.
  - destruct (net k data) eqn:Hk.
    + right. exists 0. rewrite Nat.add_0_r, Hk.
      repeat split; [lia | intros j Hj; lia | discriminate].
    + destruct (IH (S k)) as [Hall | (n & Hn & Hto & Hne)].
      * left. apply timeouts_cons; assumption.
      * right. exists (S n). split; [lia|]. split.
        -- apply timeouts_cons; assumption.
        -- replace (k + S n) with (S k + n) by lia. assumption.
    + right. exists 0. rewrite Nat.add_0_r, Hk.
      repeat split; [lia | intros j Hj; lia | discriminate].
Qed.

Lemma post_loop_exhausted attempts k :
  timeouts net data k attempts ->
  post_loop net data attempts k = Some (Ok Exhausted, k + attempts).
Proof.
  revert k. induction attempts as [|a IH]; intros k Hto; simpl.
  - unfold io_ret. rewrite Nat.add_0_r. reflexivity.
  - rewrite (Hto k) by lia. rewrite (IH (S k) (timeouts_tail _ _ Hto)).
    replace (k + S a) with (S k + a) by lia. reflexivity.
Qed.

Lemma post_loop_answer attempts k n :
  n < attempts -> timeouts net data k n ->
  post_loop net data attempts k =
    match net (k + n) data with
    | Responded r => Some (Ok (Broke (attempts - n) r), S (k + n))
    | TimedOut => post_loop net data (attempts - S n) (S (k + n))
    | Failed tag => Some (Raise (TransportFailure tag), S (k + n))
    end.
Proof.
  revert k n. induction attempts as [|a IH]; intros k n Hn Hto; [lia|].
  destruct n as [|n].
  - rewrite Nat.add_0_r, Nat.sub_0_r. simpl. rewrite Nat.sub_0_r. reflexivity.
  - simpl post_loop at 1. rewrite (Hto k) by lia.
    rewrite (IH (S k) n) by (lia || apply timeouts_tail; assumption).
    replace (S k + n) with (k + S n) by lia.
    replace (S a - S n) with (a - n) by lia.
    replace (S a - S (S n)) with (a - S n) by lia. reflexivity.
Qed.
End Loop.

Lemma request_exhausted net query k :
  timeouts net query k 10 ->
  request net query k = Some (Raise (ReadTimeout timeout_msg), k + 10).
Proof.
  intros Hto. unfold request, io_bind.
  rewrite (post_loop_exhausted net query 10 k Hto). reflexivity.
Qed.

Lemma request_answer net query k n :
  n < 10 -> timeouts net query k n ->
  request net query k =
    match net (k + n) query with
    | Responded r =>
        Some (if (status_code r =? 200)%Z then Ok r
              else Raise (ConnectionError (status_msg (status_code r))),
              S (k + n))
    | TimedOut => request net query k
    | Failed tag => Some (Raise (TransportFailure tag), S (k + n))
    end.
Proof.
  intros Hn Hto. destruct (net (k + n) query) eqn:Hk; [| reflexivity |].
  - unfold request, io_bind.
    rewrite (post_loop_answer net query 10 k n Hn Hto), Hk.
    destruct (10 - n) as [|m] eqn:Hm; [lia|]. simpl.
    destruct (status_code r =? 200)%Z; reflexivity.
  - unfold request, io_bind.
    rewrite (post_loop_answer net query 10 k n Hn Hto), Hk. reflexivity.
Qed.

Lemma first_answer_unique net query k n n' :
  timeouts net query k n -> net (k + n) query <> TimedOut ->
  timeouts net query k n' -> net (k + n') query <> TimedOut ->
  n = n'.
Proof.
  intros Hto Hne Hto' Hne'.
  destruct (Nat.lt_trichotomy n n') as [Hlt | [Heq | Hgt]]; [|assumption|].
  - exfalso. apply Hne, Hto'. lia.
  - exfalso. apply Hne', Hto. lia.
Qed.

(** C5. [request] always returns or raises after at least one and at most
    ten POSTs; every POST but its last one timed out (it retries on a
    timeout only); it raises [ReadTimeout] exactly when all ten POSTs time
    out; any other failure of a POST is raised at once, by that very POST;
    and a first POST that gets a response is the only one. *)
Theorem request_retry_bound (net : network) (query : string) (k : nat) :
  exists res k',
    request net query k = Some (res, k') /\
    k < k' <= k + 10 /\
    timeouts net query k (k' - k - 1) /\
    (forall r, net k query = Responded r -> k' = k + 1) /\
    ((exists msg, res = Raise (ReadTimeout msg)) <->
     timeouts net query k 10) /\
    (timeouts net query k 10 ->
     res = Raise (ReadTimeout timeout_msg) /\ k' = k + 10) /\
    (forall n tag, n < 10 -> timeouts net query k n ->
       net (k + n) query = Failed tag ->
       res = Raise (TransportFailure tag) /\ k' = k + n + 1).
Proof.
  destruct (first_answer net query 10 k) as [Hall | (n & Hn & Hto & Hne)].
  - exists (Raise (ReadTimeout timeout_msg)), (k + 10).
    split; [apply request_exhausted; assumption|].
    split; [lia|]. split.
    { intros j Hj. apply Hall. lia. }
    split.
    { intros r Hr. rewrite (Hall k) in Hr by lia. discriminate. }
    split.
    { split; [intros _; assumption | intros _; eexists; reflexivity]. }
    split; [auto|].
    intros n tag Hn Hto Hf. rewrite (Hall (k + n)) in Hf by lia. discriminate.
  - pose proof (request_answer net query k n Hn Hto) as Hreq.
    assert (Hnot10 : ~ timeouts net query k 10).
    { intros H10. apply Hne, H10. lia. }
    assert (Hpre : forall k', k' = S (k + n) -> timeouts net query k (k' - k - 1)).
    { intros k' ->. replace (S (k + n) - k - 1) with n by lia. assumption. }
    assert (Hfirst : forall r, net k query = Responded r -> n = 0).
    { intros r Hr. destruct n as [|n]; [reflexivity|].
      rewrite (Hto k) in Hr by lia. discriminate. }
    destruct (net (k + n) query) as [r| |tag] eqn:Hk; [| congruence |].
    + eexists _, (S (k + n)). split; [exact Hreq|].
      split; [lia|]. split; [apply Hpre; reflexivity|].
      split. { intros r' Hr'. rewrite (Hfirst r' Hr'). lia. }
      split.
      { split; [|intros H; contradiction].
        intros [msg Hmsg]. destruct (status_code r =? 200)%Z; discriminate. }
      split; [intros H; contradiction|].
      intros n' tag Hn' Hto' Hf.
      assert (n = n').
      { apply (first_answer_unique net query k); try assumption; congruence. }
      subst n'. congruence.
    + eexists _, (S (k + n)). split; [exact Hreq|].
      split; [lia|]. split; [apply Hpre; reflexivity|].
      split. { intros r' Hr'. rewrite (Hfirst r' Hr'). lia. }
      split.
      { split; [|intros H; contradiction]. intros [msg Hmsg]. discriminate. }
      split; [intros H; contradiction|].
      intros n' tag' Hn' Hto' Hf.
      assert (n = n').
      { apply (first_answer_unique net query k); try assumption; congruence. }
      subst n'. rewrite Hk in Hf. injection Hf as ->. split; [reflexivity | lia].
Qed.

(** C6. When the first POST that does not time out, among the ten, gets a
    response, [request] returns that response if its status is 200 and
    otherwise raises [ConnectionError] with the message that ends in the
    status code. *)
Theorem request_status (net : network) (query : string) (k n : nat)
    (r : response) :
  n < 10 -> timeouts net query k n -> net (k + n) query = Responded r ->
  (status_code r = 200%Z -> request net query k = Some (Ok r, S (k + n))) /\
  (status_code r <> 200%Z ->
     request net query k =
       Some (Raise (ConnectionError
               ("Error connecting to Vegvesen API - Status Code "
                +:+ str_of_Z (status_code r))),
             S (k + n))).
Proof.
  intros Hn Hto Hr. rewrite (request_answer net query k n Hn Hto), Hr.
  split; intros Hs.
  - apply Z.eqb_eq in Hs. rewrite Hs. reflexivity.
  - apply Z.eqb_neq in Hs. rewrite Hs. reflexivity.
Qed.

Lemma request_status_witness :
  (404%Z = 200%Z ->
     request flaky_404 "q" 0 = Some (Ok (mk_response 404 None), 3)) /\
  (404%Z <> 200%Z ->
     request flaky_404 "q" 0 =
       Some (Raise (ConnectionError
               ("Error connecting to Vegvesen API - Status Code "
                +:+ str_of_Z 404)),
             3)).
Proof.
  apply (request_status flaky_404 "q" 0 2 (mk_response 404 None)).
  - lia.
  - intros j Hj. assert (j = 0 \/ j = 1) as [-> | ->] by lia; reflexivity.
  - reflexivity.
Defined.

Example request_404 :
  request flaky_404 "q" 0
  = Some (Raise (ConnectionError
                   "Error connecting to Vegvesen API - Status Code 404"), 3).
Proof. vm_compute. reflexivity. Qed.

End TransportFacts.

Module TextFacts.

Lemma append_cons c s r : String c s +:+ r = String c (s +:+ r).
Proof. reflexivity. Qed.

Lemma append_nil r : EmptyString +:+ r = r.
Proof. reflexivity. Qed.

Lemma append_assoc (a b c : string) : (a +:+ b) +:+ c = a +:+ (b +:+ c).
Proof.
  induction a as [|x a IH]; [reflexivity|].
  rewrite !append_cons, IH. reflexivity.
Qed.

Lemma append_nil_r (a : string) : a +:+ EmptyString = a.
Proof.
  induction a as [|x a IH]; [reflexivity|].
  rewrite append_cons, IH. reflexivity.
Qed.

End TextFacts.

Module QueryFacts.
Import Text Query.
Import QuerySpec TextFacts.

Lemma upper_char_not_lower c : is_lower_letter (upper_char c) = false.
Proof. destruct c as [[] [] [] [] [] [] [] []]; reflexivity. Qed.

Lemma lower_upper_char c : lower_char (upper_char c) = lower_char c.
Proof. destruct c as [[] [] [] [] [] [] [] []]; reflexivity. Qed.

Lemma upper_no_lower s : all_chars (fun c => negb (is_lower_letter c)) (upper s) = true.
Proof.
  unfold upper. induction s as [|c s IH]; simpl; [reflexivity|].
  rewrite upper_char_not_lower. exact IH.
Qed.

Lemma lower_upper s : lower (upper s) = lower s.
Proof.
  unfold lower, upper. induction s as [|c s IH]; simpl; [reflexivity|].
  rewrite lower_upper_char, IH. reflexivity.
Qed.

Lemma clauses_keys f :
  Forall2 clause_of (supplied_keys f) (searchQuery_clauses f).
Proof.
  unfold supplied_keys, searchQuery_clauses, key_if.
  repeat apply Forall2_app;
    match goal with
    | |- context [match ?x with _ => _ end] => destruct x
    end; repeat constructor; eexists; reflexivity.
Qed.

Lemma occurs_refl c : occurs c c.
Proof. exists EmptyString, EmptyString. rewrite append_nil, append_nil_r. reflexivity. Qed.

Lemma occurs_left a c text : occurs c text -> occurs c (a +:+ text).
Proof.
  intros (before & after & ->). exists (a +:+ before), after.
  rewrite append_assoc. reflexivity.
Qed.

Lemma occurs_right b c text : occurs c text -> occurs c (text +:+ b).
Proof.
  intros (before & after & ->). exists before, (after +:+ b).
  rewrite !append_assoc. reflexivity.
Qed.

(** every string of a list occurs in the text that joins them *)
Lemma join_occurs sep c l : In c l -> occurs c (join sep l).
Proof.
  induction l as [|x l IH]; [intros []|].
  intros Hin. destruct l as [|y l].
  - destruct Hin as [->|[]]. apply occurs_refl.
  - change (join sep (x :: y :: l)) with (x +:+ sep +:+ join sep (y :: l)).
    destruct Hin as [->|Hin].
    + apply occurs_right, occurs_refl.
    + do 2 apply occurs_left. apply IH. assumption.
Qed.

(** the clause of one filter does not read as the clause of another *)
Lemma clauses_of_others f key :
  In key filter_keys -> ~ In key (supplied_keys f) ->
  Forall (fun clause => ~ clause_of key clause) (searchQuery_clauses f).
Proof.
  unfold filter_keys, supplied_keys, searchQuery_clauses, key_if, clause_of.
  intros Hkey Hnot.
  destruct (roadCategoryIds f), (countyNumbers f), (isOperational f),
    (trafficType f), (registrationFrequency f);
    cbn [app] in *;
    repeat (apply List.Forall_cons); try apply List.Forall_nil;
    intros (value & Heq);
    repeat (destruct Hkey as [<-|Hkey];
            [first [ simpl in Heq; discriminate Heq
                   | exfalso; apply Hnot; simpl; tauto ]|]);
    destruct Hkey.
Qed.

(** C8. The text the function returns is the fixed template with, between
    the braces of [searchQuery:{}], the clauses joined by a comma and a
    space.  These are, in order, one [key: value] clause for each supplied
    filter; no clause is that of a filter that was omitted; with no filter
    at all nothing stands between the braces.  A supplied [isOperational]
    puts [isOperational: true] or [isOperational: false] into the emitted
    text; a supplied [trafficType] or [registrationFrequency] puts its
    clause there with the value upper-cased (the same text up to case, with
    no lower-case letter left). *)
Theorem search_query_clauses (f : filters) :
  exists searchQuery : string,
    query_traffic_registration_point_search f
      = "{" +:+ DQ +:+ "query" +:+ DQ +:+ ":" +:+ DQ
        +:+ "{trafficRegistrationPoints(searchQuery:{" +:+ searchQuery
        +:+ "}){id name location{coordinates{latLon{lat lon}}}}}" +:+ DQ
        +:+ ", " +:+ DQ +:+ "variables" +:+ DQ +:+ ": null}" /\
    searchQuery = join ", " (searchQuery_clauses f) /\
    Forall2 clause_of (supplied_keys f) (searchQuery_clauses f) /\
    (forall key, In key filter_keys -> ~ In key (supplied_keys f) ->
       Forall (fun clause => ~ clause_of key clause) (searchQuery_clauses f)) /\
    (supplied_keys f = [] -> searchQuery = EmptyString) /\
    (forall b, isOperational f = Some b ->
       occurs ("isOperational: " +:+ (if b then "true" else "false"))
              searchQuery) /\
    (forall x, trafficType f = Some x ->
       occurs ("trafficType: " +:+ upper x) searchQuery) /\
    (forall x, registrationFrequency f = Some x ->
       occurs ("registrationFrequency: " +:+ upper x) searchQuery) /\
    (forall x, all_chars (fun c => negb (is_lower_letter c)) (upper x) = true
               /\ lower (upper x) = lower x).
Proof.
  exists (join ", " (searchQuery_clauses f)).
  split.
  { unfold query_traffic_registration_point_search, search_template.
    destruct (searchQuery_clauses f); reflexivity. }
  split; [reflexivity|].
  split; [apply clauses_keys|].
  split; [apply clauses_of_others|].
  split.
  { intros Hnone. pose proof (clauses_keys f) as H. rewrite Hnone in H.
    apply Forall2_nil_inv_l in H. rewrite H. reflexivity. }
  split.
  { intros b Hb. apply join_occurs. unfold searchQuery_clauses. rewrite Hb.
    rewrite !in_app_iff. do 2 right. left.
    destruct b; left; reflexivity. }
  split.
  { intros x Hx. apply join_occurs. unfold searchQuery_clauses. rewrite Hx.
    rewrite !in_app_iff. do 3 right. left. left. reflexivity. }
  split.
  { intros x Hx. apply join_occurs. unfold searchQuery_clauses. rewrite Hx.
    rewrite !in_app_iff. do 4 right. left. reflexivity. }
  intros x. split; [apply upper_no_lower | apply lower_upper].
Qed.

Example no_filters_query :
  query_traffic_registration_point_search no_filters
  = "{" +:+ DQ +:+ "query" +:+ DQ +:+ ":" +:+ DQ
    +:+ "{trafficRegistrationPoints(searchQuery:{}){id name location{coordinates{latLon{lat lon}}}}}"
    +:+ DQ +:+ ", " +:+ DQ +:+ "variables" +:+ DQ +:+ ": null}".
Proof. reflexivity. Qed.

(** the call of [__main__]: [trafficType="Vehicle"] *)
Example vehicle_clauses :
  searchQuery_clauses (mk_filters None None (Some true) (Some "Vehicle") None)
  = ["isOperational: true"; "trafficType: VEHICLE"].
Proof. reflexivity. Qed.

Example vehicle_query :
  query_traffic_registration_point_search
    (mk_filters None None (Some true) (Some "Vehicle") None)
  = "{" +:+ DQ +:+ "query" +:+ DQ +:+ ":" +:+ DQ
    +:+ "{trafficRegistrationPoints(searchQuery:{isOperational: true, trafficType: VEHICLE}){id name location{coordinates{latLon{lat lon}}}}}"
    +:+ DQ +:+ ", " +:+ DQ +:+ "variables" +:+ DQ +:+ ": null}".
Proof. reflexivity. Qed.

(** every filter supplied: the clauses come in the order of the code *)
Example all_filters_query :
  query_traffic_registration_point_search
    (mk_filters (Some ["E"; "R"]) (Some [3; 11]) (Some false)
       (Some "bicycle") (Some "Periodic"))
  = "{" +:+ DQ +:+ "query" +:+ DQ +:+ ":" +:+ DQ
    +:+ "{trafficRegistrationPoints(searchQuery:{roadCategoryIds: [E, R], countyNumbers: [3, 11], isOperational: false, trafficType: BICYCLE, registrationFrequency: PERIODIC}){id name location{coordinates{latLon{lat lon}}}}}"
    +:+ DQ +:+ ", " +:+ DQ +:+ "variables" +:+ DQ +:+ ": null}".
Proof. reflexivity. Qed.

End QueryFacts.

Module FetchFacts.
Import Text Conversions Json Transport Query Partition Fetch.
Import TransportFacts.
Local Open Scope nat_scope.
Import FetchSpec.

Lemma try_body_getpath r payload :
  json_body r = Some payload ->
  try_body r = (edges <-! getpath PATH payload;
                items <-! iter edges;
                make_elements items []).
Proof.
  intros H. unfold try_body, PATH. rewrite H. simpl.
  repeat match goal with
         | |- context [getitem ?v ?k] =>
             destruct (getitem v k); simpl; try reflexivity
         end.
Qed.

Lemma getpath_not_dict prefix key rest payload v :
  lookup_path prefix payload = Some v -> is_dict v = false ->
  getpath (prefix ++ key :: rest) payload = Raise TypeError.
Proof.
  revert payload. induction prefix as [|k prefix IH]; intros payload; simpl.
  - intros [= ->] Hv. destruct v; try reflexivity. discriminate.
  - destruct payload; try discriminate.
    destruct (assoc k kv) as [x|] eqn:Hx; [|discriminate].
    intros Hl Hv. simpl. rewrite Hx. simpl. apply IH; assumption.
Qed.

Lemma getpath_found path payload v :
  lookup_path path payload = Some v -> getpath path payload = Ok v.
Proof.
  revert payload. induction path as [|k path IH]; intros payload; simpl.
  - intros [= ->]. reflexivity.
  - destruct payload; try discriminate.
    destruct (assoc k kv) as [x|] eqn:Hx; [|discriminate].
    intros Hl. simpl. rewrite Hx. simpl. apply IH; assumption.
Qed.

Lemma getpath_missing prefix key rest payload kv :
  lookup_path prefix payload = Some (JObj kv) -> assoc key kv = None ->
  getpath (prefix ++ key :: rest) payload = Raise (KeyError (KStr key)).
Proof.
  revert payload. induction prefix as [|k prefix IH]; intros payload; simpl.
  - intros [= ->] Hk. simpl. rewrite Hk. reflexivity.
  - destruct payload; try discriminate.
    destruct (assoc k kv0) as [x|] eqn:Hx; [|discriminate].
    intros Hl Hk. simpl. rewrite Hx. simpl. apply IH; assumption.
Qed.

(** a null, a number, a string or a list where the traversal expects a
    dict makes the [try] body raise [TypeError] *)
Lemma try_body_not_dict r payload prefix key rest v :
  json_body r = Some payload -> PATH = prefix ++ key :: rest ->
  lookup_path prefix payload = Some v -> is_dict v = false ->
  try_body r = Raise TypeError.
Proof.
  intros Hb HP Hl Hv. rewrite (try_body_getpath r payload Hb), HP.
  rewrite (getpath_not_dict prefix key rest payload v Hl Hv). reflexivity.
Qed.

(** so does a value under [edges] that cannot be iterated *)
Lemma try_body_not_iterable r payload v :
  json_body r = Some payload ->
  lookup_path PATH payload = Some v -> iterable v = false ->
  try_body r = Raise TypeError.
Proof.
  intros Hb Hl Hv. rewrite (try_body_getpath r payload Hb).
  rewrite (getpath_found PATH payload v Hl). simpl.
  destruct v; try reflexivity; discriminate.
Qed.

Lemma try_body_one_edge from to volume percentage s e :
  string_to_datetime from = Ok s -> string_to_datetime to = Ok e ->
  try_body (ok_response (payload_json
              (JArr [edge_json from to volume percentage])))
  = Ok [mk_element s e volume percentage].
Proof.
  intros Hs He. unfold try_body, ok_response, payload_json, edge_json.
  cbn -[string_to_datetime]. rewrite Hs. cbn -[string_to_datetime].
  rewrite He. reflexivity.
Qed.

Lemma accumulate_skip series i r :
  try_body r = Raise TypeError -> accumulate series i r = Ok series.
Proof. intros H. unfold accumulate. rewrite H. reflexivity. Qed.

Lemma accumulate_ok series i r temp_list :
  try_body r = Ok temp_list ->
  accumulate series i r
  = Ok (<[i := default [] (series !! i) ++ temp_list]> series).
Proof.
  intros H. unfold accumulate. rewrite H.
  destruct (series !! i); reflexivity.
Qed.

(** C7, as the code has it. A response on which the [try] body raises
    [TypeError] is skipped: nothing is raised and the series is left as it
    was (no record appended, no key created).  That is the case whenever
    the traversal data, trafficData, volume, byHour, edges meets a value
    that is not a dict (a null, say) where it needs one, and whenever the
    value under [edges] cannot be iterated.  A complete response with one
    record of volume 0 appends a record whose volume is 0, and the series
    it gives differs from the one a skipped response gives. *)
Theorem absent_data_skipped (series : gmap string (list element))
    (i : string) :
  (forall r, try_body r = Raise TypeError -> accumulate series i r = Ok series) /\
  (forall r payload prefix key rest v,
     json_body r = Some payload -> PATH = prefix ++ key :: rest ->
     lookup_path prefix payload = Some v -> is_dict v = false ->
     accumulate series i r = Ok series) /\
  (forall r payload v,
     json_body r = Some payload ->
     lookup_path PATH payload = Some v -> iterable v = false ->
     accumulate series i r = Ok series) /\
  (forall from to s e percentage,
     string_to_datetime from = Ok s -> string_to_datetime to = Ok e ->
     exists series',
       accumulate series i
         (ok_response (payload_json
            (JArr [edge_json from to (JInt 0) percentage])))
       = Ok series' /\
       series' !! i = Some (default [] (series !! i)
                            ++ [mk_element s e (JInt 0) percentage]) /\
       series' <> series).
Proof.
  split; [intros r; apply accumulate_skip|].
  split.
  { intros r payload prefix key rest v Hb HP Hl Hv. apply accumulate_skip.
    eapply try_body_not_dict; eassumption. }
  split.
  { intros r payload v Hb Hl Hv. apply accumulate_skip.
    eapply try_body_not_iterable; eassumption. }
  intros from to s e percentage Hs He.
  eexists. split.
  { apply accumulate_ok. apply (try_body_one_edge _ _ _ _ s e Hs He). }
  split; [apply lookup_insert_eq|].
  intros Heq.
  assert (Hi : (<[i := default [] (series !! i)
                     ++ [mk_element s e (JInt 0) percentage]]> series) !! i
               = series !! i) by (rewrite Heq; reflexivity).
  rewrite lookup_insert_eq in Hi.
  destruct (series !! i) as [l|]; [|discriminate].
  simpl in Hi. injection Hi as Hi.
  apply (f_equal (@List.length element)) in Hi.
  rewrite length_app in Hi. simpl in Hi. lia.
Qed.

(** C7 as stated fails: a payload without the key [data] (an error
    payload) lacks the whole substructure, and the call raises
    [KeyError]. *)
Lemma missing_key_raises :
  lookup_path PATH (JObj [("errors", JArr [])]) = None /\
  accumulate ∅ "A" (ok_response (JObj [("errors", JArr [])]))
  = Raise (KeyError (KStr "data")).
Proof. split; reflexivity. Qed.

Section Provenance.
Variable net : network.
Variable k0 : nat.
Variable windows : list (Z * Z).
Variable points : list string.

Lemma answered_mono k k' id l : k <= k' -> answered net k0 windows k id l -> answered net k0 windows k' id l.
Proof.
  intros Hle (j & w & r & Hj & Hw & Hnet & Hst & Hl).
  exists j, w, r. repeat split; try assumption; lia.
Qed.

Lemma provenance_mono k k' series :
  k <= k' -> provenance net k0 windows points k series -> provenance net k0 windows points k' series.
Proof.
  intros Hle H id recs Hid. destruct (H id recs Hid) as (Hin & [l Hl] & Hrec).
  split; [assumption|]. split.
  - exists l. eapply answered_mono; eassumption.
  - intros e He. destruct (Hrec e He) as (l' & Hl' & Hel').
    exists l'. split; [eapply answered_mono; eassumption | assumption].
Qed.

Lemma request_ok_inv query k r k' :
  request net query k = Some (Ok r, k') ->
  k < k' /\ exists j, k <= j < k' /\ net j query = Responded r /\
                      status_code r = 200%Z.
Proof.
  intros Hreq.
  destruct (first_answer net query 10 k) as [Hall | (n & Hn & Hto & Hne)].
  - rewrite (request_exhausted net query k Hall) in Hreq. discriminate.
  - rewrite (request_answer net query k n Hn Hto) in Hreq.
    destruct (net (k + n) query) as [r'| |tag] eqn:Hk;
      [| congruence | discriminate].
    destruct (status_code r' =? 200)%Z eqn:Hs; [|discriminate].
    injection Hreq as -> <-. apply Z.eqb_eq in Hs.
    split; [lia|]. exists (k + n). repeat split; try assumption; lia.
Qed.

Lemma for_points_provenance w pts : forall series k series' k',
  In w windows -> incl pts points -> k0 <= k ->
  provenance net k0 windows points k series ->
  for_points net (datetime_to_string (fst w)) (datetime_to_string (snd w))
    pts series k = Some (Ok series', k') ->
  k <= k' /\ provenance net k0 windows points k' series'.
Proof.
  induction pts as [|i pts IH]; intros series k series' k' Hw Hincl Hk0 Hprov.
  - simpl. unfold io_ret. intros [= <- <-]. split; [lia | assumption].
  - simpl. unfold io_bind at 1.
    destruct (request net _ k) as [[[r|e] k1]|] eqn:Hreq; try discriminate.
    destruct (request_ok_inv _ _ _ _ Hreq) as (Hlt & j & Hj & Hnet & Hst).
    unfold io_bind at 1, io_lift.
    destruct (accumulate series i r) as [series1|e] eqn:Hacc; [|discriminate].
    intros Hrest.
    assert (Hprov1 : provenance net k0 windows points k1 series1).
    { unfold accumulate in Hacc.
      destruct (try_body r) as [temp_list|e] eqn:Htry.
      - assert (Hans : answered net k0 windows k1 i temp_list).
        { exists j, w, r. repeat split; try assumption; lia. }
        assert (Hs1 : series1 = <[i := default [] (series !! i) ++ temp_list]> series).
        { destruct (series !! i); injection Hacc as <-; reflexivity. }
        subst series1. intros id recs Hid.
        destruct (decide (i = id)) as [->|Hne].
        + rewrite lookup_insert_eq in Hid. injection Hid as <-.
          split; [apply Hincl; left; reflexivity|].
          split; [exists temp_list; assumption|].
          intros e He. apply in_app_or in He. destruct He as [He|He].
          * destruct (series !! id) as [l0|] eqn:Hl0; [|destruct He].
            destruct (Hprov id l0 Hl0) as (_ & _ & Hrec).
            destruct (Hrec e He) as (l' & Hl' & Hel').
            exists l'. split; [|assumption].
            eapply answered_mono; [|eassumption]. lia.
          * exists temp_list. split; assumption.
        + rewrite lookup_insert_ne in Hid by assumption.
          apply (provenance_mono k k1 series); [lia | assumption | assumption].
      - destruct e; try discriminate. injection Hacc as <-.
        apply (provenance_mono k k1 series); [lia | assumption]. }
    destruct (IH series1 k1 series' k' Hw) as [Hle Hp]; try assumption.
    + intros x Hx. apply Hincl. right. assumption.
    + lia.
    + split; [lia | assumption].
Qed.

Lemma for_divisions_provenance ds : forall series k series' k',
  incl ds windows -> k0 <= k ->
  provenance net k0 windows points k series ->
  for_divisions net points ds series k = Some (Ok series', k') ->
  k <= k' /\ provenance net k0 windows points k' series'.
Proof.
  induction ds as [|[s e] ds IH]; intros series k series' k' Hincl Hk0 Hprov.
  - simpl. unfold io_ret. intros [= <- <-]. split; [lia | assumption].
  - simpl. unfold io_bind at 1.
    destruct (for_points net _ _ points series k) as [[[series1|ex] k1]|] eqn:Hpts;
      try discriminate.
    intros Hrest.
    destruct (for_points_provenance (s, e) points series k series1 k1) as [Hle Hp];
      try assumption.
    + apply Hincl. left. reflexivity.
    + intros x Hx. assumption.
    + destruct (IH series1 k1 series' k') as [Hle' Hp']; try assumption.
      * intros x Hx. apply Hincl. right. assumption.
      * lia.
      * split; [lia | assumption].
Qed.
End Provenance.

(** C9, as the code has it. When [query_traffic_volume_by_hour] returns,
    every key of the series is one of the requested sensors, and for it at
    least one POST of the call, for that sensor and one of the windows, got
    a response on which the [try] body did not raise (its record list may
    be empty); every record under the key comes from such a response. *)
Theorem series_key_answered (net : network) (fuel : nat)
    (points : list string) (start stop : Z) (k k' : nat)
    (series : gmap string (list element)) :
  query_traffic_volume_by_hour net fuel points start stop k
    = Some (Ok series, k') ->
  exists windows,
    compute_divisions fuel start stop = Some (Ok windows) /\
    forall id recs, series !! id = Some recs ->
      In id points /\
      (exists l, answered net k windows k' id l) /\
      (forall e, In e recs ->
         exists l, answered net k windows k' id l /\ In e l).
Proof.
  unfold query_traffic_volume_by_hour, io_bind, io_fuel.
  destruct (compute_divisions fuel start stop) as [[windows|e]|] eqn:Hdiv;
    try discriminate.
  intros Hrun. exists windows. split; [reflexivity|].
  destruct (for_divisions_provenance net k windows points windows ∅ k series k')
    as [_ Hp]; try assumption.
  - intros x Hx. assumption.
  - lia.
  - intros id recs Hid. rewrite lookup_empty in Hid. discriminate.
Qed.

(** C9 as stated fails: no response holds a single record, and the sensor
    is a key of the series all the same. *)
Lemma key_without_record :
  query_traffic_volume_by_hour empty_service 5 ["A"] 0 (Time.hours 1) 0
    = Some (Ok {["A" := []]}, 1) /\
  (forall j query r, empty_service j query = Responded r -> try_body r = Ok []).
Proof.
  split; [vm_compute; reflexivity|].
  intros j query r [= <-]. reflexivity.
Qed.

Lemma series_key_answered_witness :
  exists windows,
    compute_divisions 5 0 (Time.hours 1) = Some (Ok windows) /\
    forall id recs, ({["A" := []]} : gmap string (list element)) !! id = Some recs ->
      In id ["A"] /\
      (exists l, answered empty_service 0 windows 1 id l) /\
      (forall e, In e recs ->
         exists l, answered empty_service 0 windows 1 id l /\ In e l).
Proof.
  apply (series_key_answered empty_service 5 ["A"] 0 (Time.hours 1) 0 1).
  vm_compute. reflexivity.
Defined.

End FetchFacts.

Module AggregateFacts.
Import Time Json Transport Fetch Aggregate.
Import PartitionFacts.
Import AggregateSpec.

Lemma hour_pos : 0 < US_PER_HOUR.
Proof. unfold US_PER_HOUR, US_PER_SECOND. lia. Qed.

Lemma on_grid_step start t h :
  (exists n, 0 <= n /\ t = start + n * US_PER_HOUR) ->
  on_grid start (t + US_PER_HOUR) h <-> on_grid start t h \/ h = t.
Proof.
  pose proof hour_pos as HH. intros (n & Hn & Ht). split.
  - intros (m & Hm & Hh & Hlt).
    destruct (decide (m = n)) as [->|Hne]; [right; lia|].
    left. exists m. repeat split; try assumption. nia.
  - intros [(m & Hm & Hh & Hlt) | ->].
    + exists m. repeat split; try assumption. lia.
    + exists n. repeat split; try assumption. lia.
Qed.

Lemma grid_step start stop s :
  valid stop -> 0 <= start ->
  grid_invariant start stop s -> (fst s <? stop) = true ->
  exists s', grid_body s = Ok s' /\ grid_invariant start stop s' /\
             (grid_left stop s' < grid_left stop s)%nat.
Proof.
  pose proof hour_pos as HH.
  intros [_ Hmax] Hstart [(n & Hn & Ht) Hle Hal Hkeys Hempty] Hlt.
  destruct s as [t sorted]. simpl in *. apply Z.ltb_lt in Hlt.
  pose proof (aligned_gap _ _ Hlt Hal) as Hgap.
  assert (Hdt : dt = US_PER_HOUR) by (unfold dt, hours; lia).
  assert (Hadd : datetime_add t dt = Ok (t + US_PER_HOUR)).
  { unfold datetime_add. rewrite Hdt. cbv zeta.
    assert (0 <= t + US_PER_HOUR <= datetime_max) as [H1 H2] by lia.
    apply Z.leb_le in H1, H2. rewrite H1, H2. reflexivity. }
  rewrite Hadd. simpl. eexists. split; [reflexivity|]. split.
  - constructor; simpl.
    + exists (n + 1). split; [lia|]. lia.
    + left. lia.
    + replace (stop - (t + US_PER_HOUR)) with ((stop - t) + (-1) * US_PER_HOUR) by lia.
      rewrite Z.mod_add by lia. assumption.
    + intros h. rewrite on_grid_step by (exists n; split; assumption).
      rewrite <- Hkeys. destruct (decide (t = h)) as [->|Hne].
      * rewrite lookup_insert_eq. split; [intros _; right; reflexivity | eauto].
      * rewrite lookup_insert_ne by assumption.
        split; [intros H; left; assumption | intros [H|H]; [assumption|congruence]].
    + intros h inner. destruct (decide (t = h)) as [->|Hne].
      * rewrite lookup_insert_eq. intros [= <-]. reflexivity.
      * rewrite lookup_insert_ne by assumption. apply Hempty.
  - unfold grid_left. simpl.
    replace (stop - t) with ((stop - (t + US_PER_HOUR)) + 1 * US_PER_HOUR) by lia.
    rewrite Z.div_add by lia.
    assert (0 <= (stop - (t + US_PER_HOUR)) / US_PER_HOUR)
      by (apply Z.div_pos; lia).
    lia.
Qed.

(** the grid loop terminates and builds exactly the hours of
    [[start, stop)], each with an empty dict *)
Lemma make_grid_spec fuel start stop :
  valid start -> valid stop -> hour_aligned start -> hour_aligned stop ->
  (Z.to_nat ((stop - start) / US_PER_HOUR) < fuel)%nat ->
  exists grid,
    make_grid fuel start stop = Some (Ok grid) /\
    (forall h, is_Some (grid !! h) <-> on_grid start stop h) /\
    (forall h inner, grid !! h = Some inner -> inner = ∅).
Proof.
  pose proof hour_pos as HH.
  intros Hvs Hvt Has Hat Hfuel.
  assert (Hal : (stop - start) mod US_PER_HOUR = 0).
  { unfold hour_aligned in *. rewrite Zminus_mod, Has, Hat. reflexivity. }
  assert (Hinit : grid_invariant start stop (start, ∅)).
  { constructor; simpl.
    - exists 0. lia.
    - right. reflexivity.
    - assumption.
    - intros h. rewrite lookup_empty. split.
      + intros [x Hx]. discriminate.
      + intros (n & Hn & Hh & Hlt). exfalso. nia.
    - intros h inner. rewrite lookup_empty. discriminate. }
  destruct (while_terminates (fun s => fst s <? stop) grid_body
              (grid_invariant start stop) (grid_left stop)
              (fun s HI Hc => grid_step start stop s Hvt (proj1 Hvs) HI Hc)
              fuel (start, ∅) Hinit Hfuel)
    as ([t grid] & Hrun & [(n & Hn & Ht) Hle Hal' Hkeys Hempty] & Hexit).
  simpl in *. apply Z.ltb_ge in Hexit.
  unfold make_grid. rewrite Hrun. exists grid. split; [reflexivity|].
  split; [|assumption].
  intros h. rewrite Hkeys. destruct Hle as [Hle | ->].
  - replace t with stop by lia. reflexivity.
  - split; intros (m & Hm & Hh & Hlt); exfalso; nia.
Qed.

Lemma insert_all_app l1 l2 s :
  insert_all (l1 ++ l2) s = (s' <-! insert_all l1 s; insert_all l2 s').
Proof.
  revert s. induction l1 as [|[i j] l1 IH]; intros s; simpl; [reflexivity|].
  destruct (insert_record i j s); simpl; [apply IH | reflexivity].
Qed.

Lemma for_records_insert_all i records s :
  for_records i records s = insert_all (map (pair i) records) s.
Proof.
  revert s. induction records as [|j rest IH]; intros s; simpl; [reflexivity|].
  destruct (insert_record i j s); simpl; [apply IH | reflexivity].
Qed.

Lemma for_sensors_processed points series s :
  for_sensors points series s = insert_all (processed points series) s.
Proof.
  revert s. induction points as [|i rest IH]; intros s; simpl; [reflexivity|].
  unfold processed in *. simpl. rewrite insert_all_app.
  unfold records_of at 1.
  destruct (series !! id i) as [records|]; simpl.
  - rewrite for_records_insert_all.
    destruct (insert_all (map (pair i) records) s); simpl; [apply IH | reflexivity].
  - apply IH.
Qed.

Lemma py_max_int m v : py_max (JInt m) (JInt v) = Ok (JInt (Z.max m v)).
Proof.
  unfold py_max. simpl. destruct (decide (Qc_of_Z m < Qc_of_Z v)%Qc) as [H|H].
  - apply Z2Qc_inj_lt in H. do 2 f_equal. lia.
  - rewrite <- Z2Qc_inj_lt in H. do 2 f_equal. lia.
Qed.

Lemma insert_record_int i j sorted m inner v :
  sorted !! start j = Some inner -> volume j = JInt v ->
  insert_record i j (sorted, JInt m)
  = Ok (<[start j := <[id i := mk_cell (JInt v) (lat i) (lon i)]> inner]> sorted,
        JInt (Z.max m v)).
Proof.
  intros Hs Hv. unfold insert_record. rewrite Hs, Hv. cbn -[py_max].
  rewrite py_max_int. reflexivity.
Qed.

Lemma insert_all_int l : forall sorted m,
  Forall (fun p => is_Some (sorted !! start (snd p))) l ->
  Forall (fun p => int_volume (snd p)) l ->
  exists sorted',
    insert_all l (sorted, JInt m) = Ok (sorted', JInt (running_max m l)) /\
    (forall h, is_Some (sorted' !! h) <-> is_Some (sorted !! h)).
Proof.
  induction l as [|[i j] l IH]; intros sorted m Hin Hvol.
  - exists sorted. split; [reflexivity | intros h; reflexivity].
  - apply Forall_cons in Hin as [[inner Hj] Hin].
    apply Forall_cons in Hvol as [[v Hv] Hvol]. simpl in Hj, Hv.
    cbn [insert_all]. rewrite (insert_record_int i j sorted m inner v Hj Hv).
    cbn [rbind].
    set (sorted1 := <[start j := _]> sorted).
    assert (Hdom : forall h, is_Some (sorted1 !! h) <-> is_Some (sorted !! h)).
    { intros h. unfold sorted1. destruct (decide (start j = h)) as [<-|Hne].
      - rewrite lookup_insert_eq, Hj. split; eauto.
      - rewrite lookup_insert_ne by assumption. reflexivity. }
    destruct (IH sorted1 (Z.max m v)) as (sorted' & Hrun & Hdom').
    + eapply Forall_impl; [exact Hin|]. intros p Hp. simpl in *.
      apply Hdom. assumption.
    + assumption.
    + exists sorted'. split.
      * rewrite Hrun. unfold running_max. simpl. rewrite Hv. reflexivity.
      * intros h. rewrite Hdom'. apply Hdom.
Qed.




Lemma insert_record_keys i j sorted m sorted' m' :
  insert_record i j (sorted, m) = Ok (sorted', m') ->
  (forall h, is_Some (sorted' !! h) <-> is_Some (sorted !! h)) /\
  (forall h, start j <> h -> sorted' !! h = sorted !! h).
Proof.
  unfold insert_record.
  destruct (sorted !! start j) as [inner|] eqn:Hj; [|discriminate].
  cbn -[py_max]. destruct (py_max m (volume j)) as [m1|e]; [|discriminate].
  cbn. intros [= <- <-]. split.
  - intros h. destruct (decide (start j = h)) as [<-|Hne].
    + rewrite lookup_insert_eq, Hj. split; eauto.
    + rewrite lookup_insert_ne by assumption. reflexivity.
  - intros h Hne. apply lookup_insert_ne. assumption.
Qed.

Lemma insert_all_keys l : forall sorted m sorted' m',
  insert_all l (sorted, m) = Ok (sorted', m') ->
  (forall h, is_Some (sorted' !! h) <-> is_Some (sorted !! h)) /\
  (forall h, Forall (fun p => start (snd p) <> h) l ->
             sorted' !! h = sorted !! h).
Proof.
  induction l as [|[i j] l IH]; intros sorted m sorted' m'.
  - simpl. intros [= <- <-]. split; intros h; reflexivity.
  - cbn [insert_all].
    destruct (insert_record i j (sorted, m)) as [[sorted1 m1]|e] eqn:H1;
      [|discriminate].
    cbn [rbind]. intros Hrest.
    destruct (insert_record_keys _ _ _ _ _ _ H1) as [Hk1 Hu1].
    destruct (IH _ _ _ _ Hrest) as [Hk Hu]. split.
    + intros h. rewrite Hk. apply Hk1.
    + intros h Hall. apply Forall_cons in Hall as [Hj Hall]. simpl in Hj.
      rewrite (Hu h Hall). apply Hu1. assumption.
Qed.

(** Lines 261-281 on two whole hours: whenever they return an aggregate,
    its keys are exactly the hours [start + n] hours before [stop], and an
    hour no record falls on keeps an empty inner dict.  They do return one
    when every record of a listed sensor starts on an hour of the grid and
    has an integer volume. *)
Lemma dense_grid (fuel : nat) (points : list point)
    (series : gmap string (list element)) (start stop : Z) :
  valid start -> valid stop -> hour_aligned start -> hour_aligned stop ->
  (Z.to_nat ((stop - start) / US_PER_HOUR) < fuel)%nat ->
  (forall agg m,
     sort_by_hour fuel points series start stop = Some (Ok (agg, m)) ->
     (forall h, is_Some (agg !! h) <-> on_grid start stop h) /\
     (forall h, on_grid start stop h ->
        Forall (fun p => Fetch.start (snd p) <> h) (processed points series) ->
        agg !! h = Some ∅)) /\
  (Forall (fun p => on_grid start stop (Fetch.start (snd p)))
          (processed points series) ->
   Forall (fun p => int_volume (snd p)) (processed points series) ->
   exists agg m,
     sort_by_hour fuel points series start stop = Some (Ok (agg, m))).
Proof.
  intros Hvs Hvt Has Hat Hfuel.
  destruct (make_grid_spec fuel start stop Hvs Hvt Has Hat Hfuel)
    as (grid & Hgrid & Hkeys & Hempty).
  unfold sort_by_hour. rewrite Hgrid, for_sensors_processed. split.
  - intros agg m [= Hrun].
    destruct (insert_all_keys _ _ _ _ _ Hrun) as [Hk Hu]. split.
    + intros h. rewrite Hk. apply Hkeys.
    + intros h Hh Hall. rewrite (Hu h Hall).
      apply Hkeys in Hh. destruct Hh as [inner Hinner].
      rewrite Hinner. f_equal. eapply Hempty. eassumption.
  - intros Hrange Hvol.
    destruct (insert_all_int (processed points series) grid 0) as (agg & Hrun & _).
    + eapply Forall_impl; [exact Hrange|]. intros p Hp. simpl in Hp.
      apply Hkeys. assumption.
    + assumption.
    + exists agg, (JInt (running_max 0 (processed points series))).
      rewrite Hrun. reflexivity.
Qed.


Lemma for_records_pairs i records s :
  for_records i records s = for_pairs i (map key_vol records) s.
Proof.
  revert s. induction records as [|j rest IH]; intros s; simpl; [reflexivity|].
  change (put i (key_vol j) s) with (insert_record i j s).
  destruct (insert_record i j s); simpl; [apply IH | reflexivity].
Qed.

Lemma for_sensors_cons i rest series s :
  for_sensors (i :: rest) series s =
  (s' <-! for_pairs i (map key_vol (records_of series (id i))) s;
   for_sensors rest series s').
Proof.
  simpl. unfold records_of.
  destruct (series !! id i) as [records|]; simpl; [|reflexivity].
  rewrite for_records_pairs. reflexivity.
Qed.

Lemma put_int i h v sorted m :
  put i (h, JInt v) (sorted, JInt m) =
  match sorted !! h with
  | Some inner =>
      Ok (<[h := <[id i := mk_cell (JInt v) (lat i) (lon i)]> inner]> sorted,
          JInt (Z.max m v))
  | None => Raise (KeyError (KTime h))
  end.
Proof.
  unfold put. destruct (sorted !! h) as [inner|] eqn:Hh.
  - apply insert_record_int; [exact Hh | reflexivity].
  - unfold insert_record. simpl. rewrite Hh. reflexivity.
Qed.

Lemma put_swap i x y sorted m r :
  fst x <> fst y -> int_pair x -> int_pair y ->
  (s' <-! put i x (sorted, JInt m); put i y s') = Ok r ->
  (s' <-! put i y (sorted, JInt m); put i x s') = Ok r.
Proof.
  destruct x as [h1 v1], y as [h2 v2]. cbn [fst snd].
  intros Hne [a Ha] [b Hb]. cbn [snd] in Ha, Hb. subst v1 v2.
  rewrite !put_int.
  destruct (sorted !! h1) as [in1|] eqn:H1; [|discriminate].
  cbn [rbind]. rewrite put_int. rewrite lookup_insert_ne by assumption.
  destruct (sorted !! h2) as [in2|] eqn:H2; [|discriminate].
  intros [= <-]. cbn [rbind]. rewrite put_int.
  rewrite lookup_insert_ne by congruence. rewrite H1.
  f_equal. f_equal.
  - apply insert_insert_ne. congruence.
  - f_equal. lia.
Qed.

Lemma put_int_state i hv sorted m s' :
  int_pair hv -> put i hv (sorted, JInt m) = Ok s' ->
  exists sorted' m', s' = (sorted', JInt m').
Proof.
  destruct hv as [h v]. intros [a Ha]. cbn [snd] in Ha. subst v.
  rewrite put_int. destruct (sorted !! h); [|discriminate].
  intros [= <-]. eauto.
Qed.

(** the order of the records of one sensor does not matter, as long as no
    two of them fall on the same hour *)
Lemma for_pairs_permutation i l1 l2 :
  Permutation l1 l2 ->
  NoDup (map fst l1) -> Forall int_pair l1 ->
  forall sorted m r,
    for_pairs i l1 (sorted, JInt m) = Ok r ->
    for_pairs i l2 (sorted, JInt m) = Ok r.
Proof.
  induction 1 as [|x l l' Hperm IH|x y l|l l' l'' Hp1 IH1 Hp2 IH2];
    intros Hnd Hint sorted m r.
  - trivial.
  - cbn [for_pairs]. apply Forall_cons in Hint as [Hx Hint].
    simpl in Hnd. apply NoDup_cons in Hnd as [_ Hnd].
    destruct (put i x (sorted, JInt m)) as [s'|e] eqn:Hput; [|discriminate].
    destruct (put_int_state _ _ _ _ _ Hx Hput) as (sorted' & m' & ->).
    cbn [rbind]. apply IH; assumption.
  - cbn [for_pairs].
    apply Forall_cons in Hint as [Hy Hint].
    apply Forall_cons in Hint as [Hx Hint].
    simpl in Hnd. apply NoDup_cons in Hnd as [Hyx Hnd].
    assert (Hne : fst y <> fst x).
    { intros Heq. apply Hyx. rewrite Heq. left. }
    intros Hrun.
    destruct (put i y (sorted, JInt m)) as [s1|e] eqn:Hy1; [|discriminate].
    cbn [rbind] in Hrun.
    destruct (put i x s1) as [s2|e] eqn:Hx2; [|discriminate].
    cbn [rbind] in Hrun.
    assert (Hboth : (s' <-! put i x (sorted, JInt m); put i y s') = Ok s2).
    { apply put_swap; try assumption. rewrite Hy1. cbn [rbind]. exact Hx2. }
    destruct (put i x (sorted, JInt m)) as [s1'|e]; [|discriminate].
    cbn [rbind] in *. rewrite Hboth. cbn [rbind]. exact Hrun.
  - intros Hrun. apply IH2.
    + rewrite <- (Permutation_map fst Hp1). exact Hnd.
    + eapply Permutation_Forall; eassumption.
    + apply IH1; assumption.
Qed.

Lemma for_pairs_int_state i l : forall sorted m s',
  Forall int_pair l -> for_pairs i l (sorted, JInt m) = Ok s' ->
  exists sorted' m', s' = (sorted', JInt m').
Proof.
  induction l as [|hv l IH]; intros sorted m s' Hint.
  - simpl. intros [= <-]. eauto.
  - apply Forall_cons in Hint as [Hhv Hint]. cbn [for_pairs].
    destruct (put i hv (sorted, JInt m)) as [s1|e] eqn:Hput; [|discriminate].
    destruct (put_int_state _ _ _ _ _ Hhv Hput) as (sorted1 & m1 & ->).
    cbn [rbind]. apply IH. assumption.
Qed.

Lemma for_sensors_permutation series1 series2 points :
  (forall i, In i points ->
     Permutation (map key_vol (records_of series1 (id i)))
                 (map key_vol (records_of series2 (id i)))) ->
  (forall i, In i points ->
     NoDup (map Fetch.start (records_of series1 (id i)))) ->
  Forall (fun p => int_volume (snd p)) (processed points series1) ->
  forall sorted m r,
    for_sensors points series1 (sorted, JInt m) = Ok r ->
    for_sensors points series2 (sorted, JInt m) = Ok r.
Proof.
  induction points as [|i rest IH]; intros Hperm Hnd Hint sorted m r.
  - trivial.
  - rewrite !for_sensors_cons.
    unfold processed in Hint. simpl in Hint.
    apply Forall_app in Hint as [Hi Hrest].
    assert (Hpairs : Forall int_pair (map key_vol (records_of series1 (id i)))).
    { apply List.Forall_forall. intros hv Hin.
      apply in_map_iff in Hin as (j & <- & Hj).
      rewrite List.Forall_forall in Hi. apply (Hi (i, j)).
      apply in_map. exact Hj. }
    destruct (for_pairs i (map key_vol (records_of series1 (id i)))
                (sorted, JInt m)) as [s1|e] eqn:H1; [|discriminate].
    destruct (for_pairs_int_state _ _ _ _ _ Hpairs H1) as (sorted1 & m1 & ->).
    rewrite (for_pairs_permutation i _ _ (Hperm i (or_introl eq_refl))
               ltac:(rewrite map_map; apply Hnd; left; reflexivity)
               Hpairs sorted m _ H1).
    cbn [rbind]. apply IH.
    + intros i' Hi'. apply Hperm. right. assumption.
    + intros i' Hi'. apply Hnd. right. assumption.
    + exact Hrest.
Qed.

(** C4. Two series that hold, for every listed sensor, the same (hour,
    volume) records in any order, no two records of a sensor on the same
    hour, give the same aggregate and the same maximum (the records being
    on the grid and of integer volume, so that lines 261-281 return). *)
Theorem order_independent (fuel : nat) (points : list point)
    (series1 series2 : gmap string (list element)) (start stop : Z) :
  valid start -> valid stop -> hour_aligned start -> hour_aligned stop ->
  (Z.to_nat ((stop - start) / US_PER_HOUR) < fuel)%nat ->
  (forall i, In i points ->
     Permutation (map key_vol (records_of series1 (id i)))
                 (map key_vol (records_of series2 (id i)))) ->
  (forall i, In i points ->
     NoDup (map Fetch.start (records_of series1 (id i)))) ->
  Forall (fun p => on_grid start stop (Fetch.start (snd p)))
         (processed points series1) ->
  Forall (fun p => int_volume (snd p)) (processed points series1) ->
  exists agg m,
    sort_by_hour fuel points series1 start stop = Some (Ok (agg, m)) /\
    sort_by_hour fuel points series2 start stop = Some (Ok (agg, m)).
Proof.
  intros Hvs Hvt Has Hat Hfuel Hperm Hnd Hrange Hint.
  destruct (make_grid_spec fuel start stop Hvs Hvt Has Hat Hfuel)
    as (grid & Hgrid & Hkeys & Hempty).
  destruct (insert_all_int (processed points series1) grid 0) as (agg & Hrun & _).
  { eapply Forall_impl; [exact Hrange|]. intros p Hp. simpl in Hp.
    apply Hkeys. assumption. }
  { assumption. }
  rewrite <- for_sensors_processed in Hrun.
  exists agg, (JInt (running_max 0 (processed points series1))).
  unfold sort_by_hour. rewrite Hgrid, Hrun. split; [reflexivity|].
  f_equal. eapply for_sensors_permutation; eassumption.
Qed.

Example demo_aggregate :
  sort_by_hour 5 [point_A; point_B] demo_series hour0 hour2
  = Some (Ok ({[hour0 := {["A" := mk_cell (JInt 5) (JInt 10) (JInt 10);
                           "B" := mk_cell (JInt 10) (JInt 20) (JInt 20)]};
                hour1 := ∅]},
              JInt 10)).
Proof. vm_compute. reflexivity. Qed.

Example demo_processed :
  processed [point_A; point_B] demo_series
  = [(point_A, record_A); (point_B, record_B)].
Proof. vm_compute. reflexivity. Qed.

Lemma demo_valid : valid hour0 /\ valid hour2.
Proof. unfold valid. vm_compute. repeat split; discriminate. Qed.



Lemma demo_int_volumes :
  Forall (fun p => int_volume (snd p))
         (processed [point_A; point_B] demo_series).
Proof. rewrite demo_processed. repeat constructor; eexists; reflexivity. Qed.


Lemma order_independent_witness :
  exists agg m,
    sort_by_hour 5 [point_A; point_B] series_a hour0 hour2 = Some (Ok (agg, m)) /\
    sort_by_hour 5 [point_A; point_B] series_b hour0 hour2 = Some (Ok (agg, m)).
Proof.
  apply (order_independent 5 [point_A; point_B] series_a series_b hour0 hour2).
  - apply demo_valid.
  - apply demo_valid.
  - reflexivity.
  - reflexivity.
  - vm_compute. lia.
  - intros i [<- | [<- | []]]; vm_compute.
    + apply perm_swap.
    + apply Permutation_refl.
  - intros i [<- | [<- | []]]; vm_compute; repeat constructor;
      rewrite ?list_elem_of_In; simpl; intuition discriminate.
  - assert (Hp : processed [point_A; point_B] series_a
                 = [(point_A, record_A); (point_A, record_A1); (point_B, record_B)])
      by (vm_compute; reflexivity).
    rewrite Hp. repeat constructor.
    + exists 0. vm_compute. repeat split; discriminate.
    + exists 1. vm_compute. repeat split; discriminate.
    + exists 0. vm_compute. repeat split; discriminate.
  - assert (Hp : processed [point_A; point_B] series_a
                 = [(point_A, record_A); (point_A, record_A1); (point_B, record_B)])
      by (vm_compute; reflexivity).
    rewrite Hp. repeat constructor; eexists; reflexivity.
Defined.

(** [replace(microsecond=0, second=0, minute=0)] gives a valid,
    hour-aligned datetime, not after the one it was taken from *)
Lemma floor_hour_spec t :
  valid t ->
  valid (floor_hour t) /\ hour_aligned (floor_hour t) /\ floor_hour t <= t.
Proof.
  pose proof hour_pos as HH. unfold valid, hour_aligned, floor_hour.
  intros [Hlo Hhi].
  pose proof (Z.div_mod t US_PER_HOUR ltac:(lia)) as E.
  pose proof (Z.mod_pos_bound t US_PER_HOUR HH) as B.
  replace (t - t mod US_PER_HOUR) with (US_PER_HOUR * (t / US_PER_HOUR)) by lia.
  assert (0 <= t / US_PER_HOUR) by (apply Z.div_pos; lia).
  repeat split; try nia.
  rewrite Z.mul_comm. apply Z.mod_mul. lia.
Qed.

(** the whole function: the fetch on the two floored instants, then lines
    261-281 on the series it returned *)
Lemma get_traffic_volume_by_hour_sorts net fuel points start stop k :
  get_traffic_volume_by_hour net fuel points start stop k =
  match query_traffic_volume_by_hour net fuel (map id points)
          (floor_hour start) (floor_hour stop) k with
  | Some (Ok series, k') =>
      match sort_by_hour fuel points series (floor_hour start) (floor_hour stop) with
      | Some r => Some (r, k')
      | None => None
      end
  | Some (Raise e, k') => Some (Raise e, k')
  | None => None
  end.
Proof.
  unfold get_traffic_volume_by_hour, io_bind, io_fuel.
  destruct (query_traffic_volume_by_hour net fuel (map id points)
              (floor_hour start) (floor_hour stop) k) as [[[series|e] k']|];
    reflexivity.
Qed.

(** the hours of a grid that starts on the hour are the whole hours from
    its first instant up to, and not including, its last *)
Lemma on_grid_whole_hours a b h :
  hour_aligned a ->
  on_grid a b h <-> hour_aligned h /\ a <= h < b.
Proof.
  pose proof hour_pos as HH. unfold hour_aligned, on_grid. intros Ha. split.
  - intros (n & Hn & -> & Hlt). split; [|nia].
    rewrite Z.mod_add by lia. assumption.
  - intros (Hh & Hle & Hlt).
    pose proof (Z.div_mod h US_PER_HOUR ltac:(lia)) as Eh.
    pose proof (Z.div_mod a US_PER_HOUR ltac:(lia)) as Ea.
    rewrite Hh in Eh. rewrite Ha in Ea.
    exists (h / US_PER_HOUR - a / US_PER_HOUR). repeat split; nia.
Qed.

Lemma floor_hour_aligned t : hour_aligned t -> floor_hour t = t.
Proof. unfold hour_aligned, floor_hour. intros ->. lia. Qed.

(** C2. [get_traffic_volume_by_hour] first cuts [start] and [stop] down to
    the whole hour (lines 254-255).  Whenever it returns an aggregate, its
    keys are exactly the hours of the grid between the two cut instants,
    that is, the whole hours from the hour [start] falls in up to, and not
    including, the hour [stop] falls in; such an hour on which no fetched
    record of a listed sensor starts is a key with an empty inner dict.
    It does return one when the fetch returns a series whose records start
    on hours of that grid and have integer volumes.  For [start] and [stop]
    on the hour these keys are the hours [start + n] hours before [stop]. *)
Theorem hour_keys (net : network) (fuel : nat) (points : list point)
    (start stop : Z) (k : nat) :
  valid start -> valid stop ->
  (Z.to_nat ((floor_hour stop - floor_hour start) / US_PER_HOUR) < fuel)%nat ->
  (forall agg m k',
     get_traffic_volume_by_hour net fuel points start stop k
       = Some (Ok (agg, m), k') ->
     (forall h, is_Some (agg !! h)
                <-> on_grid (floor_hour start) (floor_hour stop) h) /\
     exists series,
       query_traffic_volume_by_hour net fuel (map id points)
         (floor_hour start) (floor_hour stop) k = Some (Ok series, k') /\
       forall h, on_grid (floor_hour start) (floor_hour stop) h ->
         Forall (fun p => Fetch.start (snd p) <> h) (processed points series) ->
         agg !! h = Some ∅) /\
  (forall series k',
     query_traffic_volume_by_hour net fuel (map id points)
       (floor_hour start) (floor_hour stop) k = Some (Ok series, k') ->
     Forall (fun p => on_grid (floor_hour start) (floor_hour stop)
                        (Fetch.start (snd p)))
            (processed points series) ->
     Forall (fun p => int_volume (snd p)) (processed points series) ->
     exists agg m,
       get_traffic_volume_by_hour net fuel points start stop k
         = Some (Ok (agg, m), k')) /\
  (forall h, on_grid (floor_hour start) (floor_hour stop) h
             <-> hour_aligned h /\ floor_hour start <= h < floor_hour stop) /\
  (hour_aligned start -> hour_aligned stop ->
   forall h, on_grid (floor_hour start) (floor_hour stop) h
             <-> on_grid start stop h).
Proof.
  intros Hvs Hvt Hfuel.
  destruct (floor_hour_spec start Hvs) as (Hvs' & Has & _).
  destruct (floor_hour_spec stop Hvt) as (Hvt' & Hat & _).
  split; [|split; [|split]].
  - intros agg m k'. rewrite get_traffic_volume_by_hour_sorts.
    destruct (query_traffic_volume_by_hour net fuel (map id points)
                (floor_hour start) (floor_hour stop) k)
      as [[[series|e] k1]|]; try discriminate.
    destruct (sort_by_hour fuel points series (floor_hour start)
                (floor_hour stop)) as [r|] eqn:Hsort; [|discriminate].
    intros [= -> ->].
    destruct (dense_grid fuel points series _ _ Hvs' Hvt' Has Hat Hfuel)
      as [Hret _].
    destruct (Hret agg m Hsort) as [Hkeys Hempty].
    split; [exact Hkeys|]. exists series. split; [reflexivity | exact Hempty].
  - intros series k' Hfetch Hrange Hvol.
    destruct (dense_grid fuel points series _ _ Hvs' Hvt' Has Hat Hfuel)
      as [_ Hrun].
    destruct (Hrun Hrange Hvol) as (agg & m & Hsort).
    exists agg, m.
    rewrite get_traffic_volume_by_hour_sorts, Hfetch, Hsort. reflexivity.
  - intros h. apply on_grid_whole_hours. assumption.
  - intros Hs Ht h. rewrite (floor_hour_aligned start Hs), (floor_hour_aligned stop Ht).
    reflexivity.
Qed.

(** from 00:00 to 02:30 on 2019-10-24, with the service of the end-to-end
    example *)
Lemma hour_keys_witness :
  (forall agg m k',
     get_traffic_volume_by_hour demo_network 5 [point_A; point_B]
       midnight (midnight + hours 2 + 1800000000) 0%nat = Some (Ok (agg, m), k') ->
     (forall h, is_Some (agg !! h)
                <-> on_grid (floor_hour midnight)
                      (floor_hour (midnight + hours 2 + 1800000000)) h) /\
     exists series,
       query_traffic_volume_by_hour demo_network 5 (map id [point_A; point_B])
         (floor_hour midnight) (floor_hour (midnight + hours 2 + 1800000000)) 0%nat
         = Some (Ok series, k') /\
       forall h, on_grid (floor_hour midnight)
                   (floor_hour (midnight + hours 2 + 1800000000)) h ->
         Forall (fun p => Fetch.start (snd p) <> h)
                (processed [point_A; point_B] series) ->
         agg !! h = Some ∅) /\
  (forall series k',
     query_traffic_volume_by_hour demo_network 5 (map id [point_A; point_B])
       (floor_hour midnight) (floor_hour (midnight + hours 2 + 1800000000)) 0%nat
       = Some (Ok series, k') ->
     Forall (fun p => on_grid (floor_hour midnight)
                        (floor_hour (midnight + hours 2 + 1800000000))
                        (Fetch.start (snd p)))
            (processed [point_A; point_B] series) ->
     Forall (fun p => int_volume (snd p)) (processed [point_A; point_B] series) ->
     exists agg m,
       get_traffic_volume_by_hour demo_network 5 [point_A; point_B]
         midnight (midnight + hours 2 + 1800000000) 0%nat
         = Some (Ok (agg, m), k')) /\
  (forall h, on_grid (floor_hour midnight)
               (floor_hour (midnight + hours 2 + 1800000000)) h
             <-> hour_aligned h /\
                 floor_hour midnight <= h
                 < floor_hour (midnight + hours 2 + 1800000000)) /\
  (hour_aligned midnight -> hour_aligned (midnight + hours 2 + 1800000000) ->
   forall h, on_grid (floor_hour midnight)
               (floor_hour (midnight + hours 2 + 1800000000)) h
             <-> on_grid midnight (midnight + hours 2 + 1800000000) h).
Proof.
  apply (hour_keys demo_network 5 [point_A; point_B]
           midnight (midnight + hours 2 + 1800000000) 0%nat).
  - unfold valid. vm_compute. split; discriminate.
  - unfold valid. vm_compute. split; discriminate.
  - vm_compute. lia.
Defined.

(** from 00:00 to 02:30 on 2019-10-24 the call returns, 02:00 is two
    whole hours after [start] and before [stop], and it is not a key *)
Lemma half_past_two_no_key :
  get_traffic_volume_by_hour demo_network 5 [point_A; point_B]
    midnight (midnight + hours 2 + 1800000000) 0%nat
  = Some (Ok ({[midnight := {["A" := mk_cell (JInt 5) (JInt 10) (JInt 10);
                              "B" := mk_cell (JInt 10) (JInt 20) (JInt 20)]};
                midnight + hours 1 := ∅]},
              JInt 10),
          2%nat) /\
  midnight <= midnight + hours 2 + 1800000000 /\
  on_grid midnight (midnight + hours 2 + 1800000000) (midnight + hours 2) /\
  ({[midnight := {["A" := mk_cell (JInt 5) (JInt 10) (JInt 10);
                   "B" := mk_cell (JInt 10) (JInt 20) (JInt 20)]};
     midnight + hours 1 := ∅]} : gmap Z (gmap string cell))
    !! (midnight + hours 2) = None.
Proof.
  split; [vm_compute; reflexivity|].
  split; [vm_compute; discriminate|].
  split; [|vm_compute; reflexivity].
  exists 2. vm_compute. repeat split; discriminate.
Qed.

(** from 00:20:34.567 to 02:00:00.000005 on 2019-10-24: both instants are
    floored, one window is fetched for each of the two sensors *)
Example demo_run :
  get_traffic_volume_by_hour demo_network 5 [point_A; point_B]
    (midnight + 1234567000) (midnight + hours 2 + 5) 0%nat
  = Some (Ok ({[midnight := {["A" := mk_cell (JInt 5) (JInt 10) (JInt 10);
                              "B" := mk_cell (JInt 10) (JInt 20) (JInt 20)]};
                midnight + hours 1 := ∅]},
              JInt 10),
          2%nat).
Proof. vm_compute. reflexivity. Qed.

End AggregateFacts.

Module CalendarFacts.
Import Time Calendar.
Import CalendarSpec.

Lemma Zrange_forallb (p : Z -> bool) n : forall lo,
  forallb p (Zrange lo n) = true ->
  forall z, lo <= z < lo + Z.of_nat n -> p z = true.
Proof.
  induction n as [|n IH]; intros lo Hall z Hz; [lia|].
  simpl in Hall. apply andb_true_iff in Hall as [Hlo Hall].
  destruct (decide (z = lo)) as [->|Hne]; [assumption|].
  apply (IH (lo + 1) Hall). lia.
Qed.

Lemma month_day_checked leapyear n :
  0 <= n < 365 -> month_day_ok leapyear n = true.
Proof.
  intros Hn. destruct leapyear.
  - apply (Zrange_forallb (month_day_ok true) 365 0); [vm_compute; reflexivity | lia].
  - apply (Zrange_forallb (month_day_ok false) 365 0); [vm_compute; reflexivity | lia].
Qed.

Lemma ord2ymd_split n :
  1 <= n ->
  exists a b c e r, split n a b c e r /\ ord2ymd n = finish a b c e r.
Proof.
  intros Hn. unfold ord2ymd, DI400Y, DI100Y, DI4Y. cbv zeta.
  pose proof (Z.div_mod (n - 1) 146097 ltac:(lia)) as E1.
  pose proof (Z.mod_pos_bound (n - 1) 146097 ltac:(lia)) as B1.
  set (a := (n - 1) / 146097) in *. set (r1 := (n - 1) mod 146097) in *.
  pose proof (Z.div_mod r1 36524 ltac:(lia)) as E2.
  pose proof (Z.mod_pos_bound r1 36524 ltac:(lia)) as B2.
  set (b := r1 / 36524) in *. set (r2 := r1 mod 36524) in *.
  pose proof (Z.div_mod r2 1461 ltac:(lia)) as E3.
  pose proof (Z.mod_pos_bound r2 1461 ltac:(lia)) as B3.
  set (c := r2 / 1461) in *. set (r3 := r2 mod 1461) in *.
  pose proof (Z.div_mod r3 365 ltac:(lia)) as E4.
  pose proof (Z.mod_pos_bound r3 365 ltac:(lia)) as B4.
  set (e := r3 / 365) in *. set (r := r3 mod 365) in *.
  exists a, b, c, e, r. split.
  - clearbody a r1 b r2 c r3 e r. constructor; lia.
  - unfold finish, month_day. cbv zeta.
    destruct ((e =? 4) || (b =? 4)); [reflexivity|].
    match goal with
    | |- context [if ?x <? ?y then _ else _] => destruct (x <? y)
    end; reflexivity.
Qed.

Lemma leap_flag a b c e :
  0 <= a -> 0 <= b <= 3 -> 0 <= c <= 24 -> 0 <= e <= 3 ->
  is_leap (a * 400 + 1 + (b * 100 + c * 4 + e))
  = (e =? 3) && (negb (c =? 24) || (b =? 3)).
Proof.
  intros Ha Hb Hc He. unfold is_leap.
  set (y := a * 400 + 1 + (b * 100 + c * 4 + e)).
  pose proof (Z.div_mod y 4 ltac:(lia)) as E1.
  pose proof (Z.mod_pos_bound y 4 ltac:(lia)) as B1.
  pose proof (Z.div_mod y 100 ltac:(lia)) as E2.
  pose proof (Z.mod_pos_bound y 100 ltac:(lia)) as B2.
  pose proof (Z.div_mod y 400 ltac:(lia)) as E3.
  pose proof (Z.mod_pos_bound y 400 ltac:(lia)) as B3.
  assert (Hy : y = a * 400 + 1 + (b * 100 + c * 4 + e)) by reflexivity.
  clearbody y.
  destruct (Z.eqb_spec (y mod 4) 0), (Z.eqb_spec (y mod 100) 0),
    (Z.eqb_spec (y mod 400) 0), (Z.eqb_spec e 3), (Z.eqb_spec c 24),
    (Z.eqb_spec b 3); simpl; try reflexivity; exfalso; lia.
Qed.

Lemma days_before_year_split a b c e :
  0 <= a -> 0 <= b <= 3 -> 0 <= c <= 24 -> 0 <= e <= 3 ->
  days_before_year (a * 400 + 1 + (b * 100 + c * 4 + e))
  = 146097 * a + 36524 * b + 1461 * c + 365 * e.
Proof.
  intros Ha Hb Hc He. unfold days_before_year. cbv zeta.
  set (y := a * 400 + 1 + (b * 100 + c * 4 + e) - 1).
  pose proof (Z.div_mod y 4 ltac:(lia)) as E1.
  pose proof (Z.mod_pos_bound y 4 ltac:(lia)) as B1.
  pose proof (Z.div_mod y 100 ltac:(lia)) as E2.
  pose proof (Z.mod_pos_bound y 100 ltac:(lia)) as B2.
  pose proof (Z.div_mod y 400 ltac:(lia)) as E3.
  pose proof (Z.mod_pos_bound y 400 ltac:(lia)) as B3.
  assert (Hy : y = a * 400 + (b * 100 + c * 4 + e)) by (unfold y; lia).
  clearbody y. lia.
Qed.

(** [_ord2ymd] gives a date of the calendar, and [_ymd2ord] gives the
    ordinal back *)
Lemma ord2ymd_spec n :
  1 <= n <= MAXORDINAL ->
  exists y m d,
    ord2ymd n = (y, m, d) /\
    1 <= y <= 9999 /\ 1 <= m <= 12 /\ 1 <= d <= days_in_month y m /\
    ymd2ord y m d = n.
Proof.
  unfold MAXORDINAL. intros [Hlo Hhi].
  destruct (ord2ymd_split n Hlo) as (a & b & c & e & r & Hsp & ->).
  destruct Hsp as [Hsum Ha Hb Hc He Hr Hb4 He4 Hc24].
  unfold finish. cbv zeta.
  destruct (Z.eqb_spec e 4) as [He'|He']; [|destruct (Z.eqb_spec b 4) as [Hb'|Hb']];
    cbn [orb].
  - (* the last day of a leap year that ends a four-year cycle *)
    destruct (He4 He') as [-> Hc'].
    assert (Hb3 : b <= 3).
    { destruct (decide (b = 4)) as [Hb'|Hb']; [|lia].
      destruct (Hb4 Hb') as (_ & He0 & _). lia. }
    replace (a * 400 + 1 + (b * 100 + c * 4 + e) - 1)
      with (a * 400 + 1 + (b * 100 + c * 4 + 3)) by lia.
    eexists _, _, _. split; [reflexivity|].
    unfold ymd2ord, days_in_month, days_before_month.
    rewrite days_before_year_split by lia.
    rewrite leap_flag by lia.
    assert (Hflag : negb (c =? 24) || (b =? 3) = true).
    { destruct (Z.eqb_spec c 24), (Z.eqb_spec b 3); simpl; try reflexivity.
      exfalso. lia. }
    rewrite Z.eqb_refl, Hflag. simpl. lia.
  - (* the last day of a 400-year cycle *)
    destruct (Hb4 Hb') as (-> & -> & ->). subst b.
    replace (a * 400 + 1 + (4 * 100 + 0 * 4 + 0) - 1)
      with (a * 400 + 1 + (3 * 100 + 24 * 4 + 3)) by lia.
    eexists _, _, _. split; [reflexivity|].
    unfold ymd2ord, days_in_month, days_before_month.
    rewrite days_before_year_split by lia.
    rewrite leap_flag by lia. simpl. lia.
  - pose proof (month_day_checked ((e =? 3) && (negb (c =? 24) || (b =? 3))) r Hr)
      as Hok.
    unfold month_day_ok in Hok.
    destruct (month_day ((e =? 3) && (negb (c =? 24) || (b =? 3))) r) as [m d].
    rewrite !andb_true_iff in Hok.
    destruct Hok as ((((Hm1 & Hm2) & Hd1) & Hd2) & Hsum').
    apply Z.leb_le in Hm1, Hm2, Hd1, Hd2. apply Z.eqb_eq in Hsum'.
    exists (a * 400 + 1 + (b * 100 + c * 4 + e)), m, d.
    split; [reflexivity|].
    unfold ymd2ord, days_in_month, days_before_month.
    rewrite days_before_year_split by lia.
    rewrite leap_flag by lia.
    repeat split; try assumption; try lia.
Qed.

Lemma in_range_check f : in_range f -> check_fields f = true.
Proof.
  intros [[? ?] [? ?] [? ?] [? ?] [? ?] [? ?] [? ?]]. unfold check_fields.
  repeat (apply andb_true_intro; split); apply Z.leb_le; assumption.
Qed.

Lemma days_in_month_le y m : days_in_month y m <= 31.
Proof.
  unfold days_in_month, DAYS_IN_MONTH.
  destruct ((m =? 2) && is_leap y); [lia|].
  destruct m as [|p|p]; simpl; try lia.
  do 4 (try destruct p as [p|p|]; simpl; try lia).
Qed.

(** the fields of a valid datetime are in range and give its position
    back *)
Lemma fields_of_spec t :
  valid t ->
  in_range (fields_of t) /\ to_timeline (fields_of t) = t /\
  microsecond (fields_of t) = t mod US_PER_SECOND.
Proof.
  unfold valid, datetime_max, MAXORDINAL. intros Ht.
  unfold fields_of, to_timeline.
  unfold US_PER_DAY, US_PER_HOUR, US_PER_SECOND in *.
  pose proof (Z.div_mod t (24 * (3600 * 1000000)) ltac:(lia)) as E0.
  pose proof (Z.mod_pos_bound t (24 * (3600 * 1000000)) ltac:(lia)) as B0.
  set (q := t / (24 * (3600 * 1000000))) in *.
  set (r := t mod (24 * (3600 * 1000000))) in *.
  destruct (ord2ymd_spec (q + 1)) as (y & m & d & -> & Hy & Hm & Hd & Hord).
  { unfold MAXORDINAL. clearbody q r. lia. }
  pose proof (Z.div_mod r (3600 * 1000000) ltac:(lia)) as E1.
  pose proof (Z.mod_pos_bound r (3600 * 1000000) ltac:(lia)) as B1.
  set (h := r / (3600 * 1000000)) in *.
  set (r1 := r mod (3600 * 1000000)) in *.
  pose proof (Z.div_mod r1 (60 * 1000000) ltac:(lia)) as E2.
  pose proof (Z.mod_pos_bound r1 (60 * 1000000) ltac:(lia)) as B2.
  set (mi := r1 / (60 * 1000000)) in *.
  pose proof (Z.div_mod r (60 * 1000000) ltac:(lia)) as E3.
  pose proof (Z.mod_pos_bound r (60 * 1000000) ltac:(lia)) as B3.
  set (r2 := r mod (60 * 1000000)) in *.
  pose proof (Z.div_mod r2 1000000 ltac:(lia)) as E4.
  pose proof (Z.mod_pos_bound r2 1000000 ltac:(lia)) as B4.
  set (sec := r2 / 1000000) in *.
  pose proof (Z.div_mod r 1000000 ltac:(lia)) as E5.
  pose proof (Z.mod_pos_bound r 1000000 ltac:(lia)) as B5.
  set (us := r mod 1000000) in *.
  pose proof (Z.div_mod t 1000000 ltac:(lia)) as E6.
  pose proof (Z.mod_pos_bound t 1000000 ltac:(lia)) as B6.
  set (tus := t mod 1000000) in *.
  clearbody q r h r1 mi r2 sec us tus.
  split; [constructor; simpl; try assumption; lia|].
  simpl. rewrite Hord. lia.
Qed.

(** a valid datetime is on the hour exactly when its minute, second and
    microsecond are zero *)
Lemma hour_aligned_fields t :
  valid t ->
  hour_aligned t <->
  minute (fields_of t) = 0 /\ second (fields_of t) = 0 /\
  microsecond (fields_of t) = 0.
Proof.
  unfold valid, datetime_max, MAXORDINAL, hour_aligned. intros Ht.
  unfold fields_of.
  destruct (ord2ymd (t / US_PER_DAY + 1)) as [[y m] d]. cbn [minute second microsecond].
  unfold US_PER_DAY, US_PER_HOUR, US_PER_SECOND in *.
  pose proof (Z.div_mod t (24 * (3600 * 1000000)) ltac:(lia)) as E0.
  pose proof (Z.mod_pos_bound t (24 * (3600 * 1000000)) ltac:(lia)) as B0.
  set (q := t / (24 * (3600 * 1000000))) in *.
  set (r := t mod (24 * (3600 * 1000000))) in *.
  pose proof (Z.div_mod r (3600 * 1000000) ltac:(lia)) as E1.
  pose proof (Z.mod_pos_bound r (3600 * 1000000) ltac:(lia)) as B1.
  set (h := r / (3600 * 1000000)) in *.
  set (r1 := r mod (3600 * 1000000)) in *.
  pose proof (Z.div_mod r1 (60 * 1000000) ltac:(lia)) as E2.
  pose proof (Z.mod_pos_bound r1 (60 * 1000000) ltac:(lia)) as B2.
  set (mi := r1 / (60 * 1000000)) in *.
  set (r1' := r1 mod (60 * 1000000)) in *.
  pose proof (Z.div_mod r (60 * 1000000) ltac:(lia)) as E3.
  pose proof (Z.mod_pos_bound r (60 * 1000000) ltac:(lia)) as B3.
  set (k3 := r / (60 * 1000000)) in *.
  set (r2 := r mod (60 * 1000000)) in *.
  pose proof (Z.div_mod r2 1000000 ltac:(lia)) as E4.
  pose proof (Z.mod_pos_bound r2 1000000 ltac:(lia)) as B4.
  set (sec := r2 / 1000000) in *.
  set (r2' := r2 mod 1000000) in *.
  pose proof (Z.div_mod r 1000000 ltac:(lia)) as E5.
  pose proof (Z.mod_pos_bound r 1000000 ltac:(lia)) as B5.
  set (k5 := r / 1000000) in *.
  set (us := r mod 1000000) in *.
  pose proof (Z.div_mod t (3600 * 1000000) ltac:(lia)) as E6.
  pose proof (Z.mod_pos_bound t (3600 * 1000000) ltac:(lia)) as B6.
  set (k6 := t / (3600 * 1000000)) in *.
  set (tm := t mod (3600 * 1000000)) in *.
  clearbody q r h r1 mi r1' k3 r2 sec r2' k5 us k6 tm.
  lia.
Qed.

End CalendarFacts.

Module DateTextFacts.
Import Time Calendar Text DateText Conversions CalendarFacts.
Import DateTextSpec CalendarSpec TextFacts.

Lemma first_bind {A B : Type} (m : matcher A) (k : A -> matcher B) s a s' r :
  first m s = Some (a, s') -> first (k a) s' = Some r ->
  first (m_bind m k) s = Some r.
Proof.
  unfold first, m_bind. destruct (m s) as [|[a0 s0] l]; [discriminate|].
  simpl. intros [= -> ->]. destruct (k a s') as [|r0 l0]; [discriminate|].
  simpl. trivial.
Qed.

Lemma first_char c rest : first (m_char c) (String c rest) = Some (tt, rest).
Proof. unfold first, m_char. rewrite Ascii.eqb_refl. reflexivity. Qed.

Lemma Zrange_Forall (P : Z -> Prop) n : forall lo,
  Forall P (Zrange lo n) -> forall z, lo <= z < lo + Z.of_nat n -> P z.
Proof.
  induction n as [|n IH]; intros lo Hall z Hz; [lia|].
  simpl in Hall. apply Forall_cons in Hall as [Hlo Hall].
  destruct (decide (z = lo)) as [->|Hne]; [assumption|].
  apply (IH (lo + 1) Hall). lia.
Qed.

Ltac by_cases lo n :=
  match goal with
  | |- forall z, _ -> @?P z =>
      intros z Hz; apply (Zrange_Forall P n lo); [|lia];
      repeat constructor; intros; reflexivity
  end.

Lemma month_re : forall n, 1 <= n <= 12 ->
  forall rest, first (directive_re dm) (pad2 n +:+ rest) = Some (n, rest).
Proof. by_cases 1 12%nat. Qed.

Lemma day_re : forall n, 1 <= n <= 31 ->
  forall rest, first (directive_re dd) (pad2 n +:+ rest) = Some (n, rest).
Proof. by_cases 1 31%nat. Qed.

Lemma hour_re : forall n, 0 <= n <= 23 ->
  forall rest, first (directive_re dH) (pad2 n +:+ rest) = Some (n, rest).
Proof. by_cases 0 24%nat. Qed.

Lemma minute_re : forall n, 0 <= n <= 59 ->
  forall rest, first (directive_re dM) (pad2 n +:+ rest) = Some (n, rest).
Proof. by_cases 0 60%nat. Qed.

Lemma second_re : forall n, 0 <= n <= 59 ->
  forall rest, first (directive_re dS) (pad2 n +:+ rest) = Some (n, rest).
Proof. by_cases 0 60%nat. Qed.

Lemma digit_of_digit_char : forall a, 0 <= a <= 9 ->
  digit_of_char (digit_char a) = Some a.
Proof.
  intros a Ha. apply (Zrange_Forall (fun a => digit_of_char (digit_char a) = Some a)
                        10%nat 0); [|lia].
  repeat constructor.
Qed.

Lemma m_digit_any a rest : 0 <= a <= 9 ->
  m_digit 0 9 (String (digit_char a) rest) = [(a, rest)].
Proof.
  intros Ha. unfold m_digit. rewrite (digit_of_digit_char a Ha).
  destruct (Z.leb_spec 0 a); [|lia]. destruct (Z.leb_spec a 9); [|lia].
  reflexivity.
Qed.

(** a number of four digits is printed as its four digits *)
Lemma decimal_go_4 fuel y acc :
  (3 <= fuel)%nat -> 1000 <= y <= 9999 ->
  decimal_go fuel y acc =
  String (digit_char (y / 1000)) (String (digit_char (y / 100 mod 10))
    (String (digit_char (y / 10 mod 10)) (String (digit_char (y mod 10)) acc))).
Proof.
  intros Hfuel Hy.
  destruct fuel as [|[|[|fuel]]]; try lia.
  assert (H1 : (y <? 10) = false) by (apply Z.ltb_ge; lia).
  assert (H2 : (y / 10 <? 10) = false).
  { apply Z.ltb_ge. apply Z.div_le_lower_bound; lia. }
  assert (H3 : (y / 10 / 10 <? 10) = false).
  { apply Z.ltb_ge. rewrite Z.div_div by lia.
    apply Z.div_le_lower_bound; lia. }
  assert (H4 : y / 10 / 10 / 10 < 10).
  { rewrite !Z.div_div by lia. apply Z.div_lt_upper_bound; lia. }
  cbn [decimal_go]. rewrite H1, H2, H3.
  assert (Hlast : forall f acc', decimal_go f (y / 10 / 10 / 10) acc'
                    = String (digit_char (y / 10 / 10 / 10 mod 10)) acc').
  { intros f acc'. destruct f; cbn [decimal_go]; [reflexivity|].
    apply Z.ltb_lt in H4. rewrite H4. reflexivity. }
  rewrite Hlast.
  assert (E3 : y / 10 / 10 / 10 = y / 1000)
    by (rewrite !Z.div_div by lia; reflexivity).
  assert (E2 : y / 10 / 10 = y / 100)
    by (rewrite !Z.div_div by lia; reflexivity).
  rewrite E3, E2.
  replace (y / 1000 mod 10) with (y / 1000); [reflexivity|].
  symmetry. apply Z.mod_small. split.
  - apply Z.div_pos; lia.
  - apply Z.div_lt_upper_bound; lia.
Qed.

Lemma str_of_year y : 1000 <= y <= 9999 ->
  str_of_Z y =
  String (digit_char (y / 1000)) (String (digit_char (y / 100 mod 10))
    (String (digit_char (y / 10 mod 10))
      (String (digit_char (y mod 10)) EmptyString))).
Proof.
  intros Hy. unfold str_of_Z.
  destruct (Z.ltb_spec y 0); [lia|].
  apply decimal_go_4; [|assumption].
  assert (9 <= Z.log2 y); [|lia].
  change 9 with (Z.log2 1000). apply Z.log2_le_mono. lia.
Qed.

Lemma year_re y rest : 1000 <= y <= 9999 ->
  first (directive_re dY) (str_of_Z y +:+ rest) = Some (y, rest).
Proof.
  intros Hy. rewrite (str_of_year y Hy). rewrite !append_cons, append_nil.
  assert (H3 : 0 <= y / 1000 <= 9).
  { assert (y / 1000 < 10) by (apply Z.div_lt_upper_bound; lia).
    assert (0 <= y / 1000) by (apply Z.div_pos; lia). lia. }
  assert (H2 : 0 <= y / 100 mod 10 <= 9).
  { pose proof (Z.mod_pos_bound (y / 100) 10 ltac:(lia)). lia. }
  assert (H1 : 0 <= y / 10 mod 10 <= 9).
  { pose proof (Z.mod_pos_bound (y / 10) 10 ltac:(lia)). lia. }
  assert (H0 : 0 <= y mod 10 <= 9).
  { pose proof (Z.mod_pos_bound y 10 ltac:(lia)). lia. }
  unfold first, directive_re, m_bind.
  rewrite (m_digit_any _ _ H3). cbn [flat_map app].
  rewrite (m_digit_any _ _ H2). cbn [flat_map app].
  rewrite (m_digit_any _ _ H1). cbn [flat_map app].
  rewrite (m_digit_any _ _ H0). cbn [flat_map app head].
  do 2 f_equal.
  pose proof (Z.div_mod y 10 ltac:(lia)) as E0.
  pose proof (Z.div_mod (y / 10) 10 ltac:(lia)) as E1.
  pose proof (Z.div_mod (y / 100) 10 ltac:(lia)) as E2.
  assert (Ea : y / 10 / 10 = y / 100) by (rewrite Z.div_div by lia; reflexivity).
  assert (Eb : y / 100 / 10 = y / 1000) by (rewrite Z.div_div by lia; reflexivity).
  rewrite Ea in E1. rewrite Eb in E2.
  assert (Hs : y / 1000 mod 10 = y / 1000) by (apply Z.mod_small; lia).
  lia.
Qed.

Lemma length_append (a b : string) :
  String.length (a +:+ b) = (String.length a + String.length b)%nat.
Proof.
  induction a as [|x a IH]; [reflexivity|].
  rewrite append_cons. cbn [String.length]. rewrite IH. reflexivity.
Qed.

Lemma substring_prefix (a b : string) :
  substring 0 (String.length a) (a +:+ b) = a.
Proof.
  induction a as [|x a IH].
  - destruct b; reflexivity.
  - rewrite append_cons. cbn [String.length substring]. rewrite IH. reflexivity.
Qed.

(** [s[:-6]] takes a tail of six characters off *)
Lemma drop_last6_append (s six : string) :
  String.length six = 6%nat -> drop_last6 (s +:+ six) = s.
Proof.
  intros Hsix. unfold drop_last6. rewrite length_append, Hsix.
  replace (String.length s + 6 - 6)%nat with (String.length s) by lia.
  apply substring_prefix.
Qed.

Lemma print_format_app fmt1 fmt2 f :
  print_format (fmt1 ++ fmt2) f = print_format fmt1 f +:+ print_format fmt2 f.
Proof.
  induction fmt1 as [|[d|c] fmt1 IH]; cbn [print_format List.app].
  - reflexivity.
  - rewrite IH, append_assoc. reflexivity.
  - rewrite IH, append_cons. reflexivity.
Qed.

Lemma directive_first d f rest :
  printable f ->
  first (directive_re d) (print_directive d f +:+ rest)
  = Some (get_field d f, rest).
Proof.
  intros [Hy Hm Hd HH HM HS]. destruct d; cbn [print_directive get_field].
  - apply year_re; assumption.
  - apply month_re; assumption.
  - apply day_re; assumption.
  - apply hour_re; assumption.
  - apply minute_re; assumption.
  - apply second_re; assumption.
Qed.

(** what is printed with a format is read back with it, whatever follows *)
Lemma match_print f fmt : printable f -> forall f0 rest,
  first (match_format fmt f0) (print_format fmt f +:+ rest)
  = Some (apply_format fmt f f0, rest).
Proof.
  intros Hf. induction fmt as [|[d|c] fmt IH]; intros f0 rest;
    cbn [match_format print_format apply_format].
  - reflexivity.
  - rewrite append_assoc.
    eapply first_bind; [apply directive_first; assumption | apply IH].
  - rewrite append_cons.
    eapply first_bind; [apply first_char | apply IH].
Qed.

Lemma strptime_strftime_fields f :
  printable f -> check_fields f = true -> microsecond f = 0 ->
  strptime (print_format FORMAT f) FORMAT = Ok (to_timeline f).
Proof.
  intros Hp Hc Hus. unfold strptime.
  pose proof (match_print f FORMAT Hp default_fields EmptyString) as Hfirst.
  assert (Hnil : forall s : string, s +:+ EmptyString = s).
  { induction s as [|c s IH]; [reflexivity|]. rewrite append_cons, IH. reflexivity. }
  assert (Hsame : apply_format FORMAT f default_fields = f).
  { destruct f as [y m d hh mm ss us]. simpl in Hus. subst us. reflexivity. }
  rewrite Hnil, Hsame in Hfirst. unfold first in Hfirst.
  destruct (match_format FORMAT default_fields (print_format FORMAT f))
    as [|[f' rest'] l]; [discriminate|].
  cbn [head] in Hfirst. injection Hfirst as -> ->.
  rewrite Hc. reflexivity.
Qed.

(** C10, as CPython on glibc has it. For every valid naive datetime from
    year 1000 on whose microsecond is 0, [string_to_datetime] gives back
    the datetime that [datetime_to_string] printed; [datetime_to_string]
    ends its text with [+02:00]; and [string_to_datetime] parses its
    argument without the last six characters, whatever they are. *)
Theorem conversion_roundtrip (d : Z) :
  valid d -> d mod US_PER_SECOND = 0 -> 1000 <= year (fields_of d) ->
  string_to_datetime (datetime_to_string d) = Ok d /\
  datetime_to_string d = strftime d FORMAT +:+ "+02:00" /\
  (forall s six, String.length six = 6%nat ->
     string_to_datetime (s +:+ six) = strptime s FORMAT).
Proof.
  intros Hv Hus Hy.
  destruct (fields_of_spec d Hv) as (Hrange & Hback & Hmicro).
  assert (Hprint : datetime_to_string d = strftime d FORMAT +:+ "+02:00").
  { unfold datetime_to_string, strftime. rewrite print_format_app. reflexivity. }
  assert (Hdrop : forall s six, String.length six = 6%nat ->
            string_to_datetime (s +:+ six) = strptime s FORMAT).
  { intros s six Hsix. unfold string_to_datetime.
    rewrite (drop_last6_append s six Hsix). reflexivity. }
  split; [|split; assumption].
  rewrite Hprint, (Hdrop _ "+02:00" eq_refl). unfold strftime.
  rewrite strptime_strftime_fields.
  - rewrite Hback. reflexivity.
  - destruct Hrange as [Hy' Hm Hd HH HM HS _]. constructor; try assumption.
    + lia.
    + pose proof (days_in_month_le (year (fields_of d)) (month (fields_of d))). lia.
  - apply in_range_check. assumption.
  - rewrite Hmicro. assumption.
Qed.

Lemma conversion_roundtrip_witness :
  string_to_datetime (datetime_to_string start_2019) = Ok start_2019 /\
  datetime_to_string start_2019 = strftime start_2019 FORMAT +:+ "+02:00" /\
  (forall s six, String.length six = 6%nat ->
     string_to_datetime (s +:+ six) = strptime s FORMAT).
Proof.
  apply (conversion_roundtrip start_2019).
  - unfold valid. vm_compute. split; discriminate.
  - reflexivity.
  - vm_compute. discriminate.
Defined.

Example text_2019 :
  datetime_to_string start_2019 = "2019-10-24T00:00:00+02:00".
Proof. vm_compute. reflexivity. Qed.

(** C10 as stated fails before year 1000: the year is printed on three
    digits and [%Y] reads four. *)
Lemma roundtrip_fails_year_999 :
  valid in_year_999 /\ in_year_999 mod US_PER_SECOND = 0 /\
  datetime_to_string in_year_999 = "999-01-02T03:04:05+02:00" /\
  string_to_datetime (datetime_to_string in_year_999) = Raise ValueError.
Proof.
  split; [unfold valid; vm_compute; split; discriminate|].
  repeat split; vm_compute; reflexivity.
Qed.

End DateTextFacts.

(** * Further properties of the code *)

Module MoreTransport.
Import Text Json Transport TransportSpec TransportFacts MoreSpec.
Local Open Scope nat_scope.

(** X1. A response that [request] returns is the answer of the last POST
    it issued, has status 200, and every POST before it timed out. *)
Theorem request_returns_received (net : network) (query : string)
    (k k' : nat) (r : response) :
  request net query k = Some (Ok r, k') ->
  status_code r = 200%Z /\ k < k' <= k + 10 /\
  net (k' - 1) query = Responded r /\
  timeouts net query k (k' - 1 - k).
Proof.
  intros Hreq.
  destruct (first_answer net query 10 k) as [Hall | (n & Hn & Hto & Hne)].
  - rewrite (request_exhausted net query k Hall) in Hreq. discriminate.
  - rewrite (request_answer net query k n Hn Hto) in Hreq.
    destruct (net (k + n) query) as [r'| |tag] eqn:Hk;
      [| congruence | discriminate].
    destruct (status_code r' =? 200)%Z eqn:Hs; [|discriminate].
    injection Hreq as -> <-. apply Z.eqb_eq in Hs.
    replace (S (k + n) - 1) with (k + n) by lia.
    replace (k + n - k) with n by lia.
    repeat split; try assumption; lia.
Qed.

Lemma request_returns_received_witness :
  status_code (mk_response 200 None) = 200%Z /\ 0 < 3 <= 0 + 10 /\
  flaky_200 (3 - 1) "q" = Responded (mk_response 200 None) /\
  timeouts flaky_200 "q" 0 (3 - 1 - 0).
Proof.
  apply (request_returns_received flaky_200 "q" 0 3 (mk_response 200 None)).
  vm_compute. reflexivity.
Defined.

End MoreTransport.

Section WhileRaises.
Context {S : Type} (cond : S -> bool) (body : S -> result S).
Variable Inv : S -> Prop.
Variable measure : S -> nat.
Variable e : exn.
Hypothesis step : forall s, Inv s ->
  cond s = true /\
  (body s = Raise e \/
   exists s', body s = Ok s' /\ Inv s' /\ (measure s' < measure s)%nat).

(** a loop whose test holds in every state it reaches, and in which a turn
    either raises [e] or moves on, ends by raising [e] *)
Lemma while_raises fuel s :
  Inv s -> (measure s < fuel)%nat -> while fuel cond body s = Some (Raise e).
Proof.
  revert s. induction fuel as [|fuel IH]; intros s HI Hm; [lia|].
  simpl. destruct (step s HI) as [-> [-> | (s' & -> & HI' & Hlt)]];
    [reflexivity|].
  apply IH; [assumption | lia].
Qed.
End WhileRaises.

Module MorePartition.
Import Time Partition PartitionSpec PartitionFacts MoreSpec.

(** one turn of the loop, when the whole hours from [start] reach [top],
    at or after [stop], without leaving the datetime range *)
Lemma loose_step start stop top s :
  0 <= start -> stop <= top -> (top - start) mod US_PER_HOUR = 0 ->
  top <= datetime_max ->
  loose_invariant start stop s -> (t s <? stop) = true ->
  exists s', body s = Ok s' /\ loose_invariant start stop s' /\
             (turns_left stop s' < turns_left stop s)%nat.
Proof.
  assert (HH : US_PER_HOUR = 3600000000) by reflexivity.
  intros Hstart Htop Htopal Hmax [Hpos Hcnt Hcal Hfrom Hnear Hch Hfull Hfirst] Hlt.
  apply Z.ltb_lt in Hlt.
  assert (Hge : start <= start_step s).
  { apply chain_total_span in Hch.
    assert (0 <= total_span (divisions s)); [|lia].
    clear -Hfull. induction Hfull as [|w ws Hw _ IH]; unfold total_span in *;
      simpl; [lia|]. rewrite Hw. unfold query_hour_limit, hours, US_PER_HOUR, US_PER_SECOND. lia. }
  assert (Hdt : dt = US_PER_HOUR) by (unfold dt, hours; lia).
  assert (Hlim99 : query_hour_limit = 99 * US_PER_HOUR) by reflexivity.
  assert (Hnext : t s + US_PER_HOUR <= top).
  { apply aligned_gap; [lia|].
    replace (top - t s) with ((top - start) - (t s - start)) by lia.
    rewrite Zminus_mod, Htopal, Hfrom. reflexivity. }
  assert (Hadd : datetime_add (t s) dt = Ok (t s + US_PER_HOUR)).
  { unfold datetime_add. rewrite Hdt. cbv zeta.
    assert (0 <= t s + US_PER_HOUR <= datetime_max) as [H1 H2] by lia.
    apply Z.leb_le in H1, H2. rewrite H1, H2. reflexivity. }
  assert (Hmeasure :
            (Z.to_nat ((stop - (t s + US_PER_HOUR) + US_PER_HOUR - 1) / US_PER_HOUR)
             < Z.to_nat ((stop - t s + US_PER_HOUR - 1) / US_PER_HOUR))%nat).
  { replace (stop - t s + US_PER_HOUR - 1)
      with ((stop - (t s + US_PER_HOUR) + US_PER_HOUR - 1) + 1 * US_PER_HOUR) by lia.
    rewrite Z.div_add by lia.
    assert (0 <= (stop - (t s + US_PER_HOUR) + US_PER_HOUR - 1) / US_PER_HOUR)
      by (apply Z.div_pos; lia).
    lia. }
  assert (Hfrom' : (t s + US_PER_HOUR - start) mod US_PER_HOUR = 0).
  { replace (t s + US_PER_HOUR - start) with ((t s - start) + 1 * US_PER_HOUR) by lia.
    rewrite Z.mod_add by lia. assumption. }
  unfold body. destruct (query_hour_limit <=? t_count s) eqn:Hlim.
  - apply Z.leb_le in Hlim. cbn [t start_step t_count divisions].
    rewrite Hadd. cbn [rbind].
    eexists. split; [reflexivity|]. split; [|exact Hmeasure].
    constructor; cbn [t start_step t_count divisions]; try assumption; try lia.
    + rewrite Hdt. apply Z.mod_same. lia.
    + apply chain_app with (b := start_step s); [assumption|]. simpl. auto.
    + apply Forall_app. split; [assumption|]. constructor; [|constructor].
      unfold span. simpl. lia.
  - apply Z.leb_gt in Hlim. rewrite Hadd. cbn [rbind].
    eexists. split; [reflexivity|]. split; [|exact Hmeasure].
    constructor; cbn [t start_step t_count divisions]; try assumption; try lia.
    + pose proof (Z.div_mod (t_count s) US_PER_HOUR ltac:(lia)) as Hdm.
      rewrite Hcal in Hdm. lia.
    + rewrite Hdt. rewrite <- Zplus_mod_idemp_r.
      rewrite Z.mod_same by lia. rewrite Z.add_0_r. assumption.
Qed.

(** the turn that starts on the last whole hour of the datetime range
    raises, whichever branch of the test on the counter it takes *)
Lemma body_overflow s :
  datetime_max < t s + US_PER_HOUR -> body s = Raise OverflowError.
Proof.
  intros Hover.
  assert (Hadd : datetime_add (t s) dt = Raise OverflowError).
  { unfold datetime_add, dt, hours. cbv zeta.
    replace (t s + 1 * US_PER_HOUR) with (t s + US_PER_HOUR) by lia.
    apply Z.leb_gt in Hover. rewrite Hover, andb_false_r. reflexivity. }
  unfold body. destruct (query_hour_limit <=? t_count s);
    cbn [t start_step t_count divisions]; rewrite Hadd; reflexivity.
Qed.

(** while the loop is short of the whole hour [p], the last one it can
    start a turn on, [t] is at most [p] *)
Lemma loose_before start p s :
  start <= p -> (p - start) mod US_PER_HOUR = 0 ->
  loose_invariant start p s -> t s <= p.
Proof.
  assert (HH : US_PER_HOUR = 3600000000) by reflexivity.
  intros Hle Hal [_ _ _ Hfrom Hnear _ _ _].
  destruct Hnear as [-> | Hnear]; [assumption|].
  destruct (Z_le_gt_dec (t s) p) as [H|H]; [assumption|exfalso].
  assert (Hm : (t s - p) mod US_PER_HOUR = 0).
  { replace (t s - p) with ((t s - start) - (p - start)) by lia.
    rewrite Zminus_mod, Hfrom, Hal. reflexivity. }
  rewrite Z.mod_small in Hm by lia. lia.
Qed.

Lemma full_windows_span ws :
  Forall (fun w => span w = query_hour_limit) ws ->
  total_span ws = query_hour_limit * Z.of_nat (length ws).
Proof.
  induction 1 as [|w ws Hw _ IH]; unfold total_span in *; simpl fold_right.
  - simpl. lia.
  - rewrite IH, Hw. simpl length. lia.
Qed.

(** X2. For any valid [start <= stop], on the hour or not, the partition
    loop ends.  Let [stop'] be the first instant at or after [stop] that is
    a whole number of hours after [start] (less than an hour after [stop]).
    When [stop'] is still a datetime, the loop leaves windows that follow
    one another from [start] to [stop']; every window but the last spans
    exactly 99 hours, the last one between 1 and 99 hours, and there are as
    many windows as the hours from [start] to [stop'] divided by 99, rounded
    up.  When [stop'] is past [datetime.max] (which takes a [stop] in the
    last hour of year 9999), [t += dt] raises [OverflowError] and no window
    list is produced. *)
Theorem partition_any_range (fuel : nat) (start stop : Z) :
  valid start -> valid stop -> start <= stop ->
  (Z.to_nat ((stop - start + US_PER_HOUR - 1) / US_PER_HOUR) < fuel)%nat ->
  exists stop',
    stop <= stop' < stop + US_PER_HOUR /\
    (stop' - start) mod US_PER_HOUR = 0 /\
    (stop' <= datetime_max ->
     exists ws,
       compute_divisions fuel start stop = Some (Ok ws) /\
       chain start stop' ws /\
       Forall (fun w => span w = hours 99) (removelast ws) /\
       Forall (fun w => hours 1 <= span w <= hours 99) ws /\
       Z.of_nat (length ws) = ((stop' - start) / US_PER_HOUR + 98) / 99) /\
    (datetime_max < stop' ->
     compute_divisions fuel start stop = Some (Raise OverflowError)).
Proof.
  assert (HH : US_PER_HOUR = 3600000000) by reflexivity.
  assert (Hlim99 : query_hour_limit = 99 * US_PER_HOUR) by reflexivity.
  intros [Hstart _] [_ Hstopmax] Hle Hfuel.
  pose proof (Z.div_mod (stop - start + US_PER_HOUR - 1) US_PER_HOUR ltac:(lia))
    as Hceil.
  pose proof (Z.mod_pos_bound (stop - start + US_PER_HOUR - 1) US_PER_HOUR
                ltac:(lia)) as Hrem.
  set (n := (stop - start + US_PER_HOUR - 1) / US_PER_HOUR) in *.
  assert (Hn : 0 <= n) by (apply Z.div_pos; lia).
  exists (start + n * US_PER_HOUR).
  assert (Htopal : (start + n * US_PER_HOUR - start) mod US_PER_HOUR = 0).
  { replace (start + n * US_PER_HOUR - start) with (n * US_PER_HOUR) by lia.
    apply Z.mod_mul. lia. }
  split; [lia|]. split; [exact Htopal|]. split.
  - intros Hmax.
    assert (Hinit : loose_invariant start stop (init start)).
    { constructor; simpl; try lia; auto.
      rewrite Z.sub_diag. reflexivity. }
    destruct (while_terminates (fun s => t s <? stop) body
                (loose_invariant start stop) (turns_left stop)
                (fun s HI Hc =>
                   loose_step start stop (start + n * US_PER_HOUR) s Hstart
                     ltac:(lia) Htopal Hmax HI Hc)
                fuel (init start) Hinit Hfuel)
      as (s & Hrun & [Hpos Hcnt Hcal Hfrom Hnear Hch Hfull Hfirst] & Hexit).
    apply Z.ltb_ge in Hexit.
    unfold compute_divisions. rewrite Hrun.
    pose proof (chain_total_span _ _ _ Hch) as Htot.
    rewrite (full_windows_span _ Hfull) in Htot.
    pose proof (Z.div_mod (t_count s) US_PER_HOUR ltac:(lia)) as Hdm.
    rewrite Hcal, Z.add_0_r in Hdm.
    set (c := t_count s / US_PER_HOUR) in *.
    set (L := Z.of_nat (length (divisions s))) in *.
    (* the loop stops on the first whole hour at or after [stop] *)
    assert (Hend : t s = start + n * US_PER_HOUR).
    { assert (Hts : t s = start + (99 * L + c) * US_PER_HOUR) by lia.
      assert (Hlt : t s < stop + US_PER_HOUR) by lia.
      assert (99 * L + c = n); [|lia].
      rewrite Hts in Hexit, Hlt. nia. }
    rewrite <- Hend.
    assert (Hhours : (t s - start) / US_PER_HOUR = 99 * L + c).
    { replace (t s - start) with ((99 * L + c) * US_PER_HOUR) by lia.
      apply Z.div_mul. lia. }
    assert (Hfull' : Forall (fun w => hours 1 <= span w <= hours 99) (divisions s)).
    { eapply Forall_impl; [exact Hfull|]. intros w Hw. simpl in Hw. rewrite Hw.
      unfold hours. lia. }
    exists (if decide (start_step s = t s) then divisions s
            else divisions s ++ [(start_step s, t s)]).
    split; [reflexivity|].
    destruct (decide (start_step s = t s)) as [Heq|Hne].
    + assert (Hz : t_count s = 0) by lia.
      specialize (Hfirst Hz). rewrite Hfirst in *. simpl in Hch, L.
      assert (HL : L = 0) by (unfold L; rewrite Hfirst; reflexivity).
      assert (Hc0 : c = 0) by lia.
      repeat split; try assumption; try lia; try constructor.
      * simpl. lia.
      * rewrite Hhours, HL, Hc0. reflexivity.
    + assert (Hc : 1 <= c <= 99) by lia.
      repeat split; try assumption; try lia.
      * apply chain_app with (b := start_step s); [assumption|]. simpl. auto.
      * rewrite removelast_last. exact Hfull.
      * apply Forall_app. split; [assumption|]. constructor; [|constructor].
        unfold span, hours. simpl. lia.
      * rewrite length_app, Hhours. simpl length.
        replace (Z.of_nat (length (divisions s) + 1)) with (L + 1) by (unfold L; lia).
        apply Z.div_unique_pos with (r := c - 1); lia.
  - intros Hover.
    set (p := start + n * US_PER_HOUR - US_PER_HOUR).
    assert (Hn1 : 1 <= n) by nia.
    assert (Hp : start <= p) by (unfold p; nia).
    assert (Hpal : (p - start) mod US_PER_HOUR = 0).
    { replace (p - start) with ((n - 1) * US_PER_HOUR) by (unfold p; lia).
      apply Z.mod_mul. lia. }
    assert (Hpstop : p < stop) by (unfold p; lia).
    assert (Hinit : loose_invariant start p (init start)).
    { constructor; simpl; try lia; auto.
      rewrite Z.sub_diag. reflexivity. }
    assert (Hm : (turns_left p (init start) < fuel)%nat).
    { unfold turns_left. cbn [init t].
      assert ((p - start + US_PER_HOUR - 1) / US_PER_HOUR <= n); [|lia].
      apply Z.div_le_mono; lia. }
    unfold compute_divisions.
    rewrite (while_raises (fun s => t s <? stop) body
               (loose_invariant start p) (turns_left p) OverflowError)
      with (s := init start); [reflexivity| |assumption|assumption].
    intros s HI. pose proof (loose_before start p s Hp Hpal HI) as Hbefore.
    split; [apply Z.ltb_lt; lia|].
    destruct (Z_lt_le_dec (t s) p) as [Hlt|Hge].
    + right. apply (loose_step start p p s); try assumption; lia.
    + left. apply body_overflow. unfold p in *. lia.
Qed.

(** 150 hours and one microsecond: the second window runs to hour 151 *)
Lemma partition_any_range_witness :
  exists stop',
    hours 150 + 1 <= stop' < hours 150 + 1 + US_PER_HOUR /\
    (stop' - 0) mod US_PER_HOUR = 0 /\
    (stop' <= datetime_max ->
     exists ws,
       compute_divisions 200 0 (hours 150 + 1) = Some (Ok ws) /\
       chain 0 stop' ws /\
       Forall (fun w => span w = hours 99) (removelast ws) /\
       Forall (fun w => hours 1 <= span w <= hours 99) ws /\
       Z.of_nat (length ws) = ((stop' - 0) / US_PER_HOUR + 98) / 99) /\
    (datetime_max < stop' ->
     compute_divisions 200 0 (hours 150 + 1) = Some (Raise OverflowError)).
Proof.
  apply (partition_any_range 200 0 (hours 150 + 1)).
  - unfold valid. vm_compute. split; discriminate.
  - unfold valid. vm_compute. split; discriminate.
  - vm_compute. discriminate.
  - vm_compute. lia.
Defined.

Example divisions_overshoot :
  compute_divisions 200 0 (hours 150 + 1)
  = Some (Ok [(0, hours 99); (hours 99, hours 151)]).
Proof. vm_compute. reflexivity. Qed.

(** the last half hour of year 9999: both instants are datetimes, the
    turn that would move [t] to the year 10000 raises *)
Example divisions_last_hour :
  valid (datetime_max - 1800000000) /\ valid datetime_max /\
  compute_divisions 5 (datetime_max - 1800000000) datetime_max
  = Some (Raise OverflowError).
Proof.
  unfold valid. vm_compute. repeat split; discriminate.
Qed.

(** on the hour, the last window of the range may end with the last whole
    hour of year 9999 *)
Example divisions_to_last_hour :
  compute_divisions 5 (floor_hour datetime_max - hours 2) (floor_hour datetime_max)
  = Some (Ok [(floor_hour datetime_max - hours 2, floor_hour datetime_max)]).
Proof. vm_compute. reflexivity. Qed.

End MorePartition.

Module MoreFetch.
Import Time Text Conversions Json Transport Query Partition Fetch Aggregate.
Import TransportSpec TransportFacts FetchSpec FetchFacts AggregateSpec MoreSpec.
Local Open Scope nat_scope.

Lemma request_total net query k :
  exists res k', request net query k = Some (res, k') /\ k < k' <= k + 10.
Proof.
  destruct (first_answer net query 10 k) as [Hall | (n & Hn & Hto & Hne)].
  - eexists _, _. split; [apply request_exhausted; assumption | lia].
  - pose proof (request_answer net query k n Hn Hto) as Hreq.
    destruct (net (k + n) query) as [r| |tag]; [| congruence |];
      eexists _, _; (split; [exact Hreq | lia]).
Qed.

Lemma for_points_count net start_str stop_str pts : forall series k,
  exists res k',
    for_points net start_str stop_str pts series k = Some (res, k') /\
    k' <= k + 10 * length pts /\
    (forall series', res = Ok series' -> k + length pts <= k').
Proof.
  induction pts as [|i pts IH]; intros series k.
  - exists (Ok series), k. split; [reflexivity|]. split; [simpl; lia|].
    intros _ _. simpl. lia.
  - cbn [for_points]. unfold io_bind at 1.
    destruct (request_total net (volume_query i start_str stop_str) k)
      as (res & k1 & Hreq & Hk1).
    rewrite Hreq. destruct res as [r|e].
    + unfold io_bind at 1, io_lift.
      destruct (accumulate series i r) as [series1|e].
      * destruct (IH series1 k1) as (res & k' & Hrun & Hub & Hlb).
        exists res, k'. split; [exact Hrun|]. cbn [length]. split; [lia|].
        intros series' Hres. specialize (Hlb series' Hres). lia.
      * eexists _, _. split; [reflexivity|]. cbn [length]. split; [lia|].
        intros series' [=].
    + eexists _, _. split; [reflexivity|]. cbn [length]. split; [lia|].
      intros series' [=].
Qed.

Lemma for_divisions_count net pts ds : forall series k,
  exists res k',
    for_divisions net pts ds series k = Some (res, k') /\
    k' <= k + 10 * (length pts * length ds) /\
    (forall series', res = Ok series' -> k + length pts * length ds <= k').
Proof.
  induction ds as [|[s e] ds IH]; intros series k.
  - exists (Ok series), k. split; [reflexivity|]. split; [lia|].
    intros _ _. simpl. lia.
  - cbn [for_divisions]. unfold io_bind at 1.
    destruct (for_points_count net (datetime_to_string s) (datetime_to_string e)
                pts series k) as (res & k1 & Hpts & Hub1 & Hlb1).
    rewrite Hpts. destruct res as [series1|ex].
    + destruct (IH series1 k1) as (res & k' & Hrun & Hub & Hlb).
      exists res, k'. split; [exact Hrun|]. cbn [length].
      specialize (Hlb1 series1 eq_refl). split; [lia|].
      intros series' Hres. specialize (Hlb series' Hres). lia.
    + eexists _, _. split; [reflexivity|]. cbn [length]. split; [lia|].
      intros series' [=].
Qed.

(** X4. Once the windows are computed, [query_traffic_volume_by_hour]
    ends, by a return or by an exception, after at most ten POSTs for each
    pair of a window and a sensor; when it returns, it has issued at least
    one POST for each pair. *)
Theorem fetch_post_count (net : network) (fuel : nat) (points : list string)
    (start stop : Z) (windows : list (Z * Z)) (k : nat) :
  compute_divisions fuel start stop = Some (Ok windows) ->
  exists res k',
    query_traffic_volume_by_hour net fuel points start stop k = Some (res, k') /\
    k' <= k + 10 * (length points * length windows) /\
    (forall series, res = Ok series ->
       k + length points * length windows <= k').
Proof.
  intros Hdiv. unfold query_traffic_volume_by_hour, io_bind, io_fuel.
  rewrite Hdiv. apply for_divisions_count.
Qed.

Lemma fetch_post_count_witness :
  exists res k',
    query_traffic_volume_by_hour (prompt one_record_service) 200 ["A"; "B"]
      0%Z (hours 150) 0 = Some (res, k') /\
    k' <= 0 + 10 * (length ["A"; "B"]
                    * length [(0%Z, hours 99); (hours 99, hours 150)]) /\
    (forall series, res = Ok series ->
       0 + length ["A"; "B"]
           * length [(0%Z, hours 99); (hours 99, hours 150)] <= k').
Proof.
  apply (fetch_post_count (prompt one_record_service) 200 ["A"; "B"]
           0%Z (hours 150) [(0%Z, hours 99); (hours 99, hours 150)] 0).
  vm_compute. reflexivity.
Defined.

Lemma for_sensors_empty (points : list point) s :
  for_sensors points ∅ s = Ok s.
Proof.
  induction points as [|i rest IH]; [reflexivity|].
  cbn [for_sensors]. rewrite lookup_empty. cbn [rbind]. exact IH.
Qed.

(** X3. When [stop] is not after [start], [query_traffic_volume_by_hour]
    returns an empty series without a single POST; and when the two
    instants given to [get_traffic_volume_by_hour] fall in the same hour,
    or the second in an earlier hour, it returns an empty aggregate and the
    maximum 0, again without a POST. *)
Theorem nothing_to_fetch (net : network) (fuel : nat) (k : nat) :
  0 < fuel ->
  (forall points start stop, (stop <= start)%Z ->
     query_traffic_volume_by_hour net fuel points start stop k
     = Some (Ok ∅, k)) /\
  (forall points start stop, (floor_hour stop <= floor_hour start)%Z ->
     get_traffic_volume_by_hour net fuel points start stop k
     = Some (Ok (∅, JInt 0), k)).
Proof.
  intros Hfuel. destruct fuel as [|fuel]; [lia|].
  assert (Hq : forall points start stop, (stop <= start)%Z ->
            query_traffic_volume_by_hour net (S fuel) points start stop k
            = Some (Ok ∅, k)).
  { intros points start stop Hle.
    unfold query_traffic_volume_by_hour, io_bind, io_fuel, compute_divisions.
    cbn [while]. unfold init. cbn [Partition.t].
    destruct (Z.ltb_spec start stop) as [Hlt|_]; [lia|].
    cbn [Partition.start_step Partition.t Partition.divisions].
    destruct (decide (start = start)) as [_|Hne]; [reflexivity | congruence]. }
  split; [exact Hq|].
  intros points start stop Hle.
  unfold get_traffic_volume_by_hour, io_bind.
  rewrite (Hq _ _ _ Hle). unfold io_fuel, sort_by_hour, make_grid.
  cbn [while fst].
  destruct (Z.ltb_spec (floor_hour start) (floor_hour stop)) as [Hlt|_]; [lia|].
  cbn [snd]. rewrite for_sensors_empty. reflexivity.
Qed.

(** 00:20 and 00:50 of the same day *)
Lemma nothing_to_fetch_witness :
  (forall points start stop, (stop <= start)%Z ->
     query_traffic_volume_by_hour flaky_200 5 points start stop 0
     = Some (Ok ∅, 0)) /\
  (forall points start stop, (floor_hour stop <= floor_hour start)%Z ->
     get_traffic_volume_by_hour flaky_200 5 points start stop 0
     = Some (Ok (∅, JInt 0), 0)).
Proof. apply (nothing_to_fetch flaky_200 5 0). lia. Defined.

Lemma make_elements_app l1 : forall l2 acc,
  make_elements (l1 ++ l2) acc
  = (acc' <-! make_elements l1 acc; make_elements l2 acc').
Proof.
  induction l1 as [|j l1 IH]; intros l2 acc; [reflexivity|].
  cbn [make_elements List.app].
  destruct (make_element j) as [el|e]; cbn [rbind]; [apply IH | reflexivity].
Qed.

(** X5. In a response whose edges are a list, the first edge on which
    building the record raises decides for the whole response: if it raises
    [TypeError] the response is skipped and the records of the edges before
    it are dropped with it; any other exception is raised and ends the
    fetch. *)
Theorem first_failing_edge (series : gmap string (list element)) (i : string)
    (before after : list json) (j : json) (records : list element) (e : exn) :
  make_elements before [] = Ok records ->
  make_element j = Raise e ->
  accumulate series i
    (ok_response (payload_json (JArr (before ++ j :: after))))
  = match e with
    | TypeError => Ok series
    | _ => Raise e
    end.
Proof.
  intros Hbefore Hj.
  assert (Htry : try_body (ok_response (payload_json (JArr (before ++ j :: after))))
                 = Raise e).
  { unfold try_body, ok_response, payload_json. cbn -[make_elements].
    rewrite make_elements_app, Hbefore. cbn [rbind make_elements].
    rewrite Hj. reflexivity. }
  unfold accumulate. rewrite Htry. destruct e; reflexivity.
Qed.

Lemma first_failing_edge_witness :
  accumulate {["A" := []]} "A"
    (ok_response (payload_json (JArr ([good_edge] ++ garbled_edge :: []))))
  = match ValueError with
    | TypeError => Ok {["A" := []]}
    | _ => Raise ValueError
    end.
Proof.
  apply (first_failing_edge {["A" := []]} "A" [good_edge] [] garbled_edge
           [mk_element 63707472000000000 63707475600000000 (JInt 5) (JInt 100)]
           ValueError).
  - vm_compute. reflexivity.
  - vm_compute. reflexivity.
Defined.

(** an hour without data after an hour with data: the data is dropped too *)
Example no_data_edge_skips :
  accumulate ∅ "A" (ok_response (payload_json (JArr [good_edge; no_data_edge])))
  = Ok ∅.
Proof. vm_compute. reflexivity. Qed.

Lemma request_prompt srv query k :
  status_code (srv query) = 200%Z ->
  request (prompt srv) query k = Some (Ok (srv query), S k).
Proof.
  intros Hs.
  rewrite (request_answer (prompt srv) query k 0) by (lia || intros j Hj; lia).
  unfold prompt. rewrite Hs, Nat.add_0_r. reflexivity.
Qed.

Lemma accumulate_passable series i r :
  passable r ->
  exists series',
    accumulate series i r = Ok series' /\
    forall id, records_of series' id
               = records_of series id
                 ++ (if String.eqb i id then contribution r else []).
Proof.
  intros [_ [[l Hl] | Hskip]].
  - rewrite (accumulate_ok series i r l Hl). eexists. split; [reflexivity|].
    intros id. unfold records_of, contribution. rewrite Hl.
    destruct (String.eqb_spec i id) as [->|Hne].
    + rewrite lookup_insert_eq. reflexivity.
    + rewrite lookup_insert_ne by assumption. rewrite app_nil_r. reflexivity.
  - rewrite (accumulate_skip series i r Hskip). exists series.
    split; [reflexivity|]. intros id. unfold contribution. rewrite Hskip.
    destruct (String.eqb i id); rewrite app_nil_r; reflexivity.
Qed.

Lemma for_points_prompt srv start_str stop_str pts :
  (forall query, passable (srv query)) ->
  forall series k,
  exists series',
    for_points (prompt srv) start_str stop_str pts series k
      = Some (Ok series', k + length pts) /\
    forall id, records_of series' id
               = records_of series id
                 ++ flat_map (fun i =>
                      if String.eqb i id
                      then contribution (srv (volume_query i start_str stop_str))
                      else []) pts.
Proof.
  intros Hsrv. induction pts as [|i pts IH]; intros series k.
  - exists series. split.
    + cbn [for_points length]. unfold io_ret. rewrite Nat.add_0_r. reflexivity.
    + intros id. cbn [flat_map]. rewrite app_nil_r. reflexivity.
  - cbn [for_points]. unfold io_bind at 1.
    rewrite (request_prompt srv _ k (proj1 (Hsrv _))).
    destruct (accumulate_passable series i _ (Hsrv (volume_query i start_str stop_str)))
      as (series1 & Hacc & Hrec1).
    unfold io_bind at 1, io_lift. rewrite Hacc.
    destruct (IH series1 (S k)) as (series' & Hrun & Hrec).
    exists series'. split.
    + rewrite Hrun. cbn [length]. do 2 f_equal. lia.
    + intros id. rewrite Hrec, Hrec1. cbn [flat_map].
      rewrite <- app_assoc. reflexivity.
Qed.

Lemma for_divisions_prompt srv pts ds :
  (forall query, passable (srv query)) ->
  forall series k,
  exists series',
    for_divisions (prompt srv) pts ds series k
      = Some (Ok series', k + length pts * length ds) /\
    forall id, records_of series' id
               = records_of series id ++ expected_records srv pts ds id.
Proof.
  intros Hsrv. induction ds as [|[s e] ds IH]; intros series k.
  - exists series. split.
    + cbn [for_divisions length]. unfold io_ret.
      rewrite Nat.mul_0_r, Nat.add_0_r. reflexivity.
    + intros id. unfold expected_records. cbn [flat_map].
      rewrite app_nil_r. reflexivity.
  - cbn [for_divisions]. unfold io_bind at 1.
    destruct (for_points_prompt srv (datetime_to_string s) (datetime_to_string e)
                pts Hsrv series k) as (series1 & Hpts & Hrec1).
    rewrite Hpts.
    destruct (IH series1 (k + length pts)) as (series' & Hrun & Hrec).
    exists series'. split.
    + rewrite Hrun. cbn [length]. do 2 f_equal. lia.
    + intros id. rewrite Hrec, Hrec1. unfold expected_records.
      cbn [flat_map]. rewrite <- app_assoc. reflexivity.
Qed.

(** X6. With a service that answers every POST at once, with status 200
    and a payload the [try] body accepts or skips,
    [query_traffic_volume_by_hour] issues exactly one POST for each pair of
    a window and a sensor, and the records of a sensor in the series it
    returns are those of the responses for that sensor, in the order of the
    windows (a sensor listed twice is asked and recorded twice). *)
Theorem fetch_from_prompt_service (srv : string -> response) (fuel : nat)
    (points : list string) (start stop : Z) (windows : list (Z * Z))
    (k : nat) :
  compute_divisions fuel start stop = Some (Ok windows) ->
  (forall query, passable (srv query)) ->
  exists series,
    query_traffic_volume_by_hour (prompt srv) fuel points start stop k
      = Some (Ok series, k + length points * length windows) /\
    forall id, records_of series id = expected_records srv points windows id.
Proof.
  intros Hdiv Hsrv. unfold query_traffic_volume_by_hour, io_bind, io_fuel.
  rewrite Hdiv.
  destruct (for_divisions_prompt srv points windows Hsrv ∅ k)
    as (series & Hrun & Hrec).
  exists series. split; [exact Hrun|].
  intros id. rewrite Hrec. unfold records_of at 1. rewrite lookup_empty.
  reflexivity.
Qed.

Lemma fetch_from_prompt_service_witness :
  exists series,
    query_traffic_volume_by_hour (prompt one_record_service) 200 ["A"; "B"]
      0%Z (hours 150) 0
      = Some (Ok series,
              0 + length ["A"; "B"]
                  * length [(0%Z, hours 99); (hours 99, hours 150)]) /\
    forall id, records_of series id
               = expected_records one_record_service ["A"; "B"]
                   [(0%Z, hours 99); (hours 99, hours 150)] id.
Proof.
  apply (fetch_from_prompt_service one_record_service 200 ["A"; "B"]
           0%Z (hours 150) [(0%Z, hours 99); (hours 99, hours 150)] 0).
  - vm_compute. reflexivity.
  - intros query. split; [reflexivity|]. left. eexists. vm_compute. reflexivity.
Defined.

End MoreFetch.

Section WhilePartial.
Context {S : Type} (cond : S -> bool) (body : S -> result S).
Variable Inv : S -> Prop.
Hypothesis keep : forall s s', Inv s -> cond s = true -> body s = Ok s' -> Inv s'.

(** a loop that is left normally is left with its invariant *)
Lemma while_partial fuel : forall s s',
  Inv s -> while fuel cond body s = Some (Ok s') -> Inv s' /\ cond s' = false.
Proof.
  induction fuel as [|fuel IH]; intros s s' HI; [discriminate|].
  simpl. destruct (cond s) eqn:Hc.
  - destruct (body s) as [s1|e] eqn:Hb; [|discriminate].
    apply IH. eapply keep; eassumption.
  - intros [= <-]. auto.
Qed.
End WhilePartial.

Module MoreAggregate.
Import Time Json Transport Fetch Aggregate.
Import AggregateSpec AggregateFacts MoreSpec.

Lemma grid_cells_empty fuel start stop grid :
  make_grid fuel start stop = Some (Ok grid) ->
  forall h sensor, cell_at grid h sensor = None.
Proof.
  unfold make_grid.
  destruct (while fuel (fun s => fst s <? stop) grid_body (start, ∅))
    as [[s|e]|] eqn:Hrun; try discriminate.
  intros [= <-].
  destruct (while_partial (fun s => fst s <? stop) grid_body
              (fun s => forall h sensor, cell_at (snd s) h sensor = None))
    with (fuel := fuel) (s := (start, ∅ : gmap Z (gmap string cell))) (s' := s)
    as [Hinv _].
  - intros [t sorted] s' Hinv _. unfold grid_body.
    destruct (datetime_add t dt) as [t'|e]; [|discriminate].
    cbn [rbind]. intros [= <-]. cbn [snd] in *.
    intros h sensor. unfold cell_at.
    destruct (decide (t = h)) as [->|Hne].
    + rewrite lookup_insert_eq. apply lookup_empty.
    + rewrite lookup_insert_ne by assumption. apply Hinv.
  - intros h sensor. unfold cell_at. cbn [snd]. rewrite lookup_empty. reflexivity.
  - exact Hrun.
  - exact Hinv.
Qed.

Lemma insert_record_cells i j sorted m sorted' m' :
  insert_record i j (sorted, m) = Ok (sorted', m') ->
  forall h sensor,
    cell_at sorted' h sensor =
    if (start j =? h) && String.eqb (id i) sensor
    then Some (mk_cell (volume j) (lat i) (lon i))
    else cell_at sorted h sensor.
Proof.
  unfold insert_record.
  destruct (sorted !! start j) as [inner|] eqn:Hj; [|discriminate].
  cbn -[py_max]. destruct (py_max m (volume j)) as [m1|e]; [|discriminate].
  cbn. intros [= <- <-] h sensor. unfold cell_at.
  destruct (Z.eqb_spec (start j) h) as [<-|Hne]; cbn [andb].
  - rewrite lookup_insert_eq, Hj.
    destruct (String.eqb_spec (id i) sensor) as [<-|Hne].
    + apply lookup_insert_eq.
    + apply lookup_insert_ne. assumption.
  - rewrite lookup_insert_ne by assumption. reflexivity.
Qed.

Lemma insert_all_cells l : forall sorted m sorted' m',
  insert_all l (sorted, m) = Ok (sorted', m') ->
  forall h sensor,
    cell_at sorted' h sensor =
    match last_cell h sensor l with
    | Some c => Some c
    | None => cell_at sorted h sensor
    end.
Proof.
  induction l as [|[i j] l IH]; intros sorted m sorted' m'.
  - simpl. intros [= <- <-]. reflexivity.
  - cbn [insert_all].
    destruct (insert_record i j (sorted, m)) as [[sorted1 m1]|e] eqn:H1;
      [|discriminate].
    cbn [rbind]. intros Hrest h sensor.
    rewrite (IH _ _ _ _ Hrest h sensor). cbn [last_cell].
    destruct (last_cell h sensor l) as [c|]; [reflexivity|].
    rewrite (insert_record_cells _ _ _ _ _ _ H1 h sensor).
    destruct ((start j =? h) && String.eqb (id i) sensor); reflexivity.
Qed.

(** X7. In the aggregate that lines 261-281 return, the cell of an hour and
    a sensor id is the one of the last record for that hour among the
    records of the listed sensors with that id, with the coordinates of the
    listed sensor it was read for; there is no cell where there is no such
    record (the last write wins, nothing else is written). *)
Theorem aggregate_cells (fuel : nat) (points : list point)
    (series : gmap string (list element)) (start stop : Z)
    (agg : gmap Z (gmap string cell)) (m : json) :
  sort_by_hour fuel points series start stop = Some (Ok (agg, m)) ->
  forall h sensor,
    cell_at agg h sensor = last_cell h sensor (processed points series).
Proof.
  unfold sort_by_hour.
  destruct (make_grid fuel start stop) as [[grid|e]|] eqn:Hgrid; try discriminate.
  rewrite for_sensors_processed. intros [= Hrun] h sensor.
  rewrite (insert_all_cells _ _ _ _ _ Hrun h sensor).
  rewrite (grid_cells_empty _ _ _ _ Hgrid h sensor).
  destruct (last_cell h sensor (processed points series)); reflexivity.
Qed.

Lemma aggregate_cells_witness :
  cell_at aggregate_twice hour0 "A"
  = last_cell hour0 "A" (processed [point_A; point_B] series_twice).
Proof.
  apply (aggregate_cells 5 [point_A; point_B] series_twice hour0 hour2
           aggregate_twice (JInt 10)).
  vm_compute. reflexivity.
Defined.

Example overwritten_cell :
  cell_at aggregate_twice hour0 "A" = Some (mk_cell (JInt 9) (JInt 10) (JInt 10)).
Proof. vm_compute. reflexivity. Qed.

(** X8. The first record that cannot be inserted decides how lines 261-281
    end: a record whose hour is not on the grid raises [KeyError] for that
    hour (the grid never grows), and a record on the grid whose volume is
    not a number ([None], say) raises [TypeError]; the records before it
    being on the grid and of integer volume. *)
Theorem first_bad_record (fuel : nat) (points : list point)
    (series : gmap string (list element)) (start stop : Z)
    (before after : list (point * element)) (i : point) (j : element) :
  valid start -> valid stop -> hour_aligned start -> hour_aligned stop ->
  (Z.to_nat ((stop - start) / US_PER_HOUR) < fuel)%nat ->
  processed points series = before ++ (i, j) :: after ->
  Forall (fun p => on_grid start stop (Fetch.start (snd p))) before ->
  Forall (fun p => int_volume (snd p)) before ->
  (~ on_grid start stop (Fetch.start j) ->
   sort_by_hour fuel points series start stop
   = Some (Raise (KeyError (KTime (Fetch.start j))))) /\
  (on_grid start stop (Fetch.start j) -> number (volume j) = None ->
   sort_by_hour fuel points series start stop = Some (Raise TypeError)).
Proof.
  intros Hvs Hvt Has Hat Hfuel Hproc Hrange Hvol.
  destruct (make_grid_spec fuel start stop Hvs Hvt Has Hat Hfuel)
    as (grid & Hgrid & Hkeys & Hempty).
  destruct (insert_all_int before grid 0) as (sorted & Hrun & Hsame).
  { eapply Forall_impl; [exact Hrange|]. intros p Hp. simpl in Hp.
    apply Hkeys. assumption. }
  { assumption. }
  unfold sort_by_hour.
  rewrite Hgrid, for_sensors_processed, Hproc, insert_all_app, Hrun.
  cbn [rbind insert_all]. unfold insert_record. split.
  - intros Hoff. destruct (sorted !! Fetch.start j) as [inner|] eqn:Hj.
    + exfalso. apply Hoff, Hkeys, Hsame. rewrite Hj. eauto.
    + reflexivity.
  - intros Hon Hnum. apply Hkeys, Hsame in Hon. destruct Hon as [inner Hj].
    rewrite Hj. cbn -[py_max]. unfold py_max. rewrite Hnum. reflexivity.
Qed.

Lemma on_grid_hour0 : on_grid hour0 hour2 hour0.
Proof. exists 0. vm_compute. repeat split; discriminate. Qed.

Lemma first_bad_record_witness :
  (~ on_grid hour0 hour2 (Fetch.start record_late) ->
   sort_by_hour 5 [point_A] series_late hour0 hour2
   = Some (Raise (KeyError (KTime (Fetch.start record_late))))) /\
  (on_grid hour0 hour2 (Fetch.start record_late) ->
   number (volume record_late) = None ->
   sort_by_hour 5 [point_A] series_late hour0 hour2 = Some (Raise TypeError)).
Proof.
  apply (first_bad_record 5 [point_A] series_late hour0 hour2
           [(point_A, record_A)] [] point_A record_late).
  - apply demo_valid.
  - apply demo_valid.
  - reflexivity.
  - reflexivity.
  - vm_compute. lia.
  - vm_compute. reflexivity.
  - repeat constructor. apply on_grid_hour0.
  - repeat constructor. eexists. reflexivity.
Defined.

Example late_record_raises :
  sort_by_hour 5 [point_A] series_late hour0 hour2
  = Some (Raise (KeyError (KTime hour2))).
Proof. vm_compute. reflexivity. Qed.

Example null_volume_raises :
  sort_by_hour 5 [point_A] series_null hour0 hour2 = Some (Raise TypeError).
Proof. vm_compute. reflexivity. Qed.

(** X9. Whenever [get_traffic_volume_by_hour] returns, the keys of the
    aggregate are the whole hours from the hour [start] falls in up to,
    and not including, the hour [stop] falls in: the hour that [stop]
    cuts is never a key. *)
Theorem aggregate_hours (net : network) (fuel : nat) (points : list point)
    (start stop : Z) (k k' : nat) (agg : gmap Z (gmap string cell))
    (m : json) :
  valid start -> valid stop ->
  (Z.to_nat ((floor_hour stop - floor_hour start) / US_PER_HOUR) < fuel)%nat ->
  get_traffic_volume_by_hour net fuel points start stop k
    = Some (Ok (agg, m), k') ->
  (forall h, is_Some (agg !! h)
             <-> on_grid (floor_hour start) (floor_hour stop) h) /\
  agg !! floor_hour stop = None.
Proof.
  intros Hvs Hvt Hfuel. rewrite get_traffic_volume_by_hour_sorts.
  destruct (query_traffic_volume_by_hour net fuel (map id points)
              (floor_hour start) (floor_hour stop) k)
    as [[[series|e] k1]|]; try discriminate.
  destruct (floor_hour_spec start Hvs) as (Hvs' & Has & _).
  destruct (floor_hour_spec stop Hvt) as (Hvt' & Hat & _).
  destruct (make_grid_spec fuel _ _ Hvs' Hvt' Has Hat Hfuel)
    as (grid & Hgrid & Hkeys & Hempty).
  unfold sort_by_hour. rewrite Hgrid, for_sensors_processed.
  intros [= Hrun _].
  destruct (insert_all_keys _ _ _ _ _ Hrun) as [Hk _].
  assert (Hall : forall h, is_Some (agg !! h)
                   <-> on_grid (floor_hour start) (floor_hour stop) h).
  { intros h. rewrite Hk. apply Hkeys. }
  split; [exact Hall|].
  destruct (agg !! floor_hour stop) as [inner|] eqn:Hstop; [|reflexivity].
  exfalso.
  assert (Hon : on_grid (floor_hour start) (floor_hour stop) (floor_hour stop)).
  { apply Hall. rewrite Hstop. eauto. }
  destruct Hon as (n & _ & _ & Hlt). lia.
Qed.

Lemma aggregate_hours_witness :
  (forall h, is_Some
               (({[midnight := {["A" := mk_cell (JInt 5) (JInt 10) (JInt 10);
                                 "B" := mk_cell (JInt 10) (JInt 20) (JInt 20)]};
                   midnight + hours 1 := ∅]} : gmap Z (gmap string cell)) !! h)
             <-> on_grid (floor_hour (midnight + 1234567000))
                   (floor_hour (midnight + hours 2 + 5)) h) /\
  ({[midnight := {["A" := mk_cell (JInt 5) (JInt 10) (JInt 10);
                   "B" := mk_cell (JInt 10) (JInt 20) (JInt 20)]};
     midnight + hours 1 := ∅]} : gmap Z (gmap string cell))
    !! floor_hour (midnight + hours 2 + 5) = None.
Proof.
  apply (aggregate_hours demo_network 5 [point_A; point_B]
           (midnight + 1234567000) (midnight + hours 2 + 5) 0 2 _ (JInt 10)).
  - unfold valid. vm_compute. split; discriminate.
  - unfold valid. vm_compute. split; discriminate.
  - vm_compute. lia.
  - vm_compute. reflexivity.
Defined.

End MoreAggregate.

Module MoreDates.
Import Time Calendar Text DateText Conversions.
Import CalendarSpec CalendarFacts DateTextSpec DateTextFacts.

Lemma set_field_microsecond d v f :
  microsecond (set_field d v f) = microsecond f.
Proof. destruct d; reflexivity. Qed.

(** no directive of the format sets the microsecond *)
Lemma match_format_microsecond fmt : forall f0 s f rest,
  In (f, rest) (match_format fmt f0 s) -> microsecond f = microsecond f0.
Proof.
  induction fmt as [|[d|c] fmt IH]; intros f0 s f rest; cbn [match_format].
  - intros [[= <- _]|[]]. reflexivity.
  - unfold m_bind. rewrite in_flat_map. intros ([v s'] & _ & Hin).
    rewrite (IH _ _ _ _ Hin). apply set_field_microsecond.
  - unfold m_bind. rewrite in_flat_map. intros ([u s'] & _ & Hin).
    apply (IH _ _ _ _ Hin).
Qed.

Lemma month_days_le y m :
  1 <= m <= 12 ->
  days_before_month y m + days_in_month y m
  <= 365 + (if is_leap y then 1 else 0).
Proof.
  intros Hm. unfold days_before_month, days_in_month.
  assert (m = 1 \/ m = 2 \/ m = 3 \/ m = 4 \/ m = 5 \/ m = 6 \/ m = 7 \/ m = 8
          \/ m = 9 \/ m = 10 \/ m = 11 \/ m = 12) as Hcases by lia.
  destruct (is_leap y);
    repeat (destruct Hcases as [->|Hcases]; [simpl; lia|]); subst m; simpl; lia.
Qed.

Lemma days_before_month_nonneg y m : 1 <= m <= 12 -> 0 <= days_before_month y m.
Proof.
  intros Hm. unfold days_before_month.
  assert (m = 1 \/ m = 2 \/ m = 3 \/ m = 4 \/ m = 5 \/ m = 6 \/ m = 7 \/ m = 8
          \/ m = 9 \/ m = 10 \/ m = 11 \/ m = 12) as Hcases by lia.
  destruct (is_leap y);
    repeat (destruct Hcases as [->|Hcases]; [simpl; lia|]); subst m; simpl; lia.
Qed.

(** the ordinal of a date of the calendar is between 1 and [MAXORDINAL] *)
Lemma ymd2ord_range y m d :
  1 <= y <= 9999 -> 1 <= m <= 12 -> 1 <= d <= days_in_month y m ->
  1 <= ymd2ord y m d <= MAXORDINAL.
Proof.
  intros Hy Hm Hd. unfold ymd2ord, MAXORDINAL.
  pose proof (month_days_le y m Hm) as Hmd.
  pose proof (days_before_month_nonneg y m Hm) as Hnn.
  pose proof (Z.div_mod (y - 1) 400 ltac:(lia)) as E1.
  pose proof (Z.mod_pos_bound (y - 1) 400 ltac:(lia)) as B1.
  set (a := (y - 1) / 400) in *. set (r1 := (y - 1) mod 400) in *.
  pose proof (Z.div_mod r1 100 ltac:(lia)) as E2.
  pose proof (Z.mod_pos_bound r1 100 ltac:(lia)) as B2.
  set (b := r1 / 100) in *. set (r2 := r1 mod 100) in *.
  pose proof (Z.div_mod r2 4 ltac:(lia)) as E3.
  pose proof (Z.mod_pos_bound r2 4 ltac:(lia)) as B3.
  set (c := r2 / 4) in *. set (e := r2 mod 4) in *.
  clearbody a r1 b r2 c e.
  assert (Hyy : y = a * 400 + 1 + (b * 100 + c * 4 + e)) by lia.
  assert (Ha : 0 <= a) by lia.
  assert (Hb : 0 <= b <= 3) by lia.
  assert (Hc : 0 <= c <= 24) by lia.
  assert (He : 0 <= e <= 3) by lia.
  rewrite Hyy in *.
  rewrite (days_before_year_split a b c e Ha Hb Hc He).
  rewrite (leap_flag a b c e Ha Hb Hc He) in Hmd.
  destruct (Z.eqb_spec e 3) as [He3|He3];
    destruct (negb (c =? 24) || (b =? 3)); cbn [andb] in Hmd; lia.
Qed.

Lemma check_fields_timeline f :
  check_fields f = true ->
  valid (to_timeline f) /\
  to_timeline f mod US_PER_SECOND = microsecond f mod US_PER_SECOND.
Proof.
  unfold check_fields. rewrite !andb_true_iff. rewrite !Z.leb_le.
  intros (((((((((((((Hy1 & Hy2) & Hm1) & Hm2) & Hd1) & Hd2) & Hh1) & Hh2)
             & Hmi1) & Hmi2) & Hs1) & Hs2) & Hu1) & Hu2).
  pose proof (ymd2ord_range (year f) (month f) (day f)
                (conj Hy1 Hy2) (conj Hm1 Hm2) (conj Hd1 Hd2)) as Hord.
  unfold valid, datetime_max, to_timeline, MAXORDINAL in *.
  unfold US_PER_DAY, US_PER_HOUR, US_PER_SECOND.
  set (o := ymd2ord (year f) (month f) (day f)) in *. clearbody o.
  split; [lia|].
  replace ((o - 1) * (24 * (3600 * 1000000)) + hour f * (3600 * 1000000)
           + minute f * (60 * 1000000) + second f * 1000000 + microsecond f)
    with (microsecond f
          + ((o - 1) * 86400 + hour f * 3600 + minute f * 60 + second f) * 1000000)
    by lia.
  apply Z.mod_add. lia.
Qed.

(** X10. Every datetime that [string_to_datetime] returns is a valid naive
    datetime (between [datetime.min] and [datetime.max]) with a whole number
    of seconds. *)
Theorem parsed_datetime_valid (s : string) (t : Z) :
  string_to_datetime s = Ok t -> valid t /\ t mod US_PER_SECOND = 0.
Proof.
  unfold string_to_datetime, strptime.
  destruct (match_format FORMAT default_fields (drop_last6 s))
    as [|[f rest] l] eqn:Hmatch; [discriminate|].
  destruct rest; [|discriminate].
  destruct (check_fields f) eqn:Hcheck; [|discriminate].
  intros [= <-].
  destruct (check_fields_timeline f Hcheck) as [Hvalid Hmod].
  split; [exact Hvalid|]. rewrite Hmod.
  rewrite (match_format_microsecond FORMAT default_fields (drop_last6 s) f EmptyString).
  - reflexivity.
  - rewrite Hmatch. left. reflexivity.
Qed.

Lemma parsed_datetime_valid_witness :
  valid start_2019 /\ start_2019 mod US_PER_SECOND = 0.
Proof.
  apply (parsed_datetime_valid "2019-10-24T00:00:00+02:00" start_2019).
  vm_compute. reflexivity.
Defined.

(** X11. [string_to_datetime] never reads the UTC offset: two texts that
    differ only in their last six characters give the same result, and a
    text of six characters or fewer raises [ValueError]. *)
Theorem offset_is_ignored (s six six' short : string) :
  String.length six = 6%nat -> String.length six' = 6%nat ->
  (String.length short <= 6)%nat ->
  string_to_datetime (s +:+ six) = string_to_datetime (s +:+ six') /\
  string_to_datetime short = Raise ValueError.
Proof.
  intros Hsix Hsix' Hshort. unfold string_to_datetime. split.
  - rewrite !drop_last6_append by assumption. reflexivity.
  - unfold drop_last6.
    replace (String.length short - 6)%nat with 0%nat by lia.
    replace (substring 0 0 short) with EmptyString by (destruct short; reflexivity).
    reflexivity.
Qed.

Lemma offset_is_ignored_witness :
  string_to_datetime ("2019-10-24T00:00:00" +:+ "+02:00")
  = string_to_datetime ("2019-10-24T00:00:00" +:+ "-11:30") /\
  string_to_datetime "00:00" = Raise ValueError.
Proof.
  apply (offset_is_ignored "2019-10-24T00:00:00" "+02:00" "-11:30" "00:00").
  - reflexivity.
  - reflexivity.
  - simpl. lia.
Defined.

(** a timestamp in UTC notation loses its seconds to the slice *)
Example utc_text_rejected :
  string_to_datetime "2019-10-24T00:00:00Z" = Raise ValueError.
Proof. vm_compute. reflexivity. Qed.

End MoreDates.

Module MorePoints.
Import Text Json Transport Query Points.
Import TransportSpec TransportFacts FetchSpec MoreSpec.
Local Open Scope nat_scope.

Lemma make_point_encode p : make_point (encode_point p) = Ok p.
Proof. destruct p. reflexivity. Qed.

Lemma make_points_encode ps : make_points (map encode_point ps) = Ok ps.
Proof.
  induction ps as [|p ps IH]; [reflexivity|].
  cbn [map make_points]. rewrite make_point_encode. cbn [rbind].
  rewrite IH. reflexivity.
Qed.

Lemma request_at_once net query k r :
  net k query = Responded r -> status_code r = 200%Z ->
  request net query k = Some (Ok r, S k).
Proof.
  intros Hnet Hs.
  rewrite (request_answer net query k 0) by (lia || intros j Hj; lia).
  rewrite Nat.add_0_r, Hnet, Hs. reflexivity.
Qed.

(** X12. Decoding undoes the layout of the service: when the first POST is
    answered with status 200 and a payload that lists sensors with their
    nested coordinates, [get_traffic_registration_points] returns these
    sensors with flat coordinates, in the order of the payload, after one
    POST. *)
Theorem points_decoded (net : network) (f : filters) (k : nat)
    (ps : list registration_point) :
  net k (query_traffic_registration_point_search f)
    = Responded (ok_response (points_payload (JArr (map encode_point ps)))) ->
  get_traffic_registration_points net f k = Some (Ok ps, S k).
Proof.
  intros Hnet. unfold get_traffic_registration_points, io_bind.
  rewrite (request_at_once net _ k _ Hnet eq_refl).
  unfold io_lift, points_of_response, ok_response, points_payload.
  cbn -[make_points]. rewrite make_points_encode. reflexivity.
Qed.

Lemma points_decoded_witness :
  get_traffic_registration_points
    (prompt (fun _ => ok_response
                        (points_payload (JArr (map encode_point two_sensors)))))
    (mk_filters None None None (Some "Vehicle") None) 0
  = Some (Ok two_sensors, 1).
Proof.
  apply (points_decoded _ (mk_filters None None None (Some "Vehicle") None) 0
           two_sensors).
  reflexivity.
Defined.

Lemma make_points_app before : forall rest ps,
  make_points before = Ok ps ->
  make_points (before ++ rest) = (qs <-! make_points rest; Ok (ps ++ qs)).
Proof.
  induction before as [|i before IH]; intros rest ps.
  - cbn [make_points List.app]. intros [= <-].
    destruct (make_points rest); reflexivity.
  - cbn [make_points List.app].
    destruct (make_point i) as [p|e]; [|discriminate]. cbn [rbind].
    destruct (make_points before) as [ps0|e] eqn:Hb; [|discriminate].
    cbn [rbind]. intros [= <-]. rewrite (IH rest ps0 eq_refl).
    destruct (make_points rest); reflexivity.
Qed.

(** X13. The sensor search swallows nothing: the first entry of the
    payload that cannot be decoded makes the whole call raise what decoding
    it raises, after the one POST; an entry whose location is null raises
    [TypeError]. *)
Theorem first_failing_entry (net : network) (f : filters) (k : nat)
    (before after : list json) (j : json) (ps : list registration_point)
    (e : exn) :
  net k (query_traffic_registration_point_search f)
    = Responded (ok_response (points_payload (JArr (before ++ j :: after)))) ->
  make_points before = Ok ps ->
  make_point j = Raise e ->
  get_traffic_registration_points net f k = Some (Raise e, S k) /\
  (forall id name, make_point (unlocated id name) = Raise TypeError).
Proof.
  intros Hnet Hbefore Hj. split; [|reflexivity].
  unfold get_traffic_registration_points, io_bind.
  rewrite (request_at_once net _ k _ Hnet eq_refl).
  unfold io_lift, points_of_response, ok_response, points_payload.
  cbn -[make_points]. rewrite (make_points_app before _ ps Hbefore).
  cbn [make_points]. rewrite Hj. reflexivity.
Qed.

Lemma first_failing_entry_witness :
  get_traffic_registration_points
    (prompt (fun _ => ok_response (points_payload (JArr
       (map encode_point two_sensors
        ++ unlocated (JStr "C") (JStr "c") :: [])))))
    (mk_filters None None None None None) 0
  = Some (Raise TypeError, 1) /\
  (forall id name, make_point (unlocated id name) = Raise TypeError).
Proof.
  apply (first_failing_entry _ (mk_filters None None None None None) 0
           (map encode_point two_sensors) []
           (unlocated (JStr "C") (JStr "c")) two_sensors TypeError).
  - reflexivity.
  - reflexivity.
  - reflexivity.
Defined.

End MorePoints.

Module MorePipeline.
Import Time Json Transport Query Partition Fetch Aggregate.
Import AggregateSpec AggregateFacts MoreSpec MoreFetch MoreAggregate.

(** X14. From the service to the aggregate: with a service that answers
    every POST at once with status 200 and a payload the [try] body
    accepts or skips, [get_traffic_volume_by_hour], when it returns, has
    issued one POST for each pair of a window and a listed sensor, and the
    cell of an hour and a sensor id is the one of the last record for that
    hour in the responses for that sensor, taken window after window. *)
Theorem service_to_aggregate (srv : string -> response) (fuel : nat)
    (points : list point) (start stop : Z) (windows : list (Z * Z))
    (k k' : nat) (agg : gmap Z (gmap string cell)) (m : json) :
  compute_divisions fuel (floor_hour start) (floor_hour stop)
    = Some (Ok windows) ->
  (forall query, passable (srv query)) ->
  get_traffic_volume_by_hour (prompt srv) fuel points start stop k
    = Some (Ok (agg, m), k') ->
  k' = (k + length points * length windows)%nat /\
  forall h sensor,
    cell_at agg h sensor
    = last_cell h sensor (expected_processed srv points windows).
Proof.
  intros Hdiv Hsrv. rewrite get_traffic_volume_by_hour_sorts.
  unfold query_traffic_volume_by_hour, io_bind, io_fuel. rewrite Hdiv.
  destruct (for_divisions_prompt srv (map id points) windows Hsrv ∅ k)
    as (series & Hrun & Hrec).
  rewrite Hrun. unfold sort_by_hour.
  destruct (make_grid fuel (floor_hour start) (floor_hour stop))
    as [[grid|e]|] eqn:Hgrid; try discriminate.
  rewrite for_sensors_processed. intros [= Hins Hk]. split.
  - rewrite <- Hk, length_map. reflexivity.
  - intros h sensor.
    rewrite (insert_all_cells _ _ _ _ _ Hins h sensor).
    rewrite (grid_cells_empty _ _ _ _ Hgrid h sensor).
    assert (Hproc : processed points series = expected_processed srv points windows).
    { unfold processed, expected_processed.
      apply flat_map_ext. intros i. rewrite Hrec.
      unfold records_of. rewrite lookup_empty. reflexivity. }
    rewrite Hproc.
    destruct (last_cell h sensor (expected_processed srv points windows));
      reflexivity.
Qed.

Lemma service_to_aggregate_witness :
  2%nat = (0 + length [point_A; point_B] * length one_window)%nat /\
  forall h sensor,
    cell_at aggregate_of_one_record h sensor
    = last_cell h sensor
        (expected_processed one_record_service [point_A; point_B] one_window).
Proof.
  apply (service_to_aggregate one_record_service 5 [point_A; point_B]
           (midnight + 1234567000) (midnight + hours 2 + 5)
           one_window 0 2 aggregate_of_one_record (JInt 5)).
  - vm_compute. reflexivity.
  - intros query. split; [reflexivity|]. left. eexists. vm_compute. reflexivity.
  - vm_compute. reflexivity.
Defined.

End MorePipeline.
